(* ===== verification/_CoqProject ===== *)
-Q . S2P
Prelude.v
Json.v
Http.v
Platform.v
Storage.v
JsonText.v
JsonFuel.v
Axios.v
AuthService.v
Session.v
Browser.v
Dashboard.v
