(* ===== verification/Prelude.v ===== *)
(** * Verification of the Logistics Management System front end

    ** The program

    The repository holds two JavaScript files.

    - [src/frontend/src/services/authService.js]: the class [AuthService], a
      session client.  [login] posts the credentials to the remote
      authentication API, and when the reply carries a truthy [token] it
      stores the serialised reply under the key ['user'] of [localStorage]
      and returns it; every failure is turned into the object
      [{success: false, message}].  [logout] removes the key.  [register]
      posts a registration request and hands the reply, or the error, to the
      caller unchanged.  [getCurrentUser] parses what the key holds.
    - [src/frontend/src/components/dashboards/WarehouseStaffDashboard.js]: a
      React component without state that renders fixed markup.

    The service talks to three parts of the platform: the HTTP client
    (axios), the browser's [localStorage] and the [JSON] object.  None of
    them is code of the repository.  [JSON] and [localStorage] are each
    modelled as an interface (a type class with its laws) together with
    one executable instance.  The methods take what a request settles
    to as a parameter; [Axios] models how axios gets it from the reply
    of a server, and [Browser] runs the service against a server.

    ** The files, in dependency order

    - [Prelude] (this file): the result type [result], the state and
      exception monad [prog] in which the service's methods are written,
      with its notations (scope [prog_scope]), the predicates [no_throw] and
      [preserves] and the class [Respects] (a computation maps related
      states to the same result in related states) with their composition
      lemmas and instances, the hint databases [prog] and [prog_rw] and
      the tactics of the development.
    - [Json]: JavaScript values as far as the service sees them: the type
      [json], [undefined] as [None] ([jsval]), truthiness ([json_truthy],
      [truthy]), property access ([get_prop]), the tests [v && v.k]
      ([has_truthy], [checked], [truthy_prop]) and [a || b] ([js_or]) of
      the service, and well-formed values ([json_wf]).
    - [Http]: requests, replies and errors of axios ([http_request],
      [http_response], [js_error]), the outcome of a request ([outcome]),
      the network as a function from requests to outcomes ([network]), and
      the entries of the console.
    - [Platform]: the interface [JsonCodec] ([JSON.stringify], [JSON.parse]
      and the round-trip law the service relies on), the interface
      [KVStore] ([getItem], [setItem], [removeItem] and their laws), the
      state [world] the methods run in (the store and the console), the
      calls of the platform as computations ([console_log],
      [localStorage_setItem], [JSON_parse_item], ...), and the relations
      [same_except], [same_storage] and [console_grows] between the world
      before and after; [same_storage] is also the equivalence of worlds
      that forgets the console.
    - [Storage]: an executable instance of [KVStore]: a [gmap] from keys to
      strings with an optional quota, past which [setItem] throws
      [QuotaExceededError].
    - [JsonText]: an executable instance of [JsonCodec]: a printer
      ([stringify]) and a recursive-descent parser with fuel ([parse]) for
      the JSON text format, and the proof that parsing a printed value
      gives the value back.
    - [JsonFuel]: the fuel of the parser of [JsonText]: each parser
      consumes at least as many characters as it needs fuel
      ([fuel_bounded]).
    - [Axios]: [axios.post] with the defaults the service leaves in
      place: the request as sent ([transformRequest]), the reply as
      received ([wire_reply]), [validateStatus], [transformResponse], and
      what the promise settles to ([settle], [axios_post]); a [server]
      gives each request a reply or none.
    - [AuthService]: the four methods of [authService.js], each as one
      definition in [prog]: [login] is [login_start] (the code up to the
      [await]) followed by [login_resume] (the rest of the [try] block,
      [login_try], under the [catch] block, [login_catch]); [register] is
      [register_start] followed by [register_resume] (the handlers of
      [.then] and [.catch]); [logout]; [getCurrentUser].  [login_spec] is
      the contract of [login] as a pure function of the outcome of the
      request and the store; [login_logs] and [register_logs] are the
      contracts of what the two methods write to the console.
    - [Session]: calls that interleave at the suspension points.  This is
      the event loop of JavaScript, modelled from section 5 of [spec.md]
      and not from lines of the source: a state ([system]) is the world
      and the list of requests in flight; a command is a call of a method
      or the settling of a request with an outcome the environment
      chooses; [exec] runs the piece of [AuthService] that JavaScript
      would run, and [step] is the same as a relation.  [astep] is the
      abstract machine of the specification's persisted session, whose
      state is one optional session record; [represents] relates the
      store to that record.
    - [Browser]: the system of [Session] closed with a server: an [event]
      is a call or the delivery of the reply to a request in flight,
      which settles the request with [axios_post] of the server
      ([command_of], [run_events]); [login_http_spec] is the contract of
      [login] on the reply on the wire.
    - [Dashboard]: the JSX expression [WarehouseStaffDashboard.js] returns
      as a tree of elements ([element]: tag, props, children), in the
      parts [stats_row] (the three cards with figures) and [work_row] (the
      table of tasks and the quick actions), and executable conditions on
      such trees: [grid_ok] (every [Row] is filled by its [Col]s),
      [table_ok] (body rows as wide as the header), [is_static] (no event
      handler).

    ** What the theorems show

    - [Prelude]: the monad laws and how [no_throw] and [preserves] compose.
    - [Json]: which values are truthy, what [get_prop] returns, which
      values the tests of the service let through.
    - [JsonText]: [parse (stringify v) = Ok v] for every well-formed [v]
      ([parse_stringify]); the fuel [parse] gives its parser is enough for
      that; whatever the text, [parse] returns well-formed values only
      ([parse_wf]).
    - [JsonFuel]: more fuel never changes what the parser returns, and
      [parse] returns a value exactly when the parser returns it with
      some fuel ([parse_fuel_enough]): the fuel decides nothing.
    - [Axios]: the body the service sees is well-formed whatever the
      server sends ([settle_wf]); a promise resolves with a status from
      200 to 299 and rejects with any other; every error has a message;
      the body sent parses back to the data of the call.
    - [Storage]: the laws of [KVStore] for the [gmap] instance, and when
      [setItem] throws.
    - [AuthService]: [login] refines [login_spec]; the value returned and
      the store left in each of its branches (reply accepted, reply
      without truthy token, error with a message in its body, error
      without, store that refuses the write); that [login] never throws
      and writes no key but ['user']; that [register] settles as its
      request does; that [logout] clears the key; what [getCurrentUser]
      returns for an absent, a serialised and a malformed value; that a
      successful [login] followed by [getCurrentUser] gives the reply
      back, against the interfaces and, with nothing assumed, in the
      browser of [Storage] and [JsonText]; that a [login] that fails
      leaves the session that was there ([failed_login_keeps_session]);
      that [login] resolves to a body with a truthy token or to a
      failure object with a truthy message ([login_result_type]); what
      [login] and [register] write to the console ([login_console],
      [register_console]).  The instances of [Respects same_storage] say
      that no method reads the console; the console of the model has no
      operation that reads it, so this holds of any program written
      with the calls of [Platform] and is not counted among the
      properties of the service.
    - [Session]: every command but the settling of an unknown request
      takes exactly one step; along every trace the service refines the
      abstract session machine ([steps_simulation]); the key ['user'] is
      absent or holds a serialised session record in every state reached
      ([session_ok_invariant]), and there [getCurrentUser] does not throw;
      no trace writes another key or shortens the console; [logout] does
      not cancel a login in flight; the last accepted login wins;
      [getCurrentUser] right after [logout] returns [null] whatever came
      before.
    - [Browser]: what [login] returns and stores by the status and the
      body of the reply ([login_over_http]); for every server and every
      order of calls and replies, the invariant of the persisted session
      ([served_session_ok]); in the store of [Storage], that the service
      takes the room of one session however many logins there are
      ([steps_storage_bound]), that [getCurrentUser] does not depend on
      the fuel of the parser, and that the last fallback text of [login]
      comes from the server or not at all.
    - [Dashboard]: what [grid_ok], [table_ok] and [is_static] decide of
      any tree.  The component is one fixed tree, so what holds of it is
      an evaluation and not a property of a program: that its rows take
      the twelve columns of the grid, that its table has five cells in
      every row, that none of its elements has a handler and that its
      figures are 15, 34 and 8 are examples of the file.
    - The theorems with hypotheses are each applied to a concrete input
      (the lemmas named [_witness]), in the browser of [Storage] and
      [JsonText].

    ** Bounds

    - Strings are sequences of 8-bit code units ([string] of the Standard
      Library).  JavaScript strings are sequences of 16-bit code units; the
      model covers the strings whose code units are below 256.
    - Numbers are integers ([Z]).  A JSON number with a fraction or an
      exponent, or an integer that JavaScript does not represent
      exactly, is outside the model: the parser of [JsonText] rejects
      the text, where [JSON.parse] returns a number.  The law
      [JSON_parse_wf] of [JsonCodec] is this bound as an assumption on
      the codec.  What the theorems say of a body or of a stored text is
      said of those within the model; [transformResponse] of the
      instance keeps a body outside it as a string.  The round trip is
      stated for the integers JavaScript represents exactly,
      [-MAX_SAFE_INTEGER] to [MAX_SAFE_INTEGER].
    - A thrown value is an object with the properties [message] and
      [response] ([js_error]), each possibly [undefined]: the errors of
      axios and of the platform are such objects.  A thrown [null] or
      [undefined], at which the [catch] block of [login] would itself
      throw when it reads [error.response], is not a value of the model,
      and [login_never_throws] is a statement about thrown objects.
    - The arguments of [login] and [register] are strings, as the form
      fields that callers pass are; the source would send any value.
    - The parser takes fuel.  One unit is spent per value, array element
      and object member, all of which consume at least one character, so
      the length of the text plus one is enough; [parse] supplies it, and
      the round-trip theorem is about [parse] itself.
    - An object is the list of its keys and values in the order the engine
      enumerates them; a well-formed object has no key twice.  The order
      engines give to keys that are array indices is not imposed.
    - The transition system of [Session] has no bound on the number of
      requests in flight or on the length of a trace.

    ** Not modelled

    - The server behind the API: it is a parameter ([server]), of which
      nothing is assumed.  In [AuthService] and [Session] even less is
      fixed: the outcome of a request is any value or error.
    - Of axios: interceptors, timeouts, redirects, cancellation and the
      matching of header names without regard to case, none of which the
      service uses.
    - What the console prints: the calls and their arguments are recorded,
      not rendered.
    - Rendering, styling and event dispatch of React and react-bootstrap:
      the dashboard is the tree its function returns.  What the
      components of react-bootstrap turn that tree into is code of a
      library the sources only call, and [spec.md] leaves the layout out.
    - Other scripts of the page that write [localStorage], timers and
      cancellation. *)

From stdpp Require Import base option list.

(** ** Results: a value or a thrown exception *)

Inductive result (E A : Type) : Type :=
| Ok (a : A)
| Throw (e : E).

Arguments Ok {E A} a.
Arguments Throw {E A} e.

Definition is_ok {E A} (r : result E A) : bool :=
  match r with Ok _ => true | Throw _ => false end.

Definition result_map {E A B} (f : A → B) (r : result E A) : result E B :=
  match r with Ok a => Ok (f a) | Throw e => Throw e end.

(** ** The monad of the service's methods

    A computation reads and writes a state [W] and ends with a value or
    with an exception.  As in JavaScript, what was written before an
    exception is thrown stays written. *)

Definition prog (W E A : Type) : Type := W → result E A * W.

Definition ret {W E A} (a : A) : prog W E A := λ w, (Ok a, w).

Definition throw {W E A} (e : E) : prog W E A := λ w, (Throw e, w).

Definition bind {W E A B} (c : prog W E A) (k : A → prog W E B) : prog W E B :=
  λ w, match c w with
       | (Ok a, w') => k a w'
       | (Throw e, w') => (Throw e, w')
       end.

(** [try { c } catch (e) { h e }] *)
Definition try_catch {W E A} (c : prog W E A) (h : E → prog W E A) : prog W E A :=
  λ w, match c w with
       | (Ok a, w') => (Ok a, w')
       | (Throw e, w') => h e w'
       end.

Definition get_state {W E} : prog W E W := λ w, (Ok w, w).

Definition modify {W E} (f : W → W) : prog W E unit := λ w, (Ok tt, f w).

(** A step of the platform that may throw: [f] gives the new state or the
    exception. *)
Definition attempt {W E} (f : W → result E W) : prog W E unit :=
  λ w, match f w with
       | Ok w' => (Ok tt, w')
       | Throw e => (Throw e, w)
       end.

Definition run_value {W E A} (c : prog W E A) (w : W) : result E A := fst (c w).
Definition run_state {W E A} (c : prog W E A) (w : W) : W := snd (c w).

Declare Scope prog_scope.
Delimit Scope prog_scope with prog.
Bind Scope prog_scope with prog.

Notation "x <- c ;; k" := (bind c (λ x, k))
  (at level 20, c at level 99, k at level 200, only parsing) : prog_scope.
Notation "c ;; k" := (bind c (λ _, k))
  (at level 100, k at level 200, right associativity, only parsing) : prog_scope.

(** ** Properties of computations *)

(** [c] ends with a value, from every state. *)
Definition no_throw {W E A} (c : prog W E A) : Prop :=
  ∀ w, ∃ a, run_value c w = Ok a.

(** [c] keeps the relation [R] between the state before and after, whether
    it ends with a value or an exception. *)
Definition preserves {W E A} (R : W → W → Prop) (c : prog W E A) : Prop :=
  ∀ w, R w (run_state c w).

(** [c] respects the relation [R] on states: from related states it ends
    with the same result, in related states.  For an equivalence [R] that
    forgets a part of the state, [c] does not read that part. *)
Class Respects {W E A} (R : relation W) (c : prog W E A) : Prop :=
  respects : Proper (R ==> prod_relation (=) R) c.

Create HintDb prog discriminated.
Create Rewrite HintDb prog_rw.

(** Unfold the monad in the goal and in the hypotheses. *)
(** Close a goal between closed terms by evaluation. *)
Ltac by_eval := vm_compute; reflexivity.

Ltac unfold_prog :=
  unfold run_value, run_state, bind, try_catch, ret, throw, modify,
    get_state, attempt in *.

(** Case analysis on the result of the computation a [match] runs first. *)
Ltac case_run :=
  match goal with
  | |- context [match ?c ?w with (_, _) => _ end] =>
      let r := fresh "r" in let w' := fresh "w" in let E := fresh "Hrun" in
      destruct (c w) as [r w'] eqn:E; destruct r
  | H : context [match ?c ?w with (_, _) => _ end] |- _ =>
      let r := fresh "r" in let w' := fresh "w" in let E := fresh "Hrun" in
      destruct (c w) as [r w'] eqn:E; destruct r
  end.

(** ** Lists *)

Lemma Forall_mp {A} (P Q : A → Prop) (l : list A) :
  Forall (λ x, P x → Q x) l → Forall P l → Forall Q l.
Proof. induction 1; inversion 1; constructor; auto. Qed.

Section monad_laws.
Context {W E : Type}.

Lemma bind_ret_l {A B} (a : A) (k : A → prog W E B) w :
  bind (ret a) k w = k a w.
Proof. reflexivity. Qed.

Lemma bind_ret_r {A} (c : prog W E A) w : bind c ret w = c w.
Proof. unfold bind, ret. by destruct (c w) as [[] ?]. Qed.

Lemma bind_assoc {A B C} (c : prog W E A) (k : A → prog W E B)
    (k' : B → prog W E C) w :
  bind (bind c k) k' w = bind c (λ a, bind (k a) k') w.
Proof. unfold bind. by destruct (c w) as [[] ?]. Qed.

Lemma bind_throw {A B} (e : E) (k : A → prog W E B) w :
  bind (throw e) k w = throw e w.
Proof. reflexivity. Qed.

Lemma try_catch_ret {A} (a : A) (h : E → prog W E A) w :
  try_catch (ret a) h w = ret a w.
Proof. reflexivity. Qed.

Lemma try_catch_throw {A} (e : E) (h : E → prog W E A) w :
  try_catch (throw e) h w = h e w.
Proof. reflexivity. Qed.

(** *** Running a computation whose first part is known *)

Lemma bind_run_Ok {A B} (c : prog W E A) (k : A → prog W E B) w a w' :
  c w = (Ok a, w') → bind c k w = k a w'.
Proof. unfold bind. by intros ->. Qed.

Lemma bind_run_Throw {A B} (c : prog W E A) (k : A → prog W E B) w e w' :
  c w = (Throw e, w') → bind c k w = (Throw e, w').
Proof. unfold bind. by intros ->. Qed.

Lemma try_catch_run_Ok {A} (c : prog W E A) (h : E → prog W E A) w a w' :
  c w = (Ok a, w') → try_catch c h w = (Ok a, w').
Proof. unfold try_catch. by intros ->. Qed.

Lemma try_catch_run_Throw {A} (c : prog W E A) (h : E → prog W E A) w e w' :
  c w = (Throw e, w') → try_catch c h w = h e w'.
Proof. unfold try_catch. by intros ->. Qed.

Lemma run_surjective {A} (c : prog W E A) w :
  c w = (run_value c w, run_state c w).
Proof. unfold run_value, run_state. by destruct (c w). Qed.

(** *** [no_throw] *)

Lemma no_throw_ret {A} (a : A) : no_throw (W:=W) (E:=E) (ret a).
Proof. intros w. by exists a. Qed.

Lemma no_throw_modify (f : W → W) : no_throw (E:=E) (modify f).
Proof. intros w. by exists tt. Qed.

Lemma no_throw_get_state : no_throw (W:=W) (E:=E) get_state.
Proof. intros w. by exists w. Qed.

Lemma no_throw_bind {A B} (c : prog W E A) (k : A → prog W E B) :
  no_throw c → (∀ a, no_throw (k a)) → no_throw (bind c k).
Proof.
  intros Hc Hk w. destruct (Hc w) as [a Ha].
  unfold run_value, bind in *. destruct (c w) as [r w']; simpl in Ha; subst r.
  apply Hk.
Qed.

(** A handler that cannot throw makes the whole [try] unable to throw,
    whatever the body does. *)
Lemma no_throw_try_catch {A} (c : prog W E A) (h : E → prog W E A) :
  (∀ e, no_throw (h e)) → no_throw (try_catch c h).
Proof.
  intros Hh w. unfold run_value, try_catch.
  destruct (c w) as [[a|e] w']; [by exists a | apply Hh].
Qed.

(** *** [preserves] *)

Lemma preserves_ret {A} (R : W → W → Prop) `{!Reflexive R} (a : A) :
  preserves (E:=E) R (ret a).
Proof. intros w. reflexivity. Qed.

Lemma preserves_throw {A} (R : W → W → Prop) `{!Reflexive R} (e : E) :
  preserves (A:=A) R (throw e).
Proof. intros w. reflexivity. Qed.

Lemma preserves_get_state (R : W → W → Prop) `{!Reflexive R} :
  preserves (E:=E) R get_state.
Proof. intros w. reflexivity. Qed.

Lemma preserves_modify (R : W → W → Prop) (f : W → W) :
  (∀ w, R w (f w)) → preserves (E:=E) R (modify f).
Proof. intros Hf w. apply Hf. Qed.

Lemma preserves_attempt (R : W → W → Prop) `{!Reflexive R} (f : W → result E W) :
  (∀ w w', f w = Ok w' → R w w') → preserves R (attempt f).
Proof.
  intros Hf w. unfold run_state, attempt.
  destruct (f w) eqn:Hfw; simpl; [by apply Hf | reflexivity].
Qed.

Lemma preserves_bind {A B} (R : W → W → Prop) `{!Reflexive R, !Transitive R}
    (c : prog W E A) (k : A → prog W E B) :
  preserves R c → (∀ a, preserves R (k a)) → preserves R (bind c k).
Proof.
  intros Hc Hk w. specialize (Hc w). unfold run_state, bind in *.
  destruct (c w) as [[a|e] w']; simpl in *; [|done].
  etrans; [exact Hc | apply Hk].
Qed.

Lemma preserves_try_catch {A} (R : W → W → Prop) `{!Transitive R}
    (c : prog W E A) (h : E → prog W E A) :
  preserves R c → (∀ e, preserves R (h e)) → preserves R (try_catch c h).
Proof.
  intros Hc Hh w. specialize (Hc w). unfold run_state, try_catch in *.
  destruct (c w) as [[a|e] w']; simpl in *; [done|].
  etrans; [exact Hc | apply Hh].
Qed.

(** *** [Respects] *)

Section respects.
Context (R : relation W).

#[export] Instance ret_respects {A} (a : A) : Respects (E:=E) R (ret a).
Proof. by intros w1 w2 Hw. Qed.

#[export] Instance throw_respects {A} (e : E) : Respects (A:=A) R (throw e).
Proof. by intros w1 w2 Hw. Qed.

#[export] Instance bind_respects {A B} (c : prog W E A) (k : A → prog W E B) :
  Respects R c → (∀ a, Respects R (k a)) → Respects R (bind c k).
Proof.
  intros Hc Hk w1 w2 Hw. unfold bind. specialize (Hc w1 w2 Hw).
  destruct (c w1) as [r1 w1'], (c w2) as [r2 w2'], Hc as [Hr Hw'].
  simpl in Hr, Hw'. subst r2. destruct r1 as [a|e]; [by apply Hk|done].
Qed.

#[export] Instance try_catch_respects {A} (c : prog W E A) (h : E → prog W E A) :
  Respects R c → (∀ e, Respects R (h e)) → Respects R (try_catch c h).
Proof.
  intros Hc Hh w1 w2 Hw. unfold try_catch. specialize (Hc w1 w2 Hw).
  destruct (c w1) as [r1 w1'], (c w2) as [r2 w2'], Hc as [Hr Hw'].
  simpl in Hr, Hw'. subst r2. destruct r1 as [a|e]; [done|by apply Hh].
Qed.

#[export] Instance modify_respects (f : W → W) :
  Proper (R ==> R) f → Respects (E:=E) R (modify f).
Proof. intros Hf w1 w2 Hw. split; [done|by apply Hf]. Qed.

(** Where [c] respects [R], its value and its final state do. *)
Lemma respects_run {A} (c : prog W E A) `{!Respects R c} w1 w2 :
  R w1 w2 → run_value c w1 = run_value c w2 ∧ R (run_state c w1) (run_state c w2).
Proof. intros Hw. apply (respects (c:=c) w1 w2 Hw). Qed.

Lemma respects_eq {A} (c : prog W E A) `{!Respects R c} w1 w2 r w1' :
  R w1 w2 → c w1 = (r, w1') → ∃ w2', c w2 = (r, w2') ∧ R w1' w2'.
Proof.
  intros Hw Hc. destruct (respects (c:=c) w1 w2 Hw) as [Hr Hw'].
  rewrite Hc in Hr, Hw'. simpl in Hr, Hw'. exists (c w2).2. split; [|done].
  rewrite Hr. apply surjective_pairing.
Qed.

End respects.

End monad_laws.

#[export] Hint Resolve no_throw_ret no_throw_modify no_throw_get_state
  no_throw_bind no_throw_try_catch : prog.
#[export] Hint Resolve preserves_ret preserves_throw preserves_get_state
  preserves_modify preserves_attempt preserves_bind preserves_try_catch : prog.
#[export] Hint Rewrite @bind_ret_l @bind_throw @try_catch_ret
  @try_catch_throw : prog_rw.
