(* ===== verification/Json.v ===== *)
(** * JavaScript values as the session client sees them

    The values that flow through [authService.js] are parsed JSON: the body
    of a reply ([response.data]), the body of an error reply
    ([error.response.data]) and what [JSON.parse] returns.  This file holds
    their type [json], with [undefined] as [None] of [option json], and the
    observations the service makes on them: truthiness (the conditions of
    its [if]s), property access ([.token], [.message]) and the operator
    [||]. *)

From stdpp Require Import base option list strings.
From Stdlib Require Import ZArith.
From S2P Require Import Prelude.

Local Open Scope Z_scope.

(** ** Values *)

Unset Elimination Schemes.
Inductive json : Type :=
| JNull
| JBool (b : bool)
| JNum (n : Z)
| JStr (s : string)
| JArr (items : list json)
| JObj (fields : list (string * json)).
Set Elimination Schemes.

(** A JavaScript value: [None] is [undefined]. *)
Abbreviation jsval := (option json).

(** The integers a JavaScript number holds exactly
    ([Number.isSafeInteger]). *)
Definition MAX_SAFE_INTEGER : Z := 2 ^ 53 - 1.

Definition safe_integer (n : Z) : bool :=
  bool_decide (- MAX_SAFE_INTEGER ≤ n ≤ MAX_SAFE_INTEGER).

(** The own property [k] of an object whose properties are [fields]. *)
Fixpoint get_field (k : string) (fields : list (string * json)) : option json :=
  match fields with
  | [] => None
  | (k', v) :: rest => if decide (k' = k) then Some v else get_field k rest
  end.

(** [v.k] for a value [v] that is neither [null] nor [undefined], and a key
    [k] that no prototype defines (the service reads [token] and [message]):
    the own property of an object, [undefined] on everything else. *)
Definition get_prop (k : string) (v : json) : jsval :=
  match v with
  | JObj fields => get_field k fields
  | _ => None
  end.

(** [ToBoolean]: [null], [false], [0] and the empty string are falsy,
    every array and object is truthy. *)
Definition json_truthy (v : json) : bool :=
  match v with
  | JNull => false
  | JBool b => b
  | JNum n => negb (n =? 0)
  | JStr s => negb (String.eqb s "")
  | JArr _ => true
  | JObj _ => true
  end.

Definition truthy (v : jsval) : bool :=
  match v with
  | Some j => json_truthy j
  | None => false
  end.

(** The condition [v && v.k]: the property is read only when [v] is
    truthy, so the read cannot fail. *)
Definition has_truthy (k : string) (v : jsval) : bool :=
  truthy v && truthy (v ≫= get_prop k).

(** The value [v] itself where the condition [v && v.k] holds. *)
Definition checked (k : string) (v : jsval) : option json :=
  if has_truthy k v then v else None.

(** The value of [v.k] where the condition [v && v.k] holds. *)
Definition truthy_prop (k : string) (v : jsval) : option json :=
  if has_truthy k v then v ≫= get_prop k else None.

(** [a || b], for a [b] that is not [undefined] *)
Definition js_or (a : jsval) (b : json) : json :=
  match a with
  | Some j => if json_truthy j then j else b
  | None => b
  end.

(** Well-formed values: no object has two properties of the same name, and
    every number is a safe integer. *)
Fixpoint json_wf (v : json) : bool :=
  match v with
  | JNull | JBool _ | JStr _ => true
  | JNum n => safe_integer n
  | JArr items => forallb json_wf items
  | JObj fields =>
      bool_decide (NoDup (fields.*1)) && forallb (λ kv, json_wf kv.2) fields
  end.

(** The nesting depth of a value. *)
Fixpoint json_depth (v : json) : nat :=
  match v with
  | JArr items => S (foldr (λ x d, Nat.max (json_depth x) d) 0%nat items)
  | JObj fields => S (foldr (λ kv d, Nat.max (json_depth kv.2) d) 0%nat fields)
  | _ => 1%nat
  end.

(** ** Induction on values

    The principle Rocq derives for [json] has no hypothesis on the elements
    of an array or the properties of an object. *)

Section json_induction.
Variable P : json → Prop.
Hypothesis Hnull : P JNull.
Hypothesis Hbool : ∀ b, P (JBool b).
Hypothesis Hnum : ∀ n, P (JNum n).
Hypothesis Hstr : ∀ s, P (JStr s).
Hypothesis Harr : ∀ items, Forall P items → P (JArr items).
Hypothesis Hobj : ∀ fields, Forall (λ kv, P kv.2) fields → P (JObj fields).

Fixpoint json_ind' (v : json) : P v :=
  match v with
  | JNull => Hnull
  | JBool b => Hbool b
  | JNum n => Hnum n
  | JStr s => Hstr s
  | JArr items =>
      Harr items
        ((fix go (l : list json) : Forall P l :=
            match l with
            | [] => Forall_nil_2 P
            | x :: l' => Forall_cons_2 P x l' (json_ind' x) (go l')
            end) items)
  | JObj fields =>
      Hobj fields
        ((fix go (l : list (string * json)) : Forall (λ kv, P kv.2) l :=
            match l with
            | [] => Forall_nil_2 _
            | kv :: l' => Forall_cons_2 _ kv l' (json_ind' kv.2) (go l')
            end) fields)
  end.

End json_induction.

(** ** Decidable equality *)

#[export] Instance json_eq_dec : EqDecision json.
Proof.
  refine (fix go (x y : json) {struct x} : Decision (x = y) :=
    match x, y with
    | JNull, JNull => left _
    | JBool a, JBool b => cast_if (decide (a = b))
    | JNum a, JNum b => cast_if (decide (a = b))
    | JStr a, JStr b => cast_if (decide (a = b))
    | JArr a, JArr b => cast_if (@list_eq_dec _ go a b)
    | JObj a, JObj b =>
        cast_if (@list_eq_dec _ (@prod_eq_dec _ _ _ go) a b)
    | _, _ => right _
    end); clear go; solve [by subst | by intros [=]].
Defined.

(** ** Truthiness *)

Lemma json_truthy_false_iff (v : json) :
  json_truthy v = false ↔
  v = JNull ∨ v = JBool false ∨ v = JNum 0 ∨ v = JStr "".
Proof.
  destruct v as [| [] | n | s | |]; simpl; try naive_solver.
  - rewrite negb_false_iff, Z.eqb_eq. naive_solver.
  - rewrite negb_false_iff, String.eqb_eq. naive_solver.
Qed.

Lemma truthy_Some (v : json) : truthy (Some v) = json_truthy v.
Proof. reflexivity. Qed.

Lemma truthy_true_Some (v : jsval) :
  truthy v = true → ∃ j, v = Some j ∧ json_truthy j = true.
Proof. destruct v; [eauto | discriminate]. Qed.

Lemma truthy_str (s : string) : truthy (Some (JStr s)) = true ↔ s ≠ "".
Proof.
  simpl. rewrite negb_true_iff. split.
  - intros H ->. discriminate.
  - intros H. by apply String.eqb_neq.
Qed.

(** ** Property access *)

Lemma get_field_Some_elem_of k fields v :
  get_field k fields = Some v → (k, v) ∈ fields.
Proof.
  induction fields as [|[k' v'] fields IH]; simpl; [done|].
  case_decide; [intros [= ->]; subst; left | right; auto].
Qed.

Lemma get_field_None k fields : get_field k fields = None ↔ k ∉ fields.*1.
Proof.
  induction fields as [|[k' v'] fields IH]; simpl.
  - split; [intros _; apply not_elem_of_nil | done].
  - rewrite not_elem_of_cons. case_decide; naive_solver.
Qed.

Lemma get_field_NoDup k v fields :
  NoDup (fields.*1) → (k, v) ∈ fields → get_field k fields = Some v.
Proof.
  induction fields as [|[k' v'] fields IH]; simpl; [by intros _ ?%elem_of_nil|].
  intros [Hk' Hnd]%NoDup_cons [[= -> ->]|Hin]%elem_of_cons.
  - by rewrite decide_True.
  - rewrite decide_False; [auto|].
    intros ->. apply Hk'. apply list_elem_of_fmap. by exists (k, v).
Qed.

Lemma get_field_app k l1 l2 :
  get_field k (l1 ++ l2) =
  match get_field k l1 with Some v => Some v | None => get_field k l2 end.
Proof.
  induction l1 as [|[k' v'] l1 IH]; simpl; [done|]. by case_decide.
Qed.

Lemma get_prop_Some k v x :
  get_prop k v = Some x → ∃ fields, v = JObj fields ∧ get_field k fields = Some x.
Proof. destruct v; try discriminate. eauto. Qed.

(** The condition [v && v.k] holds exactly of the objects whose property
    [k] is truthy. *)
Lemma has_truthy_spec k (v : jsval) :
  has_truthy k v = true ↔
  ∃ fields x, v = Some (JObj fields) ∧ get_field k fields = Some x ∧
              json_truthy x = true.
Proof.
  unfold has_truthy. rewrite andb_true_iff. split.
  - intros [_ (x & Hx & Ht)%truthy_true_Some].
    destruct v as [j|]; [|discriminate]. simpl in Hx.
    apply get_prop_Some in Hx as (fields & -> & Hf). eauto.
  - intros (fields & x & -> & Hf & Ht). simpl. by rewrite Hf.
Qed.

Lemma has_truthy_false_undefined k : has_truthy k None = false.
Proof. reflexivity. Qed.

Lemma has_truthy_not_object k (v : json) :
  (∀ fields, v ≠ JObj fields) → has_truthy k (Some v) = false.
Proof.
  intros Hv. unfold has_truthy.
  destruct v as [| | | | |fields]; simpl; rewrite ?andb_false_r; try done.
  by destruct (Hv fields).
Qed.

Lemma checked_Some k v j :
  checked k v = Some j ↔ v = Some j ∧ has_truthy k v = true.
Proof. unfold checked. destruct (has_truthy k v); naive_solver. Qed.

Lemma checked_None k v : checked k v = None ↔ has_truthy k v = false.
Proof.
  unfold checked. destruct (has_truthy k v) eqn:Hk; [|done].
  apply has_truthy_spec in Hk as (? & ? & -> & _). naive_solver.
Qed.

(** C33: The test [v && v.k] of the service lets through exactly the
    objects whose own property [k] is truthy: not [undefined], not [null],
    no string, number or array, and no object whose [k] is missing or
    falsy. *)
Theorem checked_accepts k v j :
  checked k v = Some j ↔
  v = Some j ∧
  ∃ fields x, j = JObj fields ∧ get_field k fields = Some x ∧
              json_truthy x = true.
Proof.
  rewrite checked_Some, has_truthy_spec. split.
  - intros [-> (fields & x & [= ->] & ? & ?)]. eauto 10.
  - intros [-> (fields & x & -> & ? & ?)]. eauto 10.
Qed.

Lemma truthy_prop_Some k v x :
  truthy_prop k v = Some x ↔
  ∃ fields, v = Some (JObj fields) ∧ get_field k fields = Some x ∧
            json_truthy x = true.
Proof.
  unfold truthy_prop. destruct (has_truthy k v) eqn:Hk.
  - apply has_truthy_spec in Hk as (fields & y & -> & Hy & Ht). simpl.
    split; [intros ?; exists fields; naive_solver | naive_solver].
  - split; [done|]. intros (fields & -> & Hx & Ht).
    assert (has_truthy k (Some (JObj fields)) = true) by (apply has_truthy_spec; eauto).
    congruence.
Qed.

Lemma truthy_prop_truthy k v x : truthy_prop k v = Some x → json_truthy x = true.
Proof. intros (? & ? & ? & ?)%truthy_prop_Some. done. Qed.

Lemma truthy_prop_None k v : truthy_prop k v = None ↔ has_truthy k v = false.
Proof.
  unfold truthy_prop. destruct (has_truthy k v) eqn:Hk; [|done].
  apply has_truthy_spec in Hk as (? & ? & -> & Hx & _). simpl. rewrite Hx.
  naive_solver.
Qed.

(** ** The operator [||] *)

Lemma js_or_truthy_l j b : json_truthy j = true → js_or (Some j) b = j.
Proof. simpl. by intros ->. Qed.

Lemma js_or_falsy_l a b : truthy a = false → js_or a b = b.
Proof. destruct a as [j|]; simpl; [by intros ->|done]. Qed.

Lemma js_or_cases a b :
  (∃ j, a = Some j ∧ json_truthy j = true ∧ js_or a b = j) ∨
  (truthy a = false ∧ js_or a b = b).
Proof.
  destruct a as [j|]; simpl; [|by right].
  destruct (json_truthy j) eqn:Hj; [left; eauto | by right].
Qed.

Lemma js_or_truthy a b : json_truthy b = true → json_truthy (js_or a b) = true.
Proof. intros Hb. by destruct (js_or_cases a b) as [(j & _ & ? & ->)|[_ ->]]. Qed.

(** ** Well-formed values *)

Lemma json_wf_arr items :
  json_wf (JArr items) = true ↔ Forall (λ x, json_wf x = true) items.
Proof. simpl. by rewrite forallb_forall, Forall_forall, <- ?list_elem_of_In; setoid_rewrite list_elem_of_In. Qed.

Lemma json_wf_obj fields :
  json_wf (JObj fields) = true ↔
  NoDup (fields.*1) ∧ Forall (λ kv, json_wf kv.2 = true) fields.
Proof.
  simpl. rewrite andb_true_iff, bool_decide_eq_true, forallb_forall, Forall_forall.
  by setoid_rewrite list_elem_of_In.
Qed.

Lemma json_wf_get_field k fields v :
  json_wf (JObj fields) = true → get_field k fields = Some v → json_wf v = true.
Proof.
  intros [_ Hall]%json_wf_obj Hk%get_field_Some_elem_of.
  rewrite Forall_forall in Hall. exact (Hall _ Hk).
Qed.

Lemma json_wf_get_prop k v x :
  json_wf v = true → get_prop k v = Some x → json_wf x = true.
Proof.
  intros Hwf (fields & -> & Hf)%get_prop_Some. eauto using json_wf_get_field.
Qed.

#[export] Hint Resolve json_wf_get_field json_wf_get_prop : prog.
#[export] Hint Rewrite truthy_Some : prog_rw.
