(* ===== verification/Http.v ===== *)
(** * Requests, replies, errors and the console

    The objects [authService.js] passes to and receives from axios, the
    errors its [catch] blocks inspect, and the calls it makes on
    [console].  What a request settles to is decided outside the program:
    an [outcome] is the value or the error a promise of axios ends with. *)

From stdpp Require Import base option list strings.
From Stdlib Require Import ZArith.
From S2P Require Import Prelude Json.

(** The arguments of [axios.post(url, data, config)]; of [config] the
    service sets the headers only. *)
Record http_request : Type := HttpRequest {
  req_url : string;
  req_body : json;
  req_headers : list (string * string);
}.

(** The reply object of axios, as far as the service reads it:
    [response.status] and [response.data]. *)
Record http_response : Type := HttpResponse {
  resp_status : Z;
  resp_data : jsval;
}.

(** A thrown value, as far as the handlers read it: [error.message] and
    [error.response].  An error of axios has a reply when the server
    answered with a status outside 2xx, and none when the request did not
    get through.  Errors thrown by the platform ([SyntaxError] of
    [JSON.parse], [QuotaExceededError] of [localStorage.setItem]) have no
    [response] property. *)
Record js_error : Type := JsError {
  err_name : string;
  err_message : jsval;
  err_response : option http_response;
}.

(** What awaiting a request gives: the reply, or the error thrown at the
    [await]. *)
Abbreviation outcome := (result js_error http_response).

(** The network: what each request settles to. *)
Abbreviation network := (http_request → outcome).

(** ** The console *)

Inductive console_arg : Type :=
| CStr (s : string)
| CVal (v : jsval)
| CResponse (r : http_response)
| CError (e : js_error).

Inductive console_level : Type := LevelLog | LevelError.

(** One call of [console.log] or [console.error] with its arguments. *)
Record console_entry : Type := ConsoleEntry {
  ce_level : console_level;
  ce_args : list console_arg;
}.

#[export] Instance http_request_eq_dec : EqDecision http_request.
Proof. solve_decision. Defined.
#[export] Instance http_response_eq_dec : EqDecision http_response.
Proof. solve_decision. Defined.
#[export] Instance js_error_eq_dec : EqDecision js_error.
Proof. solve_decision. Defined.
#[export] Instance console_arg_eq_dec : EqDecision console_arg.
Proof. solve_decision. Defined.
#[export] Instance console_level_eq_dec : EqDecision console_level.
Proof. solve_decision. Defined.
#[export] Instance console_entry_eq_dec : EqDecision console_entry.
Proof. solve_decision. Defined.

(** A reply whose body, when it has one, is a well-formed value: what
    axios hands over after parsing the text of a reply. *)
Definition response_wf (r : http_response) : bool :=
  match resp_data r with
  | Some data => json_wf data
  | None => true
  end.

Definition outcome_wf (o : outcome) : bool :=
  match o with
  | Ok r => response_wf r
  | Throw e => true
  end.
