(* ===== verification/Platform.v ===== *)
(** * The platform the session client runs on

    [authService.js] calls three objects it does not define: [JSON],
    [localStorage] and [console].  The first two are interfaces here, type
    classes that state what the service relies on: [JsonCodec] and
    [KVStore].  The theorems of [AuthService] and [Session] are proved
    against the interfaces; [JsonText] and [Storage] give the instances.

    The state the methods run in, [world], is the store together with the
    calls made on the console so far.  The calls of the platform are
    computations of [prog] over it. *)

From stdpp Require Import base option list strings.
From S2P Require Import Prelude Json Http.

(** ** [JSON] *)

Class JsonCodec : Type := {
  (** [JSON.stringify(v)] *)
  JSON_stringify : json → string;
  (** [JSON.parse(s)]: the value, or the [SyntaxError] thrown *)
  JSON_parse : string → result js_error json;
  JSON_parse_stringify v :
    json_wf v = true → JSON_parse (JSON_stringify v) = Ok v;
  JSON_parse_null : JSON_parse "null" = Ok JNull;
  (** what [JSON.parse] returns is a well-formed value *)
  JSON_parse_wf s v : JSON_parse s = Ok v → json_wf v = true;
}.

(** ** [localStorage] *)

Class KVStore (S : Type) : Type := {
  (** [getItem(k)]: the string stored, [None] for [null] *)
  getItem : string → S → option string;
  (** [setItem(k, v)]: the new store, or the exception thrown *)
  setItem : string → string → S → result js_error S;
  (** [removeItem(k)] *)
  removeItem : string → S → S;
  getItem_setItem k v s s' : setItem k v s = Ok s' → getItem k s' = Some v;
  getItem_setItem_ne k k' v s s' :
    k ≠ k' → setItem k v s = Ok s' → getItem k' s' = getItem k' s;
  getItem_removeItem k s : getItem k (removeItem k s) = None;
  getItem_removeItem_ne k k' s :
    k ≠ k' → getItem k' (removeItem k s) = getItem k' s;
}.

(** ** The state *)

Record world (S : Type) : Type := World {
  storage : S;
  console : list console_entry;
}.

Arguments World {S} storage console.
Arguments storage {S} w.
Arguments console {S} w.

(** The computations of the service: over the world, throwing JavaScript
    errors. *)
Abbreviation js S := (prog (world S) js_error).

(** ** The calls of the platform *)

Section calls.
Context {S : Type} `{!KVStore S} `{!JsonCodec}.

Definition console_call (level : console_level) (args : list console_arg) :
    js S unit :=
  modify (λ w, World (storage w) (console w ++ [ConsoleEntry level args])).

Definition console_log : list console_arg → js S unit := console_call LevelLog.

Definition console_error : list console_arg → js S unit :=
  console_call LevelError.

Definition localStorage_getItem (k : string) : js S (option string) :=
  λ w, (Ok (getItem k (storage w)), w).

Definition localStorage_setItem (k v : string) : js S unit :=
  attempt (λ w, result_map (λ s, World s (console w)) (setItem k v (storage w))).

Definition localStorage_removeItem (k : string) : js S unit :=
  modify (λ w, World (removeItem k (storage w)) (console w)).

(** [await p] for a promise that settles to [o]. *)
Definition await {A} (o : result js_error A) : js S A :=
  match o with
  | Ok a => ret a
  | Throw e => throw e
  end.

(** [JSON.parse(x)] for [x] a string or [null]: the argument is converted
    to a string first, and [null] becomes the text [null]. *)
Definition JSON_parse_item (x : option string) : js S json :=
  await (JSON_parse (default "null" x)).

(** ** Relations between the world before and after a computation *)

(** Every key but [k] holds what it held. *)
Definition same_except (k : string) (w w' : world S) : Prop :=
  ∀ k', k' ≠ k → getItem k' (storage w') = getItem k' (storage w).

(** The store is untouched. *)
Definition same_storage (w w' : world S) : Prop := storage w' = storage w.

(** The console has grown: what was logged stays logged. *)
Definition console_grows (w w' : world S) : Prop :=
  console w `prefix_of` console w'.

#[export] Instance same_except_preorder k : PreOrder (same_except k).
Proof.
  split; [by intros w k'|].
  intros w1 w2 w3 H12 H23 k' Hk'. by rewrite H23, H12.
Qed.

#[export] Instance same_storage_preorder : PreOrder same_storage.
Proof.
  split; [done|]. unfold same_storage. intros w1 w2 w3 H12 H23. congruence.
Qed.

(** Worlds with the same store: an equivalence that forgets the
    console. *)
#[export] Instance same_storage_equivalence : Equivalence same_storage.
Proof.
  split; [done| |]; unfold same_storage; [intros w1 w2|intros w1 w2 w3];
    congruence.
Qed.

#[export] Instance console_grows_preorder : PreOrder console_grows.
Proof.
  unfold console_grows. split; [intros w; reflexivity|].
  intros w1 w2 w3 H12 H23. by etrans.
Qed.

Lemma same_storage_same_except k w w' : same_storage w w' → same_except k w w'.
Proof. intros Hs k' _. by rewrite Hs. Qed.

(** ** What the calls do *)

Lemma run_console_call level args (w : world S) :
  console_call level args w =
  (Ok tt, World (storage w) (console w ++ [ConsoleEntry level args])).
Proof. reflexivity. Qed.

Lemma run_setItem_Ok k v (w : world S) s' :
  setItem k v (storage w) = Ok s' →
  localStorage_setItem k v w = (Ok tt, World s' (console w)).
Proof. intros Hs. unfold localStorage_setItem, attempt. by rewrite Hs. Qed.

Lemma run_setItem_Throw k v (w : world S) e :
  setItem k v (storage w) = Throw e →
  localStorage_setItem k v w = (Throw e, w).
Proof. intros Hs. unfold localStorage_setItem, attempt. by rewrite Hs. Qed.

Lemma run_removeItem k (w : world S) :
  localStorage_removeItem k w =
  (Ok tt, World (removeItem k (storage w)) (console w)).
Proof. reflexivity. Qed.

Lemma run_getItem k (w : world S) :
  localStorage_getItem k w = (Ok (getItem k (storage w)), w).
Proof. reflexivity. Qed.

Lemma run_await_Ok {A} (a : A) (w : world S) : await (Ok a) w = (Ok a, w).
Proof. reflexivity. Qed.

Lemma run_await_Throw {A} e (w : world S) : await (A:=A) (Throw e) w = (Throw e, w).
Proof. reflexivity. Qed.

(** *** The calls that cannot throw *)

Lemma no_throw_console_call level args : no_throw (console_call level args).
Proof. apply no_throw_modify. Qed.

Lemma no_throw_removeItem k : no_throw (localStorage_removeItem k).
Proof. apply no_throw_modify. Qed.

Lemma no_throw_getItem k : no_throw (localStorage_getItem k).
Proof. intros w. by eexists. Qed.

(** *** What the calls leave as it was *)

Lemma console_call_same_storage level args :
  preserves same_storage (console_call level args).
Proof. by intros w. Qed.

Lemma console_call_grows level args :
  preserves console_grows (console_call level args).
Proof. intros w. by apply prefix_app_r. Qed.

Lemma getItem_same_storage k : preserves same_storage (localStorage_getItem k).
Proof. by intros w. Qed.

Lemma getItem_grows k : preserves console_grows (localStorage_getItem k).
Proof. intros w. by unfold console_grows. Qed.

Lemma await_same_storage {A} (o : result js_error A) :
  preserves same_storage (await o).
Proof. by destruct o; intros w. Qed.

Lemma await_grows {A} (o : result js_error A) :
  preserves console_grows (await o).
Proof. by destruct o; intros w; unfold console_grows. Qed.

Lemma setItem_same_except k v : preserves (same_except k) (localStorage_setItem k v).
Proof.
  intros w k' Hk'. unfold run_state, localStorage_setItem, attempt.
  destruct (setItem k v (storage w)) as [s'|e] eqn:Hs; simpl; [|done].
  eapply getItem_setItem_ne; [|done]. congruence.
Qed.

Lemma setItem_grows k v : preserves console_grows (localStorage_setItem k v).
Proof.
  intros w. unfold console_grows, run_state, localStorage_setItem, attempt.
  by destruct (setItem k v (storage w)).
Qed.

Lemma removeItem_same_except k :
  preserves (same_except k) (localStorage_removeItem k).
Proof. intros w k' Hk'. simpl. apply getItem_removeItem_ne. congruence. Qed.

Lemma removeItem_grows k : preserves console_grows (localStorage_removeItem k).
Proof. intros w. by unfold console_grows. Qed.

(** A computation that leaves the store untouched leaves every key. *)
Lemma preserves_same_except {A} k (c : js S A) :
  preserves same_storage c → preserves (same_except k) c.
Proof. intros Hc w. apply same_storage_same_except, Hc. Qed.

(** ** The console is write-only

    No call of the platform reads the console: from worlds with the same
    store each ends with the same result, in worlds with the same
    store. *)

#[export] Instance console_call_respects level args :
  Respects same_storage (console_call level args).
Proof. intros w1 w2 Hw. by split. Qed.

#[export] Instance console_log_respects args :
  Respects same_storage (console_log args).
Proof. apply console_call_respects. Qed.

#[export] Instance console_error_respects args :
  Respects same_storage (console_error args).
Proof. apply console_call_respects. Qed.

#[export] Instance getItem_respects k :
  Respects same_storage (localStorage_getItem k).
Proof.
  intros w1 w2 Hw. unfold localStorage_getItem. unfold same_storage in Hw.
  rewrite Hw. by split.
Qed.

#[export] Instance setItem_respects k v :
  Respects same_storage (localStorage_setItem k v).
Proof.
  intros w1 w2 Hw. unfold localStorage_setItem, attempt.
  unfold same_storage in Hw. rewrite Hw.
  by destruct (setItem k v (storage w1)); split.
Qed.

#[export] Instance removeItem_respects k :
  Respects same_storage (localStorage_removeItem k).
Proof.
  intros w1 w2 Hw. split; [done|]. unfold same_storage in *. simpl.
  by rewrite Hw.
Qed.

#[export] Instance await_respects {A} (o : result js_error A) :
  Respects same_storage (await o).
Proof. destruct o; apply _. Qed.

#[export] Instance JSON_parse_item_respects x :
  Respects same_storage (JSON_parse_item x).
Proof. apply _. Qed.

End calls.

#[export] Hint Resolve no_throw_console_call no_throw_removeItem
  no_throw_getItem : prog.
#[export] Hint Resolve console_call_same_storage console_call_grows
  getItem_same_storage getItem_grows await_same_storage await_grows
  setItem_same_except setItem_grows removeItem_same_except
  removeItem_grows : prog.
#[export] Hint Extern 1 (Reflexive _) => apply _ : prog.
#[export] Hint Extern 1 (Transitive _) => apply _ : prog.
#[export] Hint Rewrite @run_console_call @run_removeItem @run_getItem
  @run_await_Ok @run_await_Throw : prog_rw.

(** Goals [preserves R c] by the structure of [c]. *)
Ltac preserves_tac :=
  repeat first
    [ apply preserves_bind
    | apply preserves_try_catch
    | match goal with
      | |- ∀ _, _ => intros ?
      | |- preserves _ (match ?x with _ => _ end) => destruct x
      | |- preserves (same_except _) _ =>
          first [solve [eauto with prog] | apply preserves_same_except]
      end
    | solve [eauto with prog typeclass_instances] ].

(** Goals [Respects R c] by the structure of [c]. *)
Ltac respects_tac :=
  repeat first
    [ solve [apply _]
    | apply bind_respects
    | apply try_catch_respects
    | match goal with
      | |- ∀ _, _ => intros ?
      | |- Respects _ (match ?x with _ => _ end) => destruct x
      end ].
