(* ===== verification/Storage.v ===== *)
(** * [localStorage] as a finite map with a quota

    An executable instance of [KVStore]: the items are a [gmap] from keys
    to strings, and the store may have a quota on the number of code units
    it holds (keys and values together).  [setItem] throws
    [QuotaExceededError] and changes nothing when the store would grow
    past the quota; browsers set one of about five million code units. *)

From stdpp Require Import base option list strings gmap.
From S2P Require Import Prelude Json Http Platform.

Record local_storage : Type := LocalStorage {
  items : gmap string string;
  quota : option nat;
}.

(** The code units the store holds. *)
Definition storage_size (m : gmap string string) : nat :=
  map_fold (λ k v n, String.length k + String.length v + n) 0 m.

Definition within_quota (q : option nat) (m : gmap string string) : bool :=
  match q with
  | Some n => bool_decide (storage_size m ≤ n)
  | None => true
  end.

Definition QuotaExceededError : js_error :=
  JsError "QuotaExceededError" (Some (JStr "The quota has been exceeded.")) None.

Definition ls_getItem (k : string) (s : local_storage) : option string :=
  items s !! k.

Definition ls_setItem (k v : string) (s : local_storage) :
    result js_error local_storage :=
  let m := <[k := v]> (items s) in
  if within_quota (quota s) m then Ok (LocalStorage m (quota s))
  else Throw QuotaExceededError.

Definition ls_removeItem (k : string) (s : local_storage) : local_storage :=
  LocalStorage (delete k (items s)) (quota s).

(** The empty store of a fresh origin. *)
Definition empty_storage (q : option nat) : local_storage := LocalStorage ∅ q.

Lemma ls_setItem_Ok k v s s' :
  ls_setItem k v s = Ok s' ↔
  within_quota (quota s) (<[k := v]> (items s)) = true ∧
  s' = LocalStorage (<[k := v]> (items s)) (quota s).
Proof.
  unfold ls_setItem. destruct (within_quota _ _); naive_solver.
Qed.

Lemma ls_setItem_Throw k v s e :
  ls_setItem k v s = Throw e ↔
  within_quota (quota s) (<[k := v]> (items s)) = false ∧
  e = QuotaExceededError.
Proof.
  unfold ls_setItem. destruct (within_quota _ _); naive_solver.
Qed.

#[export, refine] Instance local_storage_store : KVStore local_storage := {|
  getItem := ls_getItem;
  setItem := ls_setItem;
  removeItem := ls_removeItem;
|}.
Proof.
  - intros k v s s' [_ ->]%ls_setItem_Ok. apply lookup_insert_eq.
  - intros k k' v s s' Hk [_ ->]%ls_setItem_Ok. by apply lookup_insert_ne.
  - intros k s. apply lookup_delete_eq.
  - intros k k' s Hk. by apply lookup_delete_ne.
Defined.

(** A store without quota accepts every write. *)
Lemma ls_setItem_unbounded k v s :
  quota s = None → ls_setItem k v s = Ok (LocalStorage (<[k := v]> (items s)) None).
Proof. intros Hq. unfold ls_setItem. by rewrite Hq. Qed.

(** A write that throws is refused for its size, and the error has no
    [response]. *)
Lemma ls_setItem_Throw_quota k v s e :
  ls_setItem k v s = Throw e →
  ∃ n, quota s = Some n ∧ n < storage_size (<[k := v]> (items s)) ∧
       err_response e = None.
Proof.
  intros [Hq ->]%ls_setItem_Throw. unfold within_quota in Hq.
  destruct (quota s) as [n|]; [|done].
  apply bool_decide_eq_false in Hq. exists n. split_and!; [done|lia|done].
Qed.

Lemma storage_size_empty : storage_size ∅ = 0.
Proof. apply map_fold_empty. Qed.

Lemma storage_size_insert_fresh k v m :
  m !! k = None →
  storage_size (<[k := v]> m) = String.length k + String.length v + storage_size m.
Proof.
  intros Hk. unfold storage_size.
  rewrite map_fold_insert_L; [done| |done]. intros. lia.
Qed.

Lemma storage_size_delete k v m :
  m !! k = Some v →
  storage_size m = String.length k + String.length v + storage_size (delete k m).
Proof.
  intros Hk. rewrite <- (insert_delete_id m k v) at 1 by done.
  apply storage_size_insert_fresh, lookup_delete_eq.
Qed.

(** Removing an item never makes the store larger. *)
Lemma storage_size_delete_le k m : storage_size (delete k m) ≤ storage_size m.
Proof.
  destruct (m !! k) as [v|] eqn:Hk.
  - rewrite (storage_size_delete k v m Hk). lia.
  - by rewrite delete_id.
Qed.

(** The code units the item under [k] takes: its key and its value, or
    none when there is no such item. *)
Definition item_size (k : string) (m : gmap string string) : nat :=
  from_option (λ v, String.length k + String.length v) 0 (m !! k).

(** The size of a store is the size of one item and of the rest. *)
Lemma storage_size_item k m :
  storage_size m = storage_size (delete k m) + item_size k m.
Proof.
  unfold item_size. destruct (m !! k) as [v|] eqn:Hk; simpl.
  - rewrite (storage_size_delete k v m Hk). lia.
  - rewrite delete_id by done. lia.
Qed.

Lemma item_size_insert k v m :
  item_size k (<[k := v]> m) = String.length k + String.length v.
Proof. unfold item_size. by rewrite lookup_insert_eq. Qed.

Lemma item_size_delete k m : item_size k (delete k m) = 0.
Proof. unfold item_size. by rewrite lookup_delete_eq. Qed.
