(* ===== verification/JsonText.v ===== *)
(** * The JSON text format

    An executable instance of [JsonCodec]: [stringify] prints a value the
    way [JSON.stringify] does with one argument (no white space, strings
    quoted with the escapes of [QuoteJSONString]), and [parse] reads the
    grammar of [JSON.parse] by recursive descent.  A text of the grammar
    that denotes a value outside the model (a number with a fraction or an
    exponent or outside the safe integers, an escape [\uXXXX] of a code
    unit above 255) is rejected like a text outside the grammar.

    The parser works on lists of characters and takes fuel: one unit per
    value, array element and object member.  [parse] gives it
    the length of the text plus one. *)

From stdpp Require Import base option list strings.
From Stdlib Require Import ZArith NArith Ascii String.
From Stdlib Require Import DecimalString DecimalZ DecimalN DecimalPos DecimalFacts.
From S2P Require Import Prelude Json Http Platform.

Local Open Scope char_scope.

(** ** Characters *)

Definition dquote : ascii := "034".
Definition bslash : ascii := "\".

Definition is_ws (c : ascii) : bool :=
  Ascii.eqb c " " || Ascii.eqb c "009" || Ascii.eqb c "010" || Ascii.eqb c "013".

Definition is_digit (c : ascii) : bool :=
  ((48 <=? N_of_ascii c) && (N_of_ascii c <=? 57))%N.

(** A code unit that [QuoteJSONString] writes as an escape [\u00XX], and
    that the grammar forbids inside a string. *)
Definition is_control (c : ascii) : bool := (N_of_ascii c <? 32)%N.

Definition hex_char (n : N) : ascii :=
  (if n <? 10 then ascii_of_N (48 + n) else ascii_of_N (87 + n))%N.

Definition hex_value (c : ascii) : option N :=
  let n := N_of_ascii c in
  (if (48 <=? n) && (n <=? 57) then Some (n - 48)
   else if (97 <=? n) && (n <=? 102) then Some (n - 87)
   else if (65 <=? n) && (n <=? 70) then Some (n - 55)
   else None)%N.

(** ** Printing *)

Definition escape_char (c : ascii) : list ascii :=
  if Ascii.eqb c dquote then [bslash; dquote]
  else if Ascii.eqb c bslash then [bslash; bslash]
  else if Ascii.eqb c "008" then [bslash; "b"]
  else if Ascii.eqb c "009" then [bslash; "t"]
  else if Ascii.eqb c "010" then [bslash; "n"]
  else if Ascii.eqb c "012" then [bslash; "f"]
  else if Ascii.eqb c "013" then [bslash; "r"]
  else if is_control c then
    [bslash; "u"; "0"; "0"; hex_char (N_of_ascii c / 16);
     hex_char (N_of_ascii c mod 16)]
  else [c].

Fixpoint escape_string (s : string) : list ascii :=
  match s with
  | EmptyString => []
  | String c s' => escape_char c ++ escape_string s'
  end.

Definition print_string (s : string) : list ascii :=
  dquote :: escape_string s ++ [dquote].

Definition print_uint (d : Decimal.uint) : list ascii :=
  list_ascii_of_string (NilEmpty.string_of_uint d).

Definition print_number (n : Z) : list ascii :=
  match Z.to_int n with
  | Decimal.Pos d => print_uint d
  | Decimal.Neg d => "-" :: print_uint d
  end.

(** The texts of [parts] with a comma between each two. *)
Fixpoint join_comma (parts : list (list ascii)) : list ascii :=
  match parts with
  | [] => []
  | [p] => p
  | p :: rest => p ++ "," :: join_comma rest
  end.

Fixpoint print_value (v : json) : list ascii :=
  match v with
  | JNull => ["n"; "u"; "l"; "l"]
  | JBool true => ["t"; "r"; "u"; "e"]
  | JBool false => ["f"; "a"; "l"; "s"; "e"]
  | JNum n => print_number n
  | JStr s => print_string s
  | JArr items => "[" :: join_comma (map print_value items) ++ ["]"]
  | JObj fields =>
      "{" :: join_comma
               (map (λ kv, print_string kv.1 ++ ":" :: print_value kv.2) fields)
          ++ ["}"]
  end.

Definition stringify (v : json) : string :=
  string_of_list_ascii (print_value v).

(** ** Parsing *)

Fixpoint skip_ws (s : list ascii) : list ascii :=
  match s with
  | c :: r => if is_ws c then skip_ws r else s
  | [] => []
  end.

(** [s] without the prefix [p], when it starts with it. *)
Fixpoint strip_prefix (p s : list ascii) : option (list ascii) :=
  match p, s with
  | [], _ => Some s
  | a :: p', b :: s' => if Ascii.eqb a b then strip_prefix p' s' else None
  | _ :: _, [] => None
  end.

(** The character an escape [\e] stands for, for the escapes of one
    character. *)
Definition unescape (e : ascii) : option ascii :=
  if Ascii.eqb e dquote then Some dquote
  else if Ascii.eqb e bslash then Some bslash
  else if Ascii.eqb e "/" then Some "/"
  else if Ascii.eqb e "b" then Some "008"
  else if Ascii.eqb e "t" then Some "009"
  else if Ascii.eqb e "n" then Some "010"
  else if Ascii.eqb e "f" then Some "012"
  else if Ascii.eqb e "r" then Some "013"
  else None.

(** The code unit of the four hexadecimal digits of an escape [\uXXXX],
    when it is below 256. *)
Definition unescape_hex (h1 h2 h3 h4 : ascii) : option ascii :=
  a ← hex_value h1; b ← hex_value h2; c ← hex_value h3; d ← hex_value h4;
  if ((a =? 0) && (b =? 0))%N then Some (ascii_of_N (16 * c + d)) else None.

(** The characters of a string up to its closing quote, and what follows
    the quote. *)
Fixpoint parse_chars (s : list ascii) : option (string * list ascii) :=
  match s with
  | [] => None
  | c :: r =>
      if Ascii.eqb c dquote then Some (EmptyString, r)
      else if Ascii.eqb c bslash then
        match r with
        | [] => None
        | e :: r1 =>
            if Ascii.eqb e "u" then
              match r1 with
              | h1 :: h2 :: h3 :: h4 :: r2 =>
                  x ← unescape_hex h1 h2 h3 h4;
                  '(str, r3) ← parse_chars r2;
                  Some (String x str, r3)
              | _ => None
              end
            else
              x ← unescape e;
              '(str, r3) ← parse_chars r1;
              Some (String x str, r3)
        end
      else if is_control c then None
      else '(str, r3) ← parse_chars r; Some (String c str, r3)
  end.

(** The longest prefix of digits, and the rest. *)
Fixpoint span_digits (s : list ascii) : list ascii * list ascii :=
  match s with
  | c :: r =>
      if is_digit c then let '(ds, r') := span_digits r in (c :: ds, r')
      else ([], s)
  | [] => ([], [])
  end.

(** A character that continues a number past its integer part. *)
Definition is_fraction_start (c : ascii) : bool :=
  Ascii.eqb c "." || Ascii.eqb c "e" || Ascii.eqb c "E".

(** The natural number of a non-empty digit sequence without a
    superfluous leading zero. *)
Definition digits_value (ds : list ascii) : option Z :=
  match ds with
  | [] => None
  | c :: rest =>
      if Ascii.eqb c "0" && negb (bool_decide (rest = [])) then None
      else Z.of_uint <$> NilEmpty.uint_of_string (string_of_list_ascii ds)
  end.

(** Whether [s] starts with a character that continues a number. *)
Definition continues_number (s : list ascii) : bool :=
  match s with
  | c :: _ => is_fraction_start c
  | [] => false
  end.

(** The sign of a number, and what follows it. *)
Definition parse_sign (s : list ascii) : bool * list ascii :=
  match s with
  | c :: r => if Ascii.eqb c "-" then (true, r) else (false, s)
  | [] => (false, [])
  end.

Definition parse_number (s : list ascii) : option (Z * list ascii) :=
  let '(negative, s1) := parse_sign s in
  let '(ds, r) := span_digits s1 in
  n ← digits_value ds;
  let z := if negative : bool then (- n)%Z else n in
  if continues_number r then None
  else if safe_integer z then Some (z, r)
  else None.

(** The property [k] set to [v]: in place when the object has it, at the
    end otherwise. *)
Fixpoint obj_set (k : string) (v : json) (fields : list (string * json)) :
    list (string * json) :=
  match fields with
  | [] => [(k, v)]
  | (k', v') :: rest =>
      if decide (k' = k) then (k, v) :: rest else (k', v') :: obj_set k v rest
  end.

(** The object a sequence of members denotes: a later member of the same
    name overrides an earlier one. *)
Definition obj_of_members (members : list (string * json)) :
    list (string * json) :=
  foldl (λ acc kv, obj_set kv.1 kv.2 acc) [] members.

(** The rest of [s] after white space and the character [c]. *)
Definition expect (c : ascii) (s : list ascii) : option (list ascii) :=
  match skip_ws s with
  | c' :: r => if Ascii.eqb c' c then Some r else None
  | [] => None
  end.

Fixpoint parse_value (fuel : nat) (s : list ascii) : option (json * list ascii) :=
  match fuel with
  | O => None
  | S fuel' =>
      match skip_ws s with
      | [] => None
      | c :: r =>
          if is_digit c || Ascii.eqb c "-" then
            '(n, r') ← parse_number (c :: r); Some (JNum n, r')
          else if Ascii.eqb c dquote then
            '(str, r') ← parse_chars r; Some (JStr str, r')
          else if Ascii.eqb c "n" then
            r' ← strip_prefix ["u"; "l"; "l"] r; Some (JNull, r')
          else if Ascii.eqb c "t" then
            r' ← strip_prefix ["r"; "u"; "e"] r; Some (JBool true, r')
          else if Ascii.eqb c "f" then
            r' ← strip_prefix ["a"; "l"; "s"; "e"] r; Some (JBool false, r')
          else if Ascii.eqb c "[" then
            match expect "]" r with
            | Some r' => Some (JArr [], r')
            | None => '(items, r') ← parse_elements fuel' r; Some (JArr items, r')
            end
          else if Ascii.eqb c "{" then
            match expect "}" r with
            | Some r' => Some (JObj [], r')
            | None =>
                '(members, r') ← parse_members fuel' r;
                Some (JObj (obj_of_members members), r')
            end
          else None
      end
  end
with parse_elements (fuel : nat) (s : list ascii) :
    option (list json * list ascii) :=
  match fuel with
  | O => None
  | S fuel' =>
      '(v, r) ← parse_value fuel' s;
      match expect "," r with
      | Some r' => '(vs, r'') ← parse_elements fuel' r'; Some (v :: vs, r'')
      | None => r' ← expect "]" r; Some ([v], r')
      end
  end
with parse_members (fuel : nat) (s : list ascii) :
    option (list (string * json) * list ascii) :=
  match fuel with
  | O => None
  | S fuel' =>
      r0 ← expect dquote s;
      '(k, r1) ← parse_chars r0;
      r2 ← expect ":" r1;
      '(v, r3) ← parse_value fuel' r2;
      match expect "," r3 with
      | Some r4 => '(ms, r5) ← parse_members fuel' r4; Some ((k, v) :: ms, r5)
      | None => r4 ← expect "}" r3; Some ([(k, v)], r4)
      end
  end.

(** A whole text: one value, with nothing but white space after it. *)
Definition parse_text (fuel : nat) (s : list ascii) : option json :=
  '(v, r) ← parse_value fuel s;
  match skip_ws r with
  | [] => Some v
  | _ :: _ => None
  end.

Definition SyntaxError : js_error :=
  JsError "SyntaxError" (Some (JStr "Unexpected token in JSON")) None.

Definition parse (s : string) : result js_error json :=
  match parse_text (S (String.length s)) (list_ascii_of_string s) with
  | Some v => Ok v
  | None => Throw SyntaxError
  end.

(** The fuel that parsing the text of [v] takes. *)
Fixpoint json_size (v : json) : nat :=
  match v with
  | JArr items => S (foldr (λ x n, S (json_size x + n)) 0 items)
  | JObj fields => S (foldr (λ kv n, S (json_size kv.2 + n)) 0 fields)
  | _ => 1
  end.

(** ** Characters: facts by enumeration *)

Lemma obind_Some {A B} (f : A → option B) (x : A) : Some x ≫= f = f x.
Proof. reflexivity. Qed.

(** Run the binds of the option monad whose argument is known. *)
Ltac ostep := rewrite ?obind_Some; cbv beta iota.

(** Case analysis on the eight bits of a character. *)
Ltac each_char c := destruct c as [[] [] [] [] [] [] [] []].

(** A character a value starts with. *)
Definition value_start (c : ascii) : bool :=
  is_digit c || Ascii.eqb c "-" || Ascii.eqb c dquote || Ascii.eqb c "n"
  || Ascii.eqb c "t" || Ascii.eqb c "f" || Ascii.eqb c "[" || Ascii.eqb c "{".

(** What may follow a printed number: the end of the text or one of the
    characters [,], [\]] and [}]. *)
Definition ends_value (s : list ascii) : bool :=
  match s with
  | [] => true
  | c :: _ => Ascii.eqb c "," || Ascii.eqb c "]" || Ascii.eqb c "}"
  end.

Lemma value_start_not_ws c : value_start c = true → is_ws c = false.
Proof. each_char c; (reflexivity || discriminate). Qed.

Lemma value_start_not_close c :
  value_start c = true → Ascii.eqb c "]" = false ∧ Ascii.eqb c "}" = false.
Proof. each_char c; (done || discriminate). Qed.

Lemma is_digit_value_start c : is_digit c = true → value_start c = true.
Proof. unfold value_start. by intros ->. Qed.

Lemma ends_value_cons c s :
  ends_value (c :: s) = true → is_digit c = false ∧ is_fraction_start c = false.
Proof. simpl. each_char c; (done || discriminate). Qed.

Lemma skip_ws_cons c s : is_ws c = false → skip_ws (c :: s) = c :: s.
Proof. simpl. by intros ->. Qed.

Lemma expect_cons c s : is_ws c = false → expect c (c :: s) = Some s.
Proof.
  intros Hc. unfold expect. rewrite skip_ws_cons by done.
  by rewrite Ascii.eqb_refl.
Qed.

Lemma expect_cons_ne c c' s :
  is_ws c' = false → Ascii.eqb c' c = false → expect c (c' :: s) = None.
Proof.
  intros Hws Hne. unfold expect. rewrite skip_ws_cons by done. by rewrite Hne.
Qed.

(** ** Strings *)

(** Reading back the text of one character gives the character. *)
Lemma parse_chars_escape_char c r :
  parse_chars (escape_char c ++ r) =
  '(str, r') ← parse_chars r; Some (String c str, r').
Proof. each_char c; reflexivity. Qed.

Lemma parse_chars_escape_string s r :
  parse_chars (escape_string s ++ dquote :: r) = Some (s, r).
Proof.
  induction s as [|c s IH]; simpl; [done|].
  rewrite <- app_assoc, parse_chars_escape_char, IH. done.
Qed.

Lemma print_string_app s r :
  print_string s ++ r = dquote :: escape_string s ++ dquote :: r.
Proof. unfold print_string. simpl. by rewrite <- app_assoc. Qed.

Lemma escape_char_length c : 1 ≤ List.length (escape_char c).
Proof. each_char c; simpl; lia. Qed.

(** ** Numbers *)

Lemma print_uint_digits d : Forall (λ c, is_digit c = true) (print_uint d).
Proof.
  unfold print_uint. induction d; simpl; constructor; done.
Qed.

Lemma span_digits_app ds r :
  Forall (λ c, is_digit c = true) ds → ends_value r = true →
  span_digits (ds ++ r) = (ds, r).
Proof.
  intros Hds Hr. induction Hds as [|c ds Hc _ IH]; cbn [app span_digits].
  - destruct r as [|c r]; [done|].
    apply ends_value_cons in Hr as [Hd _]. cbn [span_digits]. by rewrite Hd.
  - by rewrite Hc, IH.
Qed.

Lemma uint_of_print_uint d :
  NilEmpty.uint_of_string (string_of_list_ascii (print_uint d)) = Some d.
Proof.
  unfold print_uint. by rewrite string_of_list_ascii_of_string, NilEmpty.usu.
Qed.

(** The digits of a positive number do not start with a zero. *)
Lemma to_uint_no_leading_zero p d : Pos.to_uint p ≠ Decimal.D0 d.
Proof.
  intros Hp.
  assert (Decimal.unorm (Pos.to_uint p) = Pos.to_uint p) as Hn.
  { change (Pos.to_uint p) with (N.to_uint (N.pos p)) at 2.
    by rewrite <- (Unsigned.of_to p), Unsigned.to_of. }
  rewrite Hp in Hn. unfold Decimal.unorm in Hn. simpl in Hn.
  pose proof (nzhead_nonzero d) as Hz.
  destruct (Decimal.nzhead d) as [|u| | | | | | | | |] eqn:Hd; try discriminate.
  - apply (Unsigned.to_uint_nonzero p). rewrite Hp, <- Hn. done.
  - by destruct (Hz u).
Qed.

Lemma digits_value_zero : digits_value (print_uint Decimal.zero) = Some 0%Z.
Proof. reflexivity. Qed.

Lemma digits_value_pos p :
  digits_value (print_uint (Pos.to_uint p)) = Some (Z.pos p).
Proof.
  pose proof (uint_of_print_uint (Pos.to_uint p)) as Hu.
  pose proof (to_uint_no_leading_zero p) as Hz.
  pose proof (Unsigned.to_uint_nonnil p) as Hnil.
  pose proof (DecimalZ.of_to (Z.pos p)) as Hof. simpl in Hof.
  unfold digits_value.
  destruct (Pos.to_uint p) eqn:Hp; try done;
    try (cbn [print_uint NilEmpty.string_of_uint list_ascii_of_string] in *;
         cbn [Ascii.eqb Bool.eqb andb]; by rewrite Hu, <- Hof).
  by destruct (Hz u).
Qed.

Lemma parse_sign_digits ds r :
  ds ≠ [] → Forall (λ c, is_digit c = true) ds →
  parse_sign (ds ++ r) = (false, ds ++ r).
Proof.
  intros Hne Hds. destruct Hds as [|c ds Hc _]; [done|].
  cbn [app parse_sign]. revert Hc. each_char c; (done || discriminate).
Qed.

Lemma print_uint_nonempty p : print_uint (Pos.to_uint p) ≠ [].
Proof.
  pose proof (Unsigned.to_uint_nonnil p). unfold print_uint.
  by destruct (Pos.to_uint p).
Qed.

Lemma continues_number_ends r : ends_value r = true → continues_number r = false.
Proof. destruct r as [|c r]; [done|]. by intros [_ ?]%ends_value_cons. Qed.

(** The digits [ds] of [n], with or without a sign before them. *)
Lemma parse_number_digits (negative : bool) ds n r :
  ds ≠ [] → Forall (λ c, is_digit c = true) ds → digits_value ds = Some n →
  ends_value r = true →
  safe_integer (if negative then (- n)%Z else n) = true →
  parse_number ((if negative then ["-"] else []) ++ ds ++ r) =
  Some (if negative then (- n)%Z else n, r).
Proof.
  intros Hne Hds Hv Hr Hn. unfold parse_number.
  assert (parse_sign ((if negative then ["-"] else []) ++ ds ++ r) =
          (negative, ds ++ r)) as ->.
  { destruct negative; [done|]. by apply (parse_sign_digits ds r). }
  rewrite span_digits_app, Hv by done. simpl.
  by rewrite continues_number_ends, Hn.
Qed.

(** Reading back the text of a safe integer gives the integer. *)
Lemma parse_number_print n r :
  safe_integer n = true → ends_value r = true →
  parse_number (print_number n ++ r) = Some (n, r).
Proof.
  intros Hn Hr. unfold print_number. destruct n as [|p|p]; simpl Z.to_int.
  - apply (parse_number_digits false ["0"] 0%Z); try done.
    by repeat constructor.
  - apply (parse_number_digits false _ (Z.pos p));
      auto using print_uint_nonempty, print_uint_digits, digits_value_pos.
  - apply (parse_number_digits true _ (Z.pos p));
      auto using print_uint_nonempty, print_uint_digits, digits_value_pos.
Qed.

Definition number_start (c : ascii) : bool := is_digit c || Ascii.eqb c "-".

Lemma print_number_start n :
  ∃ c t, print_number n = c :: t ∧ number_start c = true.
Proof.
  unfold print_number, number_start. destruct n as [|p|p]; simpl Z.to_int.
  - by exists "0", [].
  - pose proof (print_uint_digits (Pos.to_uint p)) as Hd.
    pose proof (print_uint_nonempty p) as Hne.
    destruct (print_uint (Pos.to_uint p)) as [|c t]; [done|].
    apply Forall_cons_1 in Hd as [Hc _]. exists c, t. by rewrite Hc.
  - by eexists _, _.
Qed.

Lemma number_start_value_start c : number_start c = true → value_start c = true.
Proof. unfold value_start, number_start. by intros ->. Qed.

(** ** Objects *)

Lemma obj_set_fresh k v fields :
  k ∉ fields.*1 → obj_set k v fields = fields ++ [(k, v)].
Proof.
  induction fields as [|[k' v'] fields IH]; simpl; [done|].
  intros [Hne Hk]%not_elem_of_cons. rewrite decide_False by done.
  by rewrite IH.
Qed.

Lemma obj_of_members_app acc members :
  NoDup ((acc ++ members).*1) →
  foldl (λ acc kv, obj_set kv.1 kv.2 acc) acc members = acc ++ members.
Proof.
  revert acc. induction members as [|[k v] members IH]; intros acc Hnd; simpl.
  - by rewrite List.app_nil_r.
  - rewrite obj_set_fresh, IH; rewrite <- ?List.app_assoc; try done.
    rewrite fmap_app in Hnd. apply NoDup_app in Hnd as (_ & Hdisj & _).
    intros Hk. apply (Hdisj k Hk). simpl. left.
Qed.

(** Members with distinct names denote the object that lists them. *)
Lemma obj_of_members_NoDup members :
  NoDup (members.*1) → obj_of_members members = members.
Proof. intros Hnd. by apply (obj_of_members_app []). Qed.

(** ** Values *)

Lemma parse_value_number fuel c s :
  number_start c = true →
  parse_value (S fuel) (c :: s) =
  '(n, r') ← parse_number (c :: s); Some (JNum n, r').
Proof.
  intros Hc. cbn [parse_value].
  rewrite skip_ws_cons by by apply value_start_not_ws, number_start_value_start.
  fold (number_start c). by rewrite Hc.
Qed.

Lemma parse_value_string fuel s :
  parse_value (S fuel) (dquote :: s) =
  '(str, r') ← parse_chars s; Some (JStr str, r').
Proof. reflexivity. Qed.

Lemma parse_value_array fuel s :
  parse_value (S fuel) ("[" :: s) =
  match expect "]" s with
  | Some r' => Some (JArr [], r')
  | None => '(items, r') ← parse_elements fuel s; Some (JArr items, r')
  end.
Proof. reflexivity. Qed.

Lemma parse_value_object fuel s :
  parse_value (S fuel) ("{" :: s) =
  match expect "}" s with
  | Some r' => Some (JObj [], r')
  | None =>
      '(members, r') ← parse_members fuel s;
      Some (JObj (obj_of_members members), r')
  end.
Proof. reflexivity. Qed.

Lemma parse_elements_S fuel s :
  parse_elements (S fuel) s =
  '(v, r) ← parse_value fuel s;
  match expect "," r with
  | Some r' => '(vs, r'') ← parse_elements fuel r'; Some (v :: vs, r'')
  | None => r' ← expect "]" r; Some ([v], r')
  end.
Proof. reflexivity. Qed.

Lemma parse_members_S fuel s :
  parse_members (S fuel) s =
  r0 ← expect dquote s;
  '(k, r1) ← parse_chars r0;
  r2 ← expect ":" r1;
  '(v, r3) ← parse_value fuel r2;
  match expect "," r3 with
  | Some r4 => '(ms, r5) ← parse_members fuel r4; Some ((k, v) :: ms, r5)
  | None => r4 ← expect "}" r3; Some ([(k, v)], r4)
  end.
Proof. reflexivity. Qed.

Lemma print_value_start v :
  ∃ c t, print_value v = c :: t ∧ value_start c = true.
Proof.
  destruct v as [|[]|n|s|items|fields]; try by eexists _, _.
  destruct (print_number_start n) as (c & t & Hp & Hc).
  exists c, t. eauto using number_start_value_start.
Qed.

(** After a value that is not the last of its array or object comes a
    comma, and after the last one the closing bracket. *)
Lemma expect_close_value_start c s close :
  value_start c = true → close = "]" ∨ close = "}" →
  expect close (c :: s) = None.
Proof.
  intros Hc Hclose. apply expect_cons_ne; [by apply value_start_not_ws|].
  destruct (value_start_not_close c Hc). by destruct Hclose as [-> | ->].
Qed.

Lemma expect_close_elements close v items r :
  close = "]" ∨ close = "}" →
  expect close (join_comma (map print_value (v :: items)) ++ r) = None.
Proof.
  intros Hclose. destruct (print_value_start v) as (c & t & Hp & Hc).
  cbn [map]. destruct (map print_value items); cbn [join_comma]; rewrite Hp;
    by apply expect_close_value_start.
Qed.

(** [v] is read back from its text, whatever follows it. *)
Definition reads_back (v : json) : Prop :=
  ∀ fuel r, json_size v ≤ fuel → ends_value r = true →
    parse_value fuel (print_value v ++ r) = Some (v, r).

Definition elements_size (items : list json) : nat :=
  foldr (λ x n, S (json_size x + n)) 0 items.

Definition members_size (fields : list (string * json)) : nat :=
  foldr (λ kv n, S (json_size kv.2 + n)) 0 fields.

Definition print_member (kv : string * json) : list ascii :=
  print_string kv.1 ++ ":" :: print_value kv.2.

Lemma parse_elements_print items fuel r :
  items ≠ [] → Forall reads_back items → elements_size items ≤ fuel →
  parse_elements fuel (join_comma (map print_value items) ++ "]" :: r) =
  Some (items, r).
Proof.
  revert fuel. induction items as [|v items IH]; [done|].
  intros fuel _ [Hv Hall]%Forall_cons_1 Hfuel.
  destruct fuel as [|fuel]; [simpl in Hfuel; lia|]. simpl in Hfuel.
  rewrite parse_elements_S. destruct items as [|v' items].
  - cbn [map join_comma]. rewrite Hv by (done || lia). ostep.
    by rewrite expect_cons_ne, expect_cons.
  - change (join_comma (map print_value (v :: v' :: items)))
      with (print_value v ++ "," :: join_comma (map print_value (v' :: items))).
    rewrite <- List.app_assoc, <- List.app_comm_cons.
    rewrite Hv by (done || lia). ostep.
    rewrite expect_cons by done. rewrite IH; [done|done|done|].
    unfold elements_size in *. simpl in *. lia.
Qed.

Lemma parse_members_print fields fuel r :
  fields ≠ [] → Forall (λ kv, reads_back kv.2) fields →
  members_size fields ≤ fuel →
  parse_members fuel (join_comma (map print_member fields) ++ "}" :: r) =
  Some (fields, r).
Proof.
  revert fuel. induction fields as [|[k v] fields IH]; [done|].
  intros fuel _ [Hv Hall]%Forall_cons_1 Hfuel. simpl in Hv.
  destruct fuel as [|fuel]; [simpl in Hfuel; lia|]. simpl in Hfuel.
  rewrite parse_members_S. destruct fields as [|kv' fields].
  - cbn [map join_comma]. unfold print_member. cbn [fst snd].
    rewrite <- List.app_assoc, <- List.app_comm_cons, print_string_app.
    rewrite expect_cons by done.
    ostep. rewrite parse_chars_escape_string.
    ostep. rewrite expect_cons by done.
    ostep.
    rewrite Hv by (done || lia). ostep.
    by rewrite expect_cons_ne, expect_cons.
  - change (join_comma (map print_member ((k, v) :: kv' :: fields)))
      with (print_member (k, v) ++ "," :: join_comma (map print_member (kv' :: fields))).
    unfold print_member at 1. cbn [fst snd].
    rewrite <- !List.app_assoc, <- List.app_comm_cons, print_string_app.
    rewrite expect_cons by done.
    ostep. rewrite parse_chars_escape_string.
    ostep. rewrite expect_cons by done.
    ostep. rewrite <- ?List.app_comm_cons.
    rewrite Hv by (done || lia). ostep.
    rewrite expect_cons by done. rewrite IH; [done|done|done|].
    unfold members_size in *. simpl in *. lia.
Qed.

(** Every well-formed value is read back from its text. *)
Lemma print_value_reads_back v : json_wf v = true → reads_back v.
Proof.
  induction v as [|b|n|s|items IH|fields IH] using json_ind';
    intros Hwf fuel r Hfuel Hr;
    (destruct fuel as [|fuel]; [simpl in Hfuel; lia|]).
  - done.
  - by destruct b.
  - destruct (print_number_start n) as (c & t & Hp & Hc).
    cbn [print_value]. rewrite Hp, <- List.app_comm_cons.
    rewrite parse_value_number by done.
    rewrite List.app_comm_cons, <- Hp, parse_number_print by done. done.
  - cbn [print_value]. rewrite print_string_app, parse_value_string.
    by rewrite parse_chars_escape_string.
  - apply json_wf_arr in Hwf. cbn [print_value].
    rewrite <- List.app_comm_cons, <- List.app_assoc, parse_value_array.
    change (["]"] ++ r) with ("]" :: r).
    destruct items as [|v items]; [done|].
    rewrite expect_close_elements by auto.
    rewrite parse_elements_print;
      [done|done| |unfold elements_size; simpl in *; lia].
    exact (Forall_mp _ _ _ IH Hwf).
  - apply json_wf_obj in Hwf as [Hnd Hwf]. cbn [print_value].
    rewrite <- List.app_comm_cons, <- List.app_assoc, parse_value_object.
    change (["}"] ++ r) with ("}" :: r).
    destruct fields as [|kv fields]; [done|].
    fold print_member.
    assert (expect "}" (join_comma (map print_member (kv :: fields)) ++ "}" :: r)
            = None) as ->.
    { cbn [map]. unfold print_member at 1, print_string.
      by destruct (map print_member fields). }
    rewrite parse_members_print;
      [|done| |unfold members_size; simpl in *; lia].
    + ostep. by rewrite obj_of_members_NoDup.
    + exact (Forall_mp (λ kv, json_wf kv.2 = true) _ _ IH Hwf).
Qed.

(** *** The fuel [parse] supplies *)

Lemma join_comma_length parts :
  List.length (join_comma parts) =
  foldr (λ p n, List.length p + n) 0 parts + pred (List.length parts).
Proof.
  induction parts as [|p [|p' parts] IH]; simpl in *; [done|lia|].
  rewrite List.length_app. simpl. lia.
Qed.

Lemma json_size_length v : json_size v ≤ List.length (print_value v).
Proof.
  induction v as [|b|n|s|items IH|fields IH] using json_ind'.
  - simpl. lia.
  - destruct b; simpl; lia.
  - destruct (print_number_start n) as (c & t & Hp & _). simpl. rewrite Hp.
    simpl. lia.
  - simpl. lia.
  - cbn [print_value json_size]. simpl List.length.
    rewrite List.length_app, join_comma_length, List.length_map. simpl.
    induction IH as [|v items Hv _ IHitems]; simpl in *; [lia|].
    destruct items; simpl in *; lia.
  - cbn [print_value json_size]. simpl List.length.
    rewrite List.length_app, join_comma_length, List.length_map. simpl.
    induction IH as [|[k v] fields Hv _ IHfields]; simpl in *; [lia|].
    rewrite List.length_app. destruct fields; simpl in *; lia.
Qed.

Lemma string_of_list_ascii_length l :
  String.length (string_of_list_ascii l) = List.length l.
Proof. induction l as [|c l IH]; simpl; by rewrite ?IH. Qed.

(** ** The round trip *)

(** [JSON.parse(JSON.stringify(v))] is [v], for every well-formed [v]. *)
Theorem parse_stringify v : json_wf v = true → parse (stringify v) = Ok v.
Proof.
  intros Hwf. unfold parse, stringify, parse_text.
  rewrite list_ascii_of_string_of_list_ascii, string_of_list_ascii_length.
  rewrite <- (List.app_nil_r (print_value v)) at 2.
  rewrite (print_value_reads_back v Hwf); [done| |done].
  pose proof (json_size_length v). lia.
Qed.

(** ** What the parser returns is well-formed *)

Lemma parse_number_safe s n r :
  parse_number s = Some (n, r) → safe_integer n = true.
Proof.
  unfold parse_number. destruct (parse_sign s) as [negative s1].
  destruct (span_digits s1) as [ds r'].
  destruct (digits_value ds) as [m|]; simpl; [|done].
  destruct (continues_number r'); [done|].
  destruct (safe_integer _) eqn:Hsafe; [|done]. by intros [= <- _].
Qed.

Lemma obj_set_keys k v fields :
  (obj_set k v fields).*1 =
  if decide (k ∈ fields.*1) then fields.*1 else fields.*1 ++ [k].
Proof.
  induction fields as [|[k' v'] fields IH]; [done|].
  cbn [obj_set]. destruct (decide (k' = k)) as [->|Hne]; rewrite !fmap_cons.
  - by rewrite decide_True by left.
  - rewrite IH. cbn [fst]. destruct (decide (k ∈ fields.*1)) as [Hk|Hk].
    + by rewrite decide_True by by right.
    + rewrite decide_False; [done|]. by intros [?|?]%elem_of_cons.
Qed.

Lemma obj_set_NoDup k v fields :
  NoDup (fields.*1) → NoDup ((obj_set k v fields).*1).
Proof.
  intros Hnd. rewrite obj_set_keys. destruct (decide (k ∈ fields.*1)); [done|].
  apply NoDup_app. split_and!; [done| |apply NoDup_singleton].
  by intros k' Hk' ->%list_elem_of_singleton.
Qed.

Lemma obj_set_wf k v fields :
  json_wf v = true → forallb (λ kv, json_wf kv.2) fields = true →
  forallb (λ kv, json_wf kv.2) (obj_set k v fields) = true.
Proof.
  intros Hv. induction fields as [|[k' v'] fields IH]; simpl.
  - by rewrite Hv.
  - intros [Hv' Hfields]%andb_true_iff.
    destruct (decide (k' = k)); simpl; [by rewrite Hv|]. by rewrite Hv', IH.
Qed.

Lemma obj_of_members_wf members :
  forallb (λ kv, json_wf kv.2) members = true →
  json_wf (JObj (obj_of_members members)) = true.
Proof.
  unfold obj_of_members.
  assert (∀ acc, json_wf (JObj acc) = true →
    forallb (λ kv, json_wf kv.2) members = true →
    json_wf (JObj (foldl (λ acc kv, obj_set kv.1 kv.2 acc) acc members)) = true)
    as Hfold; [|by apply Hfold].
  induction members as [|[k v] members IH]; intros acc Hacc; simpl; [done|].
  intros [Hv Hrest]%andb_true_iff. apply IH; [|done].
  simpl in Hacc. apply andb_true_iff in Hacc as [Hnd%bool_decide_eq_true Hwf].
  simpl. apply andb_true_iff. split.
  - by apply bool_decide_eq_true, obj_set_NoDup.
  - by apply obj_set_wf.
Qed.

Lemma parse_value_S fuel s :
  parse_value (S fuel) s =
  match skip_ws s with
  | [] => None
  | c :: r =>
      if is_digit c || Ascii.eqb c "-" then
        '(n, r') ← parse_number (c :: r); Some (JNum n, r')
      else if Ascii.eqb c dquote then
        '(str, r') ← parse_chars r; Some (JStr str, r')
      else if Ascii.eqb c "n" then
        r' ← strip_prefix ["u"; "l"; "l"] r; Some (JNull, r')
      else if Ascii.eqb c "t" then
        r' ← strip_prefix ["r"; "u"; "e"] r; Some (JBool true, r')
      else if Ascii.eqb c "f" then
        r' ← strip_prefix ["a"; "l"; "s"; "e"] r; Some (JBool false, r')
      else if Ascii.eqb c "[" then
        match expect "]" r with
        | Some r' => Some (JArr [], r')
        | None => '(items, r') ← parse_elements fuel r; Some (JArr items, r')
        end
      else if Ascii.eqb c "{" then
        match expect "}" r with
        | Some r' => Some (JObj [], r')
        | None =>
            '(members, r') ← parse_members fuel r;
            Some (JObj (obj_of_members members), r')
        end
      else None
  end.
Proof. reflexivity. Qed.

(** What the three parsers return with fuel [fuel]. *)
Definition parsers_wf (fuel : nat) : Prop :=
  (∀ s v r, parse_value fuel s = Some (v, r) → json_wf v = true) ∧
  (∀ s vs r, parse_elements fuel s = Some (vs, r) →
             forallb json_wf vs = true) ∧
  (∀ s ms r, parse_members fuel s = Some (ms, r) →
             forallb (λ kv, json_wf kv.2) ms = true).

Lemma parse_value_wf_step fuel s v r :
  parsers_wf fuel → parse_value (S fuel) s = Some (v, r) → json_wf v = true.
Proof.
  intros (_ & IHe & IHm). rewrite parse_value_S.
  destruct (skip_ws s) as [|c r0]; [done|].
  destruct (is_digit c || Ascii.eqb c "-").
  { destruct (parse_number _) as [[n r']|] eqn:Hn; simpl; [|done].
    intros [= <- _]. by eapply parse_number_safe. }
  destruct (Ascii.eqb c dquote).
  { destruct (parse_chars r0) as [[str r']|]; simpl; [|done]. by intros [= <- _]. }
  destruct (Ascii.eqb c "n").
  { destruct (strip_prefix _ r0); simpl; [|done]. by intros [= <- _]. }
  destruct (Ascii.eqb c "t").
  { destruct (strip_prefix _ r0); simpl; [|done]. by intros [= <- _]. }
  destruct (Ascii.eqb c "f").
  { destruct (strip_prefix _ r0); simpl; [|done]. by intros [= <- _]. }
  destruct (Ascii.eqb c "[").
  { destruct (expect "]" r0); [by intros [= <- _]|].
    destruct (parse_elements fuel r0) as [[items r']|] eqn:He; simpl; [|done].
    intros [= <- _]. by eapply IHe. }
  destruct (Ascii.eqb c "{"); [|done].
  destruct (expect "}" r0); [by intros [= <- _]|].
  destruct (parse_members fuel r0) as [[members r']|] eqn:Hm; simpl; [|done].
  intros [= <- _]. eapply obj_of_members_wf, IHm, Hm.
Qed.

Lemma parse_elements_wf_step fuel s vs r :
  parsers_wf fuel → parse_elements (S fuel) s = Some (vs, r) →
  forallb json_wf vs = true.
Proof.
  intros (IHv & IHe & _). rewrite parse_elements_S.
  destruct (parse_value fuel s) as [[v r0]|] eqn:Hv; simpl; [|done].
  apply IHv in Hv. destruct (expect "," r0) as [r1|].
  - destruct (parse_elements fuel r1) as [[vs' r2]|] eqn:He; simpl; [|done].
    intros [= <- _]. simpl. by rewrite Hv, (IHe _ _ _ He).
  - destruct (expect "]" r0); simpl; [|done]. intros [= <- _]. simpl.
    by rewrite Hv.
Qed.

Lemma parse_members_wf_step fuel s ms r :
  parsers_wf fuel → parse_members (S fuel) s = Some (ms, r) →
  forallb (λ kv, json_wf kv.2) ms = true.
Proof.
  intros (IHv & _ & IHm). rewrite parse_members_S.
  destruct (expect dquote s) as [r0|]; simpl; [|done].
  destruct (parse_chars r0) as [[k r1]|]; simpl; [|done].
  destruct (expect ":" r1) as [r2|]; simpl; [|done].
  destruct (parse_value fuel r2) as [[v r3]|] eqn:Hv; simpl; [|done].
  apply IHv in Hv. destruct (expect "," r3) as [r4|].
  - destruct (parse_members fuel r4) as [[ms' r5]|] eqn:Hm; simpl; [|done].
    intros [= <- _]. simpl. by rewrite Hv, (IHm _ _ _ Hm).
  - destruct (expect "}" r3); simpl; [|done]. intros [= <- _]. simpl.
    by rewrite Hv.
Qed.

Lemma parsers_wf_fuel fuel : parsers_wf fuel.
Proof.
  induction fuel as [|fuel IH]; [by split_and!|].
  split_and!; intros ???; [by apply parse_value_wf_step
                          |by apply parse_elements_wf_step
                          |by apply parse_members_wf_step].
Qed.

(** Whatever text it is given, [parse] returns well-formed values only:
    no object with a property twice, no number outside the safe
    integers. *)
Theorem parse_wf s v : parse s = Ok v → json_wf v = true.
Proof.
  unfold parse, parse_text.
  destruct (parse_value _ _) as [[v' r]|] eqn:Hv; simpl; [|done].
  destruct (skip_ws r); [|done]. intros [= <-].
  by eapply (proj1 (parsers_wf_fuel _)).
Qed.

(** The text [null], which [getItem] of a missing key is converted to,
    is read as [null]. *)
Lemma parse_null : parse "null" = Ok JNull.
Proof. reflexivity. Qed.

#[export] Instance json_text_codec : JsonCodec := {|
  JSON_stringify := stringify;
  JSON_parse := parse;
  JSON_parse_stringify := parse_stringify;
  JSON_parse_null := parse_null;
  JSON_parse_wf := parse_wf;
|}.
