(* ===== verification/JsonFuel.v ===== *)
(** * The fuel of the JSON parser

    [parse_value], [parse_elements] and [parse_members] of [JsonText]
    recurse on fuel, and [parse] gives them the length of the text plus
    one.  This file shows that the fuel never decides the answer: every
    parser consumes at least one character for each unit of fuel it
    needs, so the characters consumed bound the fuel needed
    ([parsers_fuel]), more fuel gives the same result, and a text that
    is accepted with some fuel is accepted by [parse]
    ([parse_fuel_enough]).  [parse] therefore rejects a text only for
    what the text is. *)

From stdpp Require Import base option list strings.
From Stdlib Require Import ZArith NArith Ascii String Lia.
From S2P Require Import Prelude Json Http Platform JsonText.

Local Open Scope char_scope.

#[local] Arguments Nat.min : simpl never.
#[local] Arguments Nat.sub : simpl never.

(** ** Definitions *)

(** The parser [p] consumes input and needs no more fuel than it
    consumes: when it returns [r] from [s] with fuel [fuel], [r] is
    shorter than [s], and any fuel that is at least [fuel] or at least
    the number of characters consumed gives the same result. *)
Definition fuel_bounded {A} (p : nat → list ascii → option (A * list ascii))
    (fuel : nat) : Prop :=
  ∀ s a r, p fuel s = Some (a, r) →
    List.length r < List.length s ∧
    ∀ fuel', Nat.min fuel (List.length s - List.length r) ≤ fuel' →
             p fuel' s = Some (a, r).

(** The three parsers at fuel [fuel]. *)
Definition parsers_fuel_bounded (fuel : nat) : Prop :=
  fuel_bounded parse_value fuel ∧ fuel_bounded parse_elements fuel ∧
  fuel_bounded parse_members fuel.

(** ** What the lexical functions consume *)

Lemma skip_ws_length s : List.length (skip_ws s) ≤ List.length s.
Proof.
  induction s as [|c s IH]; simpl; [done|]. destruct (is_ws c); simpl; lia.
Qed.

Lemma expect_length c s r : expect c s = Some r → List.length r < List.length s.
Proof.
  unfold expect. pose proof (skip_ws_length s) as Hs.
  destruct (skip_ws s) as [|c' r']; [done|]. destruct (Ascii.eqb c' c); [|done].
  intros [= <-]. simpl in Hs. lia.
Qed.

Lemma strip_prefix_length p s r :
  strip_prefix p s = Some r → List.length r ≤ List.length s.
Proof.
  revert s. induction p as [|a p IH]; intros [|b s]; simpl; try done.
  - by intros [= <-].
  - by intros [= <-].
  - destruct (Ascii.eqb a b); [|done]. intros Hr%IH. lia.
Qed.

Lemma parse_chars_length_aux n : ∀ s str r,
  List.length s ≤ n → parse_chars s = Some (str, r) →
  List.length r < List.length s.
Proof.
  induction n as [|n IH]; intros [|c s] str r Hn; simpl in *; try done; [lia|].
  destruct (Ascii.eqb c dquote); [intros [= _ <-]; lia|].
  destruct (Ascii.eqb c bslash).
  - destruct s as [|e s1]; [done|]. destruct (Ascii.eqb e "u").
    + destruct s1 as [|h1 [|h2 [|h3 [|h4 s2]]]]; try done.
      destruct (unescape_hex h1 h2 h3 h4); simpl; [|done].
      destruct (parse_chars s2) as [[str' r']|] eqn:Hrec; simpl; [|done].
      intros [= _ <-]. apply IH in Hrec; simpl in *; lia.
    + destruct (unescape e); simpl; [|done].
      destruct (parse_chars s1) as [[str' r']|] eqn:Hrec; simpl; [|done].
      intros [= _ <-]. apply IH in Hrec; simpl in *; lia.
  - destruct (is_control c); [done|].
    destruct (parse_chars s) as [[str' r']|] eqn:Hrec; simpl; [|done].
    intros [= _ <-]. apply IH in Hrec; simpl in *; lia.
Qed.

Lemma parse_chars_length s str r :
  parse_chars s = Some (str, r) → List.length r < List.length s.
Proof. by apply (parse_chars_length_aux (List.length s)). Qed.

Lemma span_digits_length s ds r :
  span_digits s = (ds, r) → List.length s = List.length ds + List.length r.
Proof.
  revert ds r. induction s as [|c s IH]; simpl; intros ds r.
  - by intros [= <- <-].
  - destruct (is_digit c); [|by intros [= <- <-]].
    destruct (span_digits s) as [ds' r']. intros [= <- <-].
    simpl. by rewrite (IH ds' r').
Qed.

Lemma parse_sign_length s negative r :
  parse_sign s = (negative, r) → List.length r ≤ List.length s.
Proof.
  destruct s as [|c s]; simpl; [by intros [= _ <-]|].
  destruct (Ascii.eqb c "-"); intros [= _ <-]; simpl; lia.
Qed.

Lemma parse_number_length s n r :
  parse_number s = Some (n, r) → List.length r < List.length s.
Proof.
  unfold parse_number. destruct (parse_sign s) as [negative s1] eqn:Hsign.
  destruct (span_digits s1) as [ds r'] eqn:Hspan.
  apply parse_sign_length in Hsign. apply span_digits_length in Hspan.
  destruct ds as [|d ds]; [done|].
  destruct (digits_value (d :: ds)); simpl; [|done].
  destruct (continues_number r'); [done|].
  destruct (safe_integer _); [|done]. intros [= _ <-]. simpl in Hspan. lia.
Qed.

(** ** What the parsers consume, and the fuel they need *)

(** A parser that consumes input needs at least one unit of fuel, so it
    is enough to look at the fuels that are successors. *)
Lemma fuel_bounded_S {A} (p : nat → list ascii → option (A * list ascii)) fuel :
  (∀ s a r, p (S fuel) s = Some (a, r) →
     List.length r < List.length s ∧
     ∀ f', Nat.min (S fuel) (List.length s - List.length r) ≤ S f' →
           p (S f') s = Some (a, r)) →
  fuel_bounded p (S fuel).
Proof.
  intros Hp s a r [Hlen Hfuel]%Hp. split; [done|].
  intros [|f'] Hf'; [lia|by apply Hfuel].
Qed.

Lemma fuel_bounded_O {A} (p : nat → list ascii → option (A * list ascii)) :
  (∀ s, p 0 s = None) → fuel_bounded p 0.
Proof. intros Hp s a r. by rewrite Hp. Qed.

Lemma parse_value_fuel_step fuel :
  parsers_fuel_bounded fuel → fuel_bounded parse_value (S fuel).
Proof.
  intros (_ & IHe & IHm). apply fuel_bounded_S. intros s v r.
  rewrite parse_value_S. setoid_rewrite parse_value_S.
  pose proof (skip_ws_length s) as Hws.
  destruct (skip_ws s) as [|c r0]; [done|]. simpl in Hws.
  destruct (is_digit c || Ascii.eqb c "-").
  { destruct (parse_number _) as [[n r']|] eqn:Hn; simpl; [|done].
    intros [= <- <-]. apply parse_number_length in Hn. simpl in Hn.
    split; [lia|done]. }
  destruct (Ascii.eqb c dquote).
  { destruct (parse_chars r0) as [[str r']|] eqn:Hstr; simpl; [|done].
    intros [= <- <-]. apply parse_chars_length in Hstr. split; [lia|done]. }
  destruct (Ascii.eqb c "n").
  { destruct (strip_prefix _ r0) as [r'|] eqn:Hp; simpl; [|done].
    intros [= <- <-]. apply strip_prefix_length in Hp. split; [lia|done]. }
  destruct (Ascii.eqb c "t").
  { destruct (strip_prefix _ r0) as [r'|] eqn:Hp; simpl; [|done].
    intros [= <- <-]. apply strip_prefix_length in Hp. split; [lia|done]. }
  destruct (Ascii.eqb c "f").
  { destruct (strip_prefix _ r0) as [r'|] eqn:Hp; simpl; [|done].
    intros [= <- <-]. apply strip_prefix_length in Hp. split; [lia|done]. }
  destruct (Ascii.eqb c "[").
  { destruct (expect "]" r0) as [r'|] eqn:Hclose.
    - intros [= <- <-]. apply expect_length in Hclose. split; [lia|done].
    - destruct (parse_elements fuel r0) as [[items r']|] eqn:Hitems;
        simpl; [|done].
      intros [= <- <-]. apply IHe in Hitems as [Hlen Hfuel].
      split; [lia|]. intros f' Hf'. by rewrite (Hfuel f') by lia. }
  destruct (Ascii.eqb c "{"); [|done].
  destruct (expect "}" r0) as [r'|] eqn:Hclose.
  - intros [= <- <-]. apply expect_length in Hclose. split; [lia|done].
  - destruct (parse_members fuel r0) as [[members r']|] eqn:Hmembers;
      simpl; [|done].
    intros [= <- <-]. apply IHm in Hmembers as [Hlen Hfuel].
    split; [lia|]. intros f' Hf'. by rewrite (Hfuel f') by lia.
Qed.

Lemma parse_elements_fuel_step fuel :
  parsers_fuel_bounded fuel → fuel_bounded parse_elements (S fuel).
Proof.
  intros (IHv & IHe & _). apply fuel_bounded_S. intros s vs r.
  rewrite parse_elements_S. setoid_rewrite parse_elements_S.
  destruct (parse_value fuel s) as [[v r0]|] eqn:Hv; simpl; [|done].
  apply IHv in Hv as [Hlen0 Hfuel0].
  destruct (expect "," r0) as [r1|] eqn:Hcomma.
  - pose proof (expect_length _ _ _ Hcomma) as Hlen1.
    destruct (parse_elements fuel r1) as [[vs' r2]|] eqn:Hrest; simpl; [|done].
    intros [= <- <-]. apply IHe in Hrest as [Hlen2 Hfuel2].
    split; [lia|]. intros f' Hf'.
    rewrite (Hfuel0 f') by lia. simpl. rewrite Hcomma.
    by rewrite (Hfuel2 f') by lia.
  - destruct (expect "]" r0) as [r1|] eqn:Hclose; simpl; [|done].
    intros [= <- <-]. pose proof (expect_length _ _ _ Hclose) as Hlen1.
    split; [lia|]. intros f' Hf'.
    rewrite (Hfuel0 f') by lia. simpl. by rewrite Hcomma, Hclose.
Qed.

Lemma parse_members_fuel_step fuel :
  parsers_fuel_bounded fuel → fuel_bounded parse_members (S fuel).
Proof.
  intros (IHv & _ & IHm). apply fuel_bounded_S. intros s ms r.
  rewrite parse_members_S. setoid_rewrite parse_members_S.
  destruct (expect dquote s) as [r0|] eqn:Hquote; simpl; [|done].
  destruct (parse_chars r0) as [[k r1]|] eqn:Hkey; simpl; [|done].
  destruct (expect ":" r1) as [r2|] eqn:Hcolon; simpl; [|done].
  pose proof (expect_length _ _ _ Hquote) as Hlenq.
  pose proof (expect_length _ _ _ Hcolon) as Hlenc.
  pose proof (parse_chars_length _ _ _ Hkey) as Hlenk.
  destruct (parse_value fuel r2) as [[v r3]|] eqn:Hv; simpl; [|done].
  apply IHv in Hv as [Hlen3 Hfuel3].
  destruct (expect "," r3) as [r4|] eqn:Hcomma.
  - pose proof (expect_length _ _ _ Hcomma) as Hlen1.
    destruct (parse_members fuel r4) as [[ms' r5]|] eqn:Hrest; simpl; [|done].
    intros [= <- <-]. apply IHm in Hrest as [Hlen5 Hfuel5].
    split; [lia|]. intros f' Hf'.
    rewrite (Hfuel3 f') by lia. simpl. rewrite Hcomma.
    by rewrite (Hfuel5 f') by lia.
  - destruct (expect "}" r3) as [r4|] eqn:Hclose; simpl; [|done].
    intros [= <- <-]. pose proof (expect_length _ _ _ Hclose) as Hlen1.
    split; [lia|]. intros f' Hf'.
    rewrite (Hfuel3 f') by lia. simpl. by rewrite Hcomma, Hclose.
Qed.

(** Each parser consumes at least as many characters as it needs fuel. *)
Lemma parsers_fuel fuel : parsers_fuel_bounded fuel.
Proof.
  induction fuel as [|fuel IH].
  - split_and!; by apply fuel_bounded_O.
  - split_and!; [by apply parse_value_fuel_step
                |by apply parse_elements_fuel_step
                |by apply parse_members_fuel_step].
Qed.

(** More fuel gives the same value. *)
Lemma parse_text_fuel_mono fuel fuel' s v :
  fuel ≤ fuel' → parse_text fuel s = Some v → parse_text fuel' s = Some v.
Proof.
  unfold parse_text. intros Hle.
  destruct (parse_value fuel s) as [[v' r]|] eqn:Hv; [|done].
  destruct (proj1 (parsers_fuel fuel) _ _ _ Hv) as [_ Hfuel].
  by rewrite (Hfuel fuel') by lia.
Qed.

(** The length of the text is fuel enough. *)
Lemma parse_text_fuel_length fuel s v :
  parse_text fuel s = Some v → parse_text (S (List.length s)) s = Some v.
Proof.
  unfold parse_text.
  destruct (parse_value fuel s) as [[v' r]|] eqn:Hv; [|done].
  destruct (proj1 (parsers_fuel fuel) _ _ _ Hv) as [_ Hfuel].
  by rewrite (Hfuel (S (List.length s))) by lia.
Qed.

Lemma length_list_ascii_of_string s :
  List.length (list_ascii_of_string s) = String.length s.
Proof. induction s as [|c s IH]; simpl; by rewrite ?IH. Qed.

(** ** [parse] is the parser without fuel *)

(** The fuel [parse] gives its parser never decides the answer:
    [parse] returns a value exactly when the parser returns it with
    some fuel, so no text is rejected for lack of fuel. *)
Theorem parse_fuel_enough s v :
  parse s = Ok v ↔ ∃ fuel, parse_text fuel (list_ascii_of_string s) = Some v.
Proof.
  unfold parse. split.
  - destruct (parse_text _ _) as [v'|] eqn:Hv; [|done]. intros [= <-]. eauto.
  - intros [fuel Hv%parse_text_fuel_length].
    rewrite length_list_ascii_of_string in Hv. by rewrite Hv.
Qed.

(** Once the parser has returned a value, more fuel returns the same
    value: the result of parsing does not depend on the fuel. *)
Theorem parse_text_fuel_stable fuel1 fuel2 s v1 v2 :
  parse_text fuel1 s = Some v1 → parse_text fuel2 s = Some v2 → v1 = v2.
Proof.
  intros H1 H2.
  apply (parse_text_fuel_mono _ (Nat.max fuel1 fuel2)) in H1, H2; [|lia..].
  congruence.
Qed.
