(* ===== verification/Axios.v ===== *)
(** * The HTTP client

    [authService.js] calls [axios.post] and reads what the promise
    settles to.  This file models what axios does between the reply of
    the server and that promise, with the defaults the service leaves in
    place: the body of the reply is parsed as JSON when it parses and is
    kept as a string otherwise ([transformResponse]); a reply with a
    status from 200 to 299 resolves the promise and any other rejects it
    with an error that carries the reply ([validateStatus]); a request
    that gets no reply rejects it with the error [Network Error].  On
    the way out the data object is serialised with [JSON.stringify] and
    the headers of the call are completed with the defaults of axios
    ([transformRequest]).  The service sets no timeout, so a request may also stay in flight for
    ever; that is the business of [Session], where a request settles
    only when the environment says so.

    A [server] stands for the network and the server behind the API: it
    gives each request the reply on the wire, or none. *)

From stdpp Require Import base option list strings.
From Stdlib Require Import ZArith Lia Ascii String.
From S2P Require Import Prelude Json Http Platform JsonText.

Local Open Scope Z_scope.

(** A reply on the wire: the status line and the text of the body. *)
Record wire_reply : Type := WireReply {
  wire_status : Z;
  wire_body : string;
}.

(** A request on the wire: the method, the address, the headers and the
    text of the body. *)
Record wire_request : Type := WireRequest {
  wire_method : string;
  wire_url : string;
  wire_headers : list (string * string);
  wire_text : string;
}.

(** The network and the server: the reply to a request, or none. *)
Definition server : Type := wire_request → option wire_reply.

(** The headers with [k: v] added when the call did not set [k]. *)
Definition with_default (k v : string) (headers : list (string * string)) :
    list (string * string) :=
  if bool_decide (k ∈ headers.*1) then headers else headers ++ [(k, v)].

(** The headers axios sends with a POST of an object: those of the call,
    and its own [Content-Type] and [Accept] where the call has none. *)
Definition request_headers (headers : list (string * string)) :
    list (string * string) :=
  with_default "Accept" "application/json, text/plain, */*"
    (with_default "Content-Type" "application/json" headers).

(** [validateStatus] of the defaults of axios. *)
Definition validateStatus (status : Z) : bool :=
  (200 <=? status) && (status <? 300).

(** The decimal text of a status code. *)
Definition status_text (status : Z) : string :=
  string_of_list_ascii (print_number status).

Definition NETWORK_ERROR : js_error :=
  JsError "AxiosError" (Some (JStr "Network Error")) None.

(** The error of a reply whose status does not validate. *)
Definition status_error (r : http_response) : js_error :=
  JsError "AxiosError"
    (Some (JStr ("Request failed with status code " +:+ status_text (resp_status r))))
    (Some r).

Section axios.
Context `{!JsonCodec}.

(** [transformRequest] of the defaults of axios, for a POST whose data is
    an object. *)
Definition transformRequest (request : http_request) : wire_request :=
  WireRequest "POST" (req_url request) (request_headers (req_headers request))
    (JSON_stringify (req_body request)).

(** [transformResponse] of the defaults of axios: an empty body stays
    the empty string; any other is parsed, and stays a string when it
    is not JSON. *)
Definition transformResponse (body : string) : json :=
  if decide (body = "") then JStr ""
  else match JSON_parse body with
       | Ok v => v
       | Throw _ => JStr body
       end.

(** The reply object axios builds. *)
Definition response_of (w : wire_reply) : http_response :=
  HttpResponse (wire_status w) (Some (transformResponse (wire_body w))).

(** What the promise of a request settles to, given what came back. *)
Definition settle (reply : option wire_reply) : outcome :=
  match reply with
  | None => Throw NETWORK_ERROR
  | Some w =>
      if validateStatus (wire_status w) then Ok (response_of w)
      else Throw (status_error (response_of w))
  end.

(** [axios.post] against the server [srv]. *)
Definition axios_post (srv : server) : network :=
  λ request, settle (srv (transformRequest request)).

(** ** What the server receives *)

Lemma with_default_set k v headers :
  k ∈ headers.*1 → with_default k v headers = headers.
Proof. intros Hk. unfold with_default. by rewrite bool_decide_eq_true_2. Qed.

Lemma with_default_lookup k v headers :
  k ∈ (with_default k v headers).*1.
Proof.
  unfold with_default. case_bool_decide; [done|].
  rewrite fmap_app. apply elem_of_app. right. simpl. left.
Qed.

(** The headers of the call reach the server as they are, in front of
    the defaults. *)
Lemma request_headers_prefix headers : headers `prefix_of` request_headers headers.
Proof.
  unfold request_headers, with_default.
  repeat case_bool_decide; try done; rewrite <- ?(assoc_L (++));
    by apply prefix_app_r.
Qed.

(** The body the server receives parses back to the data of the call. *)
Lemma transformRequest_body request :
  json_wf (req_body request) = true →
  JSON_parse (wire_text (transformRequest request)) = Ok (req_body request).
Proof. apply JSON_parse_stringify. Qed.

(** ** What a request settles to *)

Lemma validateStatus_spec status :
  validateStatus status = true ↔ 200 ≤ status < 300.
Proof. unfold validateStatus. rewrite andb_true_iff, Z.leb_le, Z.ltb_lt. done. Qed.

Lemma transformResponse_wf body : json_wf (transformResponse body) = true.
Proof.
  unfold transformResponse. case_decide; [done|].
  destruct (JSON_parse body) as [v|e] eqn:Hparse; [|done].
  by eapply JSON_parse_wf.
Qed.

Lemma response_of_wf w : response_wf (response_of w) = true.
Proof. apply transformResponse_wf. Qed.

(** Whatever the server sends, the body the service sees is a
    well-formed value. *)
Lemma settle_wf reply : outcome_wf (settle reply) = true.
Proof.
  destruct reply as [w|]; simpl; [|done].
  destruct (validateStatus _); [apply response_of_wf|done].
Qed.

Lemma settle_Ok reply r :
  settle reply = Ok r ↔
  ∃ w, reply = Some w ∧ 200 ≤ wire_status w < 300 ∧ r = response_of w.
Proof.
  unfold settle. destruct reply as [w|]; [|naive_solver].
  destruct (validateStatus _) eqn:Hs.
  - apply validateStatus_spec in Hs. naive_solver.
  - split; [done|]. intros (? & [= <-] & ?%validateStatus_spec & _). congruence.
Qed.

Lemma settle_Throw reply e :
  settle reply = Throw e ↔
  (reply = None ∧ e = NETWORK_ERROR) ∨
  (∃ w, reply = Some w ∧ ¬ 200 ≤ wire_status w < 300 ∧
        e = status_error (response_of w)).
Proof.
  unfold settle. destruct reply as [w|]; [|naive_solver].
  destruct (validateStatus _) eqn:Hs.
  - apply validateStatus_spec in Hs. naive_solver.
  - assert (¬ 200 ≤ wire_status w < 300)
      by (rewrite <- validateStatus_spec; congruence).
    naive_solver.
Qed.

(** The reply a promise resolves with has a status from 200 to 299, and
    the reply an error carries has another. *)
Lemma settle_status reply :
  match settle reply with
  | Ok r => 200 ≤ resp_status r < 300
  | Throw e =>
      ∀ r, err_response e = Some r → ¬ 200 ≤ resp_status r < 300
  end.
Proof.
  destruct (settle reply) as [r|e] eqn:Hs.
  - by apply settle_Ok in Hs as (w & _ & ? & ->).
  - apply settle_Throw in Hs as [[_ ->]|(w & _ & ? & ->)]; [done|].
    by intros r [= <-].
Qed.

(** Every error of axios has a message that is a non-empty string. *)
Lemma settle_Throw_message reply e :
  settle reply = Throw e → truthy (err_message e) = true.
Proof. intros [[_ ->]|(w & _ & _ & ->)]%settle_Throw; done. Qed.

End axios.
