(* ===== verification/AuthService.v ===== *)
(** * The session client [authService.js]

    The four methods of the class [AuthService], as computations over the
    world.  A method that waits for the network is split where it
    suspends: [login_start] and [register_start] run when the method is
    called and give the request that is sent; [login_resume] and
    [register_resume] run when the request has settled, with its outcome.
    [login] and [register] compose the two for a call that nothing
    interleaves with; [Session] interleaves them.

    The theorems give, for every branch of every method, the value it
    returns (or the error it throws) and the store it leaves. *)

From stdpp Require Import base option list strings gmap.
From Stdlib Require Import ZArith.
From S2P Require Import Prelude Json Http Platform Storage JsonText.

Local Open Scope prog_scope.

(** [const API_URL] *)
Definition API_URL : string := "http://localhost:8080/api/auth/".

(** The key of [localStorage] that holds the session. *)
Definition USER_KEY : string := "user".

(** The headers of [config] in [login]. *)
Definition login_config : list (string * string) :=
  [("Content-Type", "application/json"); ("Accept", "application/json")].

(** [{ username, password }] *)
Definition credentials (username password : string) : json :=
  JObj [("username", JStr username); ("password", JStr password)].

(** [{ username, email, password, role }] *)
Definition registration (username email password role : string) : json :=
  JObj [("username", JStr username); ("email", JStr email);
        ("password", JStr password); ("role", JStr role)].

(** [axios.post(API_URL + 'login', { username, password }, config)] *)
Definition login_request (username password : string) : http_request :=
  HttpRequest (API_URL +:+ "login") (credentials username password) login_config.

(** [axios.post(API_URL + 'register', { username, email, password, role })] *)
Definition register_request (username email password role : string) :
    http_request :=
  HttpRequest (API_URL +:+ "register")
    (registration username email password role) [].

Definition INVALID_RESPONSE : string :=
  "Invalid response from server. Please try again.".

Definition LOGIN_FAILED : string := "Login failed. Please try again.".

(** [{ success: false, message }] *)
Definition failure (message : json) : json :=
  JObj [("success", JBool false); ("message", message)].

(** ** What the methods promise

    The message of a failed [login], in the order the [catch] block
    looks for it: the [message] of the body of the error reply, the
    message of the error, the fixed text. *)
Definition resolve_message (error : js_error) : json :=
  match err_response error ≫= (λ r, truthy_prop "message" (resp_data r)) with
  | Some message => message
  | None => js_or (err_message error) (JStr LOGIN_FAILED)
  end.

(** The calls of [console.error] the [catch] block of [login] makes. *)
Definition catch_logs (error : js_error) : list console_entry :=
  ConsoleEntry LevelError [CStr "Login error:"; CError error] ::
  match err_response error with
  | Some response =>
      [ConsoleEntry LevelError
         [CStr "Error response status:";
          CVal (Some (JNum (resp_status response)))];
       ConsoleEntry LevelError
         [CStr "Error response data:"; CVal (resp_data response)]]
  | None => []
  end.

(** What [register] writes to the console, in order, as a function of
    the outcome of its request: the call with the user name and the role,
    then the body of the reply or the error. *)
Definition register_logs (username role : string) (o : outcome) :
    list console_entry :=
  [ConsoleEntry LevelLog
     [CStr "Registering new user:"; CStr username; CStr "with role:"; CStr role];
   match o with
   | Ok response =>
       ConsoleEntry LevelLog
         [CStr "Registration successful:"; CVal (resp_data response)]
   | Throw error =>
       ConsoleEntry LevelError [CStr "Registration error:"; CError error]
   end].

Section methods.
Context {S : Type} `{!KVStore S} `{!JsonCodec}.

(** [login] as a function of the outcome of its request and the store:
    the value the promise resolves to, and the store left. *)
Definition login_spec (o : outcome) (s : S) : json * S :=
  match o with
  | Ok response =>
      match checked "token" (resp_data response) with
      | Some data =>
          match setItem USER_KEY (JSON_stringify data) s with
          | Ok s' => (data, s')
          | Throw e => (failure (resolve_message e), s)
          end
      | None => (failure (JStr INVALID_RESPONSE), s)
      end
  | Throw e => (failure (resolve_message e), s)
  end.

(** What [login] writes to the console, in order, as a function of the
    outcome of its request and the store: the attempt, the whole reply
    when there is one, and the errors. *)
Definition login_logs (username : string) (o : outcome) (s : S) :
    list console_entry :=
  ConsoleEntry LevelLog [CStr "Attempting login for user:"; CStr username] ::
  match o with
  | Ok response =>
      ConsoleEntry LevelLog [CStr "Login response:"; CResponse response] ::
      match checked "token" (resp_data response) with
      | Some data =>
          match setItem USER_KEY (JSON_stringify data) s with
          | Ok _ => []
          | Throw e => catch_logs e
          end
      | None =>
          [ConsoleEntry LevelError
             [CStr "Invalid login response format:";
              CVal (resp_data response)]]
      end
  | Throw e => catch_logs e
  end.

(** *** [login] *)

(** What [login] does before it suspends at [await]: the first log, and
    the request. *)
Definition login_start (username password : string) : js S http_request :=
  console_log [CStr "Attempting login for user:"; CStr username] ;;
  ret (login_request username password).

(** The [try] block of [login] from the [await] on. *)
Definition login_try (o : outcome) : js S json :=
  response <- await o ;;
  console_log [CStr "Login response:"; CResponse response] ;;
  match checked "token" (resp_data response) with
  | Some data =>
      localStorage_setItem USER_KEY (JSON_stringify data) ;;
      ret data
  | None =>
      console_error
        [CStr "Invalid login response format:"; CVal (resp_data response)] ;;
      ret (failure (JStr INVALID_RESPONSE))
  end.

(** The [catch] block of [login]. *)
Definition login_catch (error : js_error) : js S json :=
  console_error [CStr "Login error:"; CError error] ;;
  let fallback := failure (js_or (err_message error) (JStr LOGIN_FAILED)) in
  match err_response error with
  | Some response =>
      console_error
        [CStr "Error response status:";
         CVal (Some (JNum (resp_status response)))] ;;
      console_error
        [CStr "Error response data:"; CVal (resp_data response)] ;;
      match truthy_prop "message" (resp_data response) with
      | Some message => ret (failure message)
      | None => ret fallback
      end
  | None => ret fallback
  end.

(** What [login] does once its request has settled to [o]. *)
Definition login_resume (o : outcome) : js S json :=
  try_catch (login_try o) login_catch.

(** [async login(username, password)], on a network that settles each
    request as [net] says. *)
Definition login (username password : string) (net : network) : js S json :=
  request <- login_start username password ;;
  login_resume (net request).

(** *** [logout] *)

Definition logout : js S unit := localStorage_removeItem USER_KEY.

(** *** [register] *)

Definition register_start (username email password role : string) :
    js S http_request :=
  console_log [CStr "Registering new user:"; CStr username;
               CStr "with role:"; CStr role] ;;
  ret (register_request username email password role).

(** The handler of [.then]. *)
Definition register_then (response : http_response) : js S http_response :=
  console_log [CStr "Registration successful:"; CVal (resp_data response)] ;;
  ret response.

(** The handler of [.catch]. *)
Definition register_catch (error : js_error) : js S http_response :=
  console_error [CStr "Registration error:"; CError error] ;;
  throw error.

(** What the promise [register] returns settles to, once the request has
    settled to [o]. *)
Definition register_resume (o : outcome) : js S http_response :=
  try_catch (response <- await o ;; register_then response) register_catch.

Definition register (username email password role : string) (net : network) :
    js S http_response :=
  request <- register_start username email password role ;;
  register_resume (net request).

(** *** [getCurrentUser] *)

Definition getCurrentUser : js S json :=
  item <- localStorage_getItem USER_KEY ;;
  JSON_parse_item item.

(** ** [login] *)

Lemma run_login_start username password (w : world S) :
  login_start username password w =
  (Ok (login_request username password),
   World (storage w)
     (console w ++
      [ConsoleEntry LevelLog [CStr "Attempting login for user:"; CStr username]])).
Proof. reflexivity. Qed.

(** The [catch] block returns the failure with the resolved message and
    leaves the store. *)
Lemma run_login_catch error (w : world S) :
  run_value (login_catch error) w = Ok (failure (resolve_message error)) ∧
  storage (run_state (login_catch error) w) = storage w.
Proof.
  unfold login_catch, resolve_message.
  destruct (err_response error) as [response|]; simpl; [|done].
  unfold run_value, run_state, bind. simpl.
  by destruct (truthy_prop "message" (resp_data response)).
Qed.

(** The [try] block on a reply: three ways out. *)
Lemma run_login_try response (w : world S) :
  let logged := console w ++
    [ConsoleEntry LevelLog [CStr "Login response:"; CResponse response]] in
  login_try (Ok response) w =
  match checked "token" (resp_data response) with
  | Some data =>
      match setItem USER_KEY (JSON_stringify data) (storage w) with
      | Ok s' => (Ok data, World s' logged)
      | Throw e => (Throw e, World (storage w) logged)
      end
  | None =>
      (Ok (failure (JStr INVALID_RESPONSE)),
       World (storage w)
         (logged ++
          [ConsoleEntry LevelError
             [CStr "Invalid login response format:";
              CVal (resp_data response)]]))
  end.
Proof.
  unfold login_try, bind. simpl.
  destruct (checked "token" (resp_data response)) as [data|]; [|done].
  unfold localStorage_setItem, attempt. simpl.
  by destruct (setItem USER_KEY (JSON_stringify data) (storage w)).
Qed.

(** Once the request has settled, [login] resolves to the value and
    leaves the store that [login_spec] computes. *)
Lemma login_resume_spec o (w : world S) :
  run_value (login_resume o) w = Ok (login_spec o (storage w)).1 ∧
  storage (run_state (login_resume o) w) = (login_spec o (storage w)).2.
Proof.
  unfold run_value, run_state, login_resume, login_spec, try_catch.
  destruct o as [response|e]; [rewrite run_login_try|]; simpl.
  - destruct (checked "token" (resp_data response)) as [data|]; [|done].
    destruct (setItem USER_KEY (JSON_stringify data) (storage w)); [done|].
    apply (run_login_catch _ (World _ _)).
  - apply run_login_catch.
Qed.

(** A call of [login] that nothing interleaves with logs the attempt and
    goes on with what the network gives its request. *)
Lemma run_login username password net (w : world S) :
  login username password net w =
  login_resume (net (login_request username password))
    (World (storage w)
       (console w ++
        [ConsoleEntry LevelLog
           [CStr "Attempting login for user:"; CStr username]])).
Proof. reflexivity. Qed.

(** The value and the store of [login], by [login_spec]. *)
Lemma login_by_spec username password net (w : world S) v s' :
  login_spec (net (login_request username password)) (storage w) = (v, s') →
  run_value (login username password net) w = Ok v ∧
  storage (run_state (login username password net) w) = s'.
Proof.
  intros Hspec. unfold run_value, run_state. rewrite run_login.
  destruct (login_resume_spec (net (login_request username password))
              (World (storage w)
                 (console w ++
                  [ConsoleEntry LevelLog
                     [CStr "Attempting login for user:"; CStr username]])))
    as [Hv Hs].
  simpl in Hv, Hs. rewrite Hspec in Hv, Hs. done.
Qed.

(** C1: [login] implements [login_spec]: with the outcome the network gives
    its request, it resolves to the value and leaves the store that
    [login_spec] computes. *)
Theorem login_refines_spec username password net (w : world S) :
  let result := login_spec (net (login_request username password)) (storage w) in
  run_value (login username password net) w = Ok result.1 ∧
  storage (run_state (login username password net) w) = result.2.
Proof.
  intros result. unfold run_value, run_state. rewrite run_login.
  apply login_resume_spec.
Qed.

(** C2: when the reply carries a body with a truthy [token] and the
    store accepts the write, [login] resolves to the body itself and the
    key ['user'] holds the body's serialised form. *)
Theorem login_success username password net (w : world S) response data s' :
  net (login_request username password) = Ok response →
  resp_data response = Some data →
  has_truthy "token" (resp_data response) = true →
  setItem USER_KEY (JSON_stringify data) (storage w) = Ok s' →
  run_value (login username password net) w = Ok data ∧
  storage (run_state (login username password net) w) = s' ∧
  getItem USER_KEY s' = Some (JSON_stringify data).
Proof.
  intros Hnet Hdata Htoken Hset.
  destruct (login_by_spec username password net w data s') as [-> ->].
  { unfold login_spec. by rewrite Hnet, (proj2 (checked_Some _ _ data)), Hset. }
  eauto using getItem_setItem.
Qed.

(** C9: when the reply has no body, or a body without a truthy
    [token], [login] resolves to the failure object with the fixed
    message and the store is as it was. *)
Theorem login_invalid_response username password net (w : world S) response :
  net (login_request username password) = Ok response →
  has_truthy "token" (resp_data response) = false →
  run_value (login username password net) w =
    Ok (failure (JStr INVALID_RESPONSE)) ∧
  storage (run_state (login username password net) w) = storage w.
Proof.
  intros Hnet Htoken%checked_None. apply login_by_spec.
  unfold login_spec. by rewrite Hnet, Htoken.
Qed.

(** C7: when the request fails with a reply whose body has a
    truthy [message], [login] resolves to the failure object with that
    message. *)
Theorem login_error_body_message username password net (w : world S)
    error response message :
  net (login_request username password) = Throw error →
  err_response error = Some response →
  truthy_prop "message" (resp_data response) = Some message →
  run_value (login username password net) w = Ok (failure message) ∧
  storage (run_state (login username password net) w) = storage w.
Proof.
  intros Hnet Hresp Hmsg. apply login_by_spec.
  unfold login_spec, resolve_message. rewrite Hnet, Hresp. simpl.
  by rewrite Hmsg.
Qed.

(** C8: when the request fails without a reply, or with a reply
    whose body has no truthy [message], the message of the failure is
    the error's own message when that is truthy and the fixed text
    otherwise. *)
Theorem login_error_fallback username password net (w : world S) error :
  net (login_request username password) = Throw error →
  (∀ response, err_response error = Some response →
     has_truthy "message" (resp_data response) = false) →
  run_value (login username password net) w =
    Ok (failure (js_or (err_message error) (JStr LOGIN_FAILED))) ∧
  storage (run_state (login username password net) w) = storage w.
Proof.
  intros Hnet Hbody. apply login_by_spec.
  unfold login_spec, resolve_message. rewrite Hnet.
  destruct (err_response error) as [response|]; simpl; [|done].
  by rewrite (proj2 (truthy_prop_None _ _) (Hbody _ eq_refl)).
Qed.

(** C10: when the reply carries a token but [setItem] throws, the
    [catch] block takes over: [login] resolves to a failure object whose
    message is resolved from the thrown error, and nothing is stored. *)
Theorem login_storage_failure username password net (w : world S)
    response data error :
  net (login_request username password) = Ok response →
  checked "token" (resp_data response) = Some data →
  setItem USER_KEY (JSON_stringify data) (storage w) = Throw error →
  run_value (login username password net) w =
    Ok (failure (resolve_message error)) ∧
  storage (run_state (login username password net) w) = storage w.
Proof.
  intros Hnet Hdata Hset. apply login_by_spec.
  unfold login_spec. by rewrite Hnet, Hdata, Hset.
Qed.

(** C29: a reply whose body has a [token] property that is
    falsy (the empty string, [0], [false] or [null]) is treated like a
    reply without token. *)
Theorem login_falsy_token_rejected username password net (w : world S)
    response fields token :
  net (login_request username password) = Ok response →
  resp_data response = Some (JObj fields) →
  get_field "token" fields = Some token →
  json_truthy token = false →
  run_value (login username password net) w =
    Ok (failure (JStr INVALID_RESPONSE)) ∧
  getItem USER_KEY (storage (run_state (login username password net) w)) =
    getItem USER_KEY (storage w).
Proof.
  intros Hnet Hdata Hfield Htoken.
  assert (checked "token" (resp_data response) = None) as Hc.
  { apply checked_None. rewrite Hdata. unfold has_truthy. simpl.
    by rewrite Hfield, truthy_Some, Htoken. }
  destruct (login_by_spec username password net w
              (failure (JStr INVALID_RESPONSE)) (storage w)) as [-> ->]; [|done].
  unfold login_spec. by rewrite Hnet, Hc.
Qed.

(** ** What [login] logs *)

Lemma console_login_catch error (w : world S) :
  console (run_state (login_catch error) w) = console w ++ catch_logs error.
Proof.
  unfold login_catch, catch_logs, run_state, bind.
  destruct (err_response error) as [response|]; simpl; [|done].
  destruct (truthy_prop "message" (resp_data response)); simpl;
    by rewrite <- !(assoc_L (++)).
Qed.

Lemma console_login_resume username o (w : world S) :
  console (run_state (login_resume o) w) =
    console w ++ tail (login_logs username o (storage w)).
Proof.
  unfold run_state, login_resume, try_catch, login_logs.
  destruct o as [response|e]; [rewrite run_login_try|]; simpl.
  - destruct (checked "token" (resp_data response)) as [data|]; simpl;
      [|by rewrite <- (assoc_L (++))].
    destruct (setItem _ _ _) as [s'|e]; simpl; [done|].
    fold (run_state (login_catch e) (World (storage w)
      (console w ++
       [ConsoleEntry LevelLog [CStr "Login response:"; CResponse response]]))).
    rewrite console_login_catch. simpl. by rewrite <- (assoc_L (++)).
  - apply console_login_catch.
Qed.

(** C25: the console after [login] is the console before it followed
    by the lines of [login_logs]: the attempt with the user name, the
    whole reply when there is one (its body and so the token included),
    and the lines of the [catch] block when the request or the write
    failed. *)
Theorem login_console username password net (w : world S) :
  console (run_state (login username password net) w) =
    console w ++
    login_logs username (net (login_request username password)) (storage w).
Proof.
  replace (run_state (login username password net) w) with
    (run_state (login_resume (net (login_request username password)))
       (World (storage w)
          (console w ++
           [ConsoleEntry LevelLog
              [CStr "Attempting login for user:"; CStr username]])))
    by (unfold run_state; by rewrite run_login).
  rewrite (console_login_resume username). simpl.
  by rewrite <- (assoc_L (++)).
Qed.

(** C4: the promise [login] returns is never rejected: whatever
    the network and the store do, [login] ends with a value. *)
Theorem login_never_throws username password net :
  no_throw (login username password net : js S json).
Proof.
  intros w. eexists. eapply login_by_spec, surjective_pairing.
Qed.

(** The contract has two ways out: the body is accepted and stored, or a
    failure object is returned and the store is left. *)
Lemma login_spec_cases o (s : S) :
  (∃ response data s',
     o = Ok response ∧ resp_data response = Some data ∧
     has_truthy "token" (Some data) = true ∧
     setItem USER_KEY (JSON_stringify data) s = Ok s' ∧
     login_spec o s = (data, s')) ∨
  (∃ message, login_spec o s = (failure message, s)).
Proof.
  unfold login_spec. destruct o as [response|error]; [|eauto].
  destruct (checked "token" (resp_data response)) as [data|] eqn:Hc; [|eauto].
  destruct (setItem _ _ _) as [s'|error] eqn:Hset; [left|eauto].
  apply checked_Some in Hc as [Hdata Htoken]. rewrite Hdata in Htoken.
  eauto 10.
Qed.

(** Every failure of [login] has a message that is truthy. *)
Lemma resolve_message_truthy error : json_truthy (resolve_message error) = true.
Proof.
  unfold resolve_message.
  destruct (err_response error ≫= _) as [message|] eqn:Hm.
  - destruct (err_response error) as [response|]; [simpl in Hm|done].
    by eapply truthy_prop_truthy.
  - by apply js_or_truthy.
Qed.

Lemma login_spec_failure o (s : S) message :
  login_spec o s = (failure message, s) → json_truthy message = true.
Proof.
  unfold login_spec. destruct o as [response|error].
  - destruct (checked "token" (resp_data response)) as [data|] eqn:Hc.
    + destruct (setItem _ _ _) as [s'|error]; intros [= Hv].
      * apply checked_Some in Hc as [Hdata Htoken]. rewrite Hdata in Htoken.
        by subst.
      * subst. apply resolve_message_truthy.
    + by intros [= <-].
  - intros [= <-]. apply resolve_message_truthy.
Qed.

Lemma login_spec_accept response data (s s' : S) :
  resp_data response = Some data → has_truthy "token" (Some data) = true →
  setItem USER_KEY (JSON_stringify data) s = Ok s' →
  login_spec (Ok response) s = (data, s').
Proof.
  intros Hdata Htoken Hset. unfold login_spec, checked.
  by rewrite Hdata, Htoken, Hset.
Qed.

(** C20: [login] resolves to a value of one of two
    shapes, told apart by the token: the body of the reply, which has a
    truthy [token] and is then what the key ['user'] holds; or a failure
    object [{ success: false, message }] whose message is truthy (never
    missing or empty), with the store as it was. *)
Theorem login_result_type username password net (w : world S) :
  ∃ v, run_value (login username password net) w = Ok v ∧
    let s' := storage (run_state (login username password net) w) in
    (has_truthy "token" (Some v) = true ∧
     getItem USER_KEY s' = Some (JSON_stringify v)) ∨
    (∃ message, v = failure message ∧ json_truthy message = true ∧
                has_truthy "token" (Some v) = false ∧ s' = storage w).
Proof.
  destruct (login_by_spec username password net w _ _ (surjective_pairing _))
    as [Hv Hs].
  eexists; split; [exact Hv|]. simpl. rewrite Hs.
  destruct (login_spec_cases (net (login_request username password)) (storage w))
    as [(response & data & s' & _ & _ & Htoken & Hset & ->)|[m Hspec]].
  - left. simpl. eauto using getItem_setItem.
  - right. rewrite Hspec. simpl. exists m.
    split_and!; [done|by eapply login_spec_failure|done|done].
Qed.

Lemma login_spec_same_except o (s : S) k :
  k ≠ USER_KEY → getItem k (login_spec o s).2 = getItem k s.
Proof.
  intros Hk. unfold login_spec. destruct o as [response|error]; [|done].
  destruct (checked "token" (resp_data response)) as [data|]; [|done].
  destruct (setItem _ _ _) as [s'|error] eqn:Hset; [|done].
  simpl. eapply getItem_setItem_ne; [|done]. congruence.
Qed.

(** C21: [login] writes no key of the store but ['user']. *)
Theorem login_touches_only_user_key username password net :
  preserves (same_except USER_KEY) (login username password net : js S json).
Proof.
  intros w k Hk.
  destruct (login_by_spec username password net w _ _ (surjective_pairing _))
    as [_ ->].
  by apply login_spec_same_except.
Qed.

(** ** [logout] *)

Lemma run_logout (w : world S) :
  logout w = (Ok tt, World (removeItem USER_KEY (storage w)) (console w)).
Proof. reflexivity. Qed.

(** C32: [logout] removes the key ['user'], whether it was there or
    not, leaves every other key, logs nothing and cannot throw. *)
Theorem logout_clears_session (w : world S) :
  run_value logout w = Ok tt ∧
  getItem USER_KEY (storage (run_state logout w)) = None ∧
  same_except USER_KEY w (run_state logout w) ∧
  console (run_state logout w) = console w.
Proof.
  split_and!; [done| apply getItem_removeItem | | done].
  apply removeItem_same_except.
Qed.

(** ** [getCurrentUser] *)

Lemma run_getCurrentUser (w : world S) :
  getCurrentUser w =
  (JSON_parse (default "null" (getItem USER_KEY (storage w))), w).
Proof.
  unfold getCurrentUser, bind, JSON_parse_item. simpl.
  by destruct (JSON_parse _).
Qed.

(** With no session stored, [getCurrentUser] returns [null]:
    [getItem] gives [null], which [JSON.parse] reads as the text [null]. *)
Lemma getCurrentUser_missing (w : world S) :
  getItem USER_KEY (storage w) = None →
  run_value getCurrentUser w = Ok JNull.
Proof.
  intros Hk. unfold run_value. rewrite run_getCurrentUser, Hk. simpl.
  apply JSON_parse_null.
Qed.

(** [getCurrentUser] returns the value whose serialised form
    the key ['user'] holds, and changes nothing. *)
Lemma getCurrentUser_stored (w : world S) v :
  json_wf v = true →
  getItem USER_KEY (storage w) = Some (JSON_stringify v) →
  getCurrentUser w = (Ok v, w).
Proof.
  intros Hwf Hk. rewrite run_getCurrentUser, Hk. simpl.
  by rewrite JSON_parse_stringify.
Qed.

(** C28: [getCurrentUser] does not guard [JSON.parse]: when the
    key holds a text that is not JSON, the [SyntaxError] reaches the
    caller. *)
Theorem getCurrentUser_malformed (w : world S) text error :
  getItem USER_KEY (storage w) = Some text →
  JSON_parse text = Throw error →
  getCurrentUser w = (Throw error, w).
Proof. intros Hk Hp. by rewrite run_getCurrentUser, Hk; simpl; rewrite Hp. Qed.

(** C16: after [logout], [getCurrentUser] returns [null],
    whatever was stored before. *)
Theorem logout_then_getCurrentUser (w : world S) :
  run_value (logout ;; getCurrentUser) w = Ok JNull.
Proof.
  unfold run_value. rewrite (bind_run_Ok _ _ _ _ _ (run_logout w)).
  rewrite run_getCurrentUser. simpl. rewrite getItem_removeItem.
  apply JSON_parse_null.
Qed.

(** C3: after a [login] that succeeds with a well-formed body,
    [getCurrentUser] returns that body: the session survives the trip
    through [JSON.stringify], the store and [JSON.parse]. *)
Theorem login_then_getCurrentUser username password net (w : world S)
    response data s' :
  net (login_request username password) = Ok response →
  resp_data response = Some data →
  has_truthy "token" (resp_data response) = true →
  json_wf data = true →
  setItem USER_KEY (JSON_stringify data) (storage w) = Ok s' →
  run_value (login username password net ;; getCurrentUser) w = Ok data.
Proof.
  intros Hnet Hdata Htoken Hwf Hset.
  destruct (login_by_spec username password net w data s') as [Hv Hs].
  { unfold login_spec. by rewrite Hnet, (proj2 (checked_Some _ _ data)), Hset. }
  unfold run_value, run_state in *.
  destruct (login username password net w) as [r w'] eqn:Hrun.
  simpl in Hv, Hs. subst r s'.
  rewrite (bind_run_Ok _ _ _ _ _ Hrun), run_getCurrentUser.
  rewrite (getItem_setItem _ _ _ _ Hset). simpl.
  by rewrite JSON_parse_stringify.
Qed.

(** C19: a [login] that fails does not end
    the session that was there: when the store holds a session and
    [login] resolves to a value without a truthy token (a failure
    object), the [getCurrentUser] that follows still returns the old
    session. *)
Theorem failed_login_keeps_session username password net (w : world S) old v :
  json_wf old = true →
  getItem USER_KEY (storage w) = Some (JSON_stringify old) →
  run_value (login username password net) w = Ok v →
  has_truthy "token" (Some v) = false →
  run_value (login username password net ;; getCurrentUser) w = Ok old.
Proof.
  intros Hwf Hold Hrun Hv.
  destruct (login_by_spec username password net w _ _ (surjective_pairing _))
    as [Hv' Hs].
  rewrite Hrun in Hv'. injection Hv' as Hv'.
  destruct (login_spec_cases (net (login_request username password)) (storage w))
    as [(response & data & s' & _ & _ & Htoken & _ & Hspec)|[m Hspec]];
    rewrite Hspec in Hv', Hs; simpl in Hv', Hs; [congruence|].
  unfold run_value, run_state in *.
  destruct (login username password net w) as [r w'] eqn:Hlogin.
  simpl in Hrun, Hs. subst r.
  rewrite (bind_run_Ok _ _ _ _ _ Hlogin).
  rewrite (getCurrentUser_stored w' old Hwf); [done|by rewrite Hs].
Qed.

(** ** [register] *)

Lemma run_register_start username email password role (w : world S) :
  register_start username email password role w =
  (Ok (register_request username email password role),
   World (storage w)
     (console w ++
      [ConsoleEntry LevelLog
         [CStr "Registering new user:"; CStr username;
          CStr "with role:"; CStr role]])).
Proof. reflexivity. Qed.

(** Once the request has settled, the promise of [register] settles the
    same way, and the store is untouched. *)
Lemma register_resume_spec o (w : world S) :
  run_value (register_resume o) w = o ∧
  storage (run_state (register_resume o) w) = storage w.
Proof. by destruct o. Qed.

(** C11: [register] hands on what the request settles to: the
    reply when it succeeds and the very error when it fails, without
    turning the error into a value; it never touches the store. *)
Theorem register_passes_through username email password role net (w : world S) :
  run_value (register username email password role net) w =
    net (register_request username email password role) ∧
  storage (run_state (register username email password role net) w) =
    storage w.
Proof.
  unfold run_value, run_state, register.
  rewrite (bind_run_Ok _ _ _ _ _ (run_register_start _ _ _ _ w)).
  apply (register_resume_spec _ (World _ _)).
Qed.

Lemma console_register_resume o (w : world S) :
  console (run_state (register_resume o) w) =
    console w ++
    [match o with
     | Ok response =>
         ConsoleEntry LevelLog
           [CStr "Registration successful:"; CVal (resp_data response)]
     | Throw error =>
         ConsoleEntry LevelError [CStr "Registration error:"; CError error]
     end].
Proof. by destruct o. Qed.

(** C26: the console after [register] is the console
    before it followed by the two lines of [register_logs]: the call with
    the user name and the role, then the body of the reply or the error.
    Neither the password nor the address is written by [register]
    itself. *)
Theorem register_console username email password role net (w : world S) :
  console (run_state (register username email password role net) w) =
    console w ++
    register_logs username role
      (net (register_request username email password role)).
Proof.
  replace (run_state (register username email password role net) w) with
    (run_state
       (register_resume (net (register_request username email password role)))
       (World (storage w)
          (console w ++
           [ConsoleEntry LevelLog
              [CStr "Registering new user:"; CStr username;
               CStr "with role:"; CStr role]])))
    by reflexivity.
  rewrite console_register_resume. simpl. by rewrite <- (assoc_L (++)).
Qed.

(** ** What each piece leaves alone

    The pieces of the methods that run between two awaits, for the
    transition system of [Session]: all of them only add to the console,
    and only [login_resume] and [logout] write the store, under
    ['user']. *)

Lemma login_start_same_storage username password :
  preserves same_storage (login_start username password : js S _).
Proof. preserves_tac. Qed.

Lemma login_start_grows username password :
  preserves console_grows (login_start username password : js S _).
Proof. preserves_tac. Qed.

Lemma login_resume_same_except o :
  preserves (same_except USER_KEY) (login_resume o : js S _).
Proof. unfold login_resume, login_try, login_catch. preserves_tac. Qed.

Lemma login_resume_grows o :
  preserves console_grows (login_resume o : js S _).
Proof. unfold login_resume, login_try, login_catch. preserves_tac. Qed.

Lemma logout_same_except :
  preserves (same_except USER_KEY) (logout : js S _).
Proof. preserves_tac. Qed.

Lemma logout_grows : preserves console_grows (logout : js S _).
Proof. preserves_tac. Qed.

Lemma register_start_same_storage username email password role :
  preserves same_storage
    (register_start username email password role : js S _).
Proof. preserves_tac. Qed.

Lemma register_start_grows username email password role :
  preserves console_grows
    (register_start username email password role : js S _).
Proof. preserves_tac. Qed.

Lemma register_resume_same_storage o :
  preserves same_storage (register_resume o : js S _).
Proof. unfold register_resume, register_then, register_catch. preserves_tac. Qed.

Lemma register_resume_grows o :
  preserves console_grows (register_resume o : js S _).
Proof. unfold register_resume, register_then, register_catch. preserves_tac. Qed.

Lemma getCurrentUser_same_storage :
  preserves same_storage (getCurrentUser : js S _).
Proof. unfold getCurrentUser, JSON_parse_item. preserves_tac. Qed.

Lemma getCurrentUser_grows : preserves console_grows (getCurrentUser : js S _).
Proof. unfold getCurrentUser, JSON_parse_item. preserves_tac. Qed.

(** ** What each piece reads

    No piece reads the console: what it returns and what it stores is a
    function of the store. *)

#[export] Instance login_start_respects username password :
  Respects same_storage (login_start username password : js S _).
Proof. unfold login_start. respects_tac. Qed.

#[export] Instance login_resume_respects o :
  Respects same_storage (login_resume o : js S _).
Proof. unfold login_resume, login_try, login_catch. respects_tac. Qed.

#[export] Instance login_respects username password net :
  Respects same_storage (login username password net : js S _).
Proof. unfold login. respects_tac. Qed.

#[export] Instance logout_respects : Respects same_storage (logout : js S _).
Proof. apply _. Qed.

#[export] Instance register_start_respects username email password role :
  Respects same_storage (register_start username email password role : js S _).
Proof. unfold register_start. respects_tac. Qed.

#[export] Instance register_resume_respects o :
  Respects same_storage (register_resume o : js S _).
Proof.
  unfold register_resume, register_then, register_catch. respects_tac.
Qed.

#[export] Instance getCurrentUser_respects :
  Respects same_storage (getCurrentUser : js S _).
Proof. unfold getCurrentUser. respects_tac. Qed.

End methods.

(** ** The theorems at concrete inputs

    The store is the [gmap] of [Storage] and the codec the text format of
    [JsonText]. *)

Definition demo_world : world local_storage := World (empty_storage None) [].

(** A store with room for five code units. *)
Definition full_world : world local_storage :=
  World (empty_storage (Some 5)) [].

(** A store whose session is not JSON. *)
Definition broken_world : world local_storage :=
  World (LocalStorage {[USER_KEY := "{"]} None) [].

Definition demo_session : json :=
  JObj [("token", JStr "abc"); ("id", JNum 42); ("roles", JArr [JStr "STAFF"])].

Definition reply_ok : http_response := HttpResponse 200 (Some demo_session).

Definition reply_no_token : http_response :=
  HttpResponse 200 (Some (JObj [("id", JNum 42)])).

Definition reply_empty_token : http_response :=
  HttpResponse 200 (Some (JObj [("token", JStr ""); ("id", JNum 42)])).

Definition reply_401 : http_response :=
  HttpResponse 401 (Some (JObj [("message", JStr "bad creds")])).

Definition error_401 : js_error :=
  JsError "AxiosError" (Some (JStr "Request failed with status code 401"))
    (Some reply_401).

Definition error_network : js_error :=
  JsError "AxiosError" (Some (JStr "Network Error")) None.

(** The network that answers the login request with [o] and fails every
    other request. *)
Definition net_login (o : outcome) : network :=
  λ request, if decide (req_url request = API_URL +:+ "login") then o
             else Throw error_network.


Lemma login_success_witness :
  let net := net_login (Ok reply_ok) in
  let s' := LocalStorage {[USER_KEY := stringify demo_session]} None in
  (net (login_request "bob" "secret") = Ok reply_ok ∧
   resp_data reply_ok = Some demo_session ∧
   has_truthy "token" (resp_data reply_ok) = true ∧
   setItem USER_KEY (JSON_stringify demo_session) (storage demo_world) = Ok s') ∧
  (run_value (login "bob" "secret" net) demo_world = Ok demo_session ∧
   storage (run_state (login "bob" "secret" net) demo_world) = s' ∧
   getItem USER_KEY s' = Some (JSON_stringify demo_session)).
Proof.
  intros net s'.
  assert (net (login_request "bob" "secret") = Ok reply_ok) as H1 by by_eval.
  assert (resp_data reply_ok = Some demo_session) as H2 by by_eval.
  assert (has_truthy "token" (resp_data reply_ok) = true) as H3 by by_eval.
  assert (setItem USER_KEY (JSON_stringify demo_session) (storage demo_world)
          = Ok s') as H4 by by_eval.
  split; [repeat split; assumption|].
  exact (login_success "bob" "secret" net demo_world reply_ok demo_session s'
           H1 H2 H3 H4).
Defined.

Lemma login_invalid_response_witness :
  let net := net_login (Ok reply_no_token) in
  (net (login_request "bob" "secret") = Ok reply_no_token ∧
   has_truthy "token" (resp_data reply_no_token) = false) ∧
  (run_value (login "bob" "secret" net) demo_world =
     Ok (failure (JStr INVALID_RESPONSE)) ∧
   storage (run_state (login "bob" "secret" net) demo_world) =
     storage demo_world).
Proof.
  intros net.
  assert (net (login_request "bob" "secret") = Ok reply_no_token) as H1
    by by_eval.
  assert (has_truthy "token" (resp_data reply_no_token) = false) as H2
    by by_eval.
  split; [repeat split; assumption|].
  exact (login_invalid_response "bob" "secret" net demo_world reply_no_token
           H1 H2).
Defined.

Lemma login_error_body_message_witness :
  let net := net_login (Throw error_401) in
  (net (login_request "bob" "wrong") = Throw error_401 ∧
   err_response error_401 = Some reply_401 ∧
   truthy_prop "message" (resp_data reply_401) = Some (JStr "bad creds")) ∧
  (run_value (login "bob" "wrong" net) demo_world =
     Ok (failure (JStr "bad creds")) ∧
   storage (run_state (login "bob" "wrong" net) demo_world) =
     storage demo_world).
Proof.
  intros net.
  assert (net (login_request "bob" "wrong") = Throw error_401) as H1 by by_eval.
  assert (err_response error_401 = Some reply_401) as H2 by by_eval.
  assert (truthy_prop "message" (resp_data reply_401) = Some (JStr "bad creds"))
    as H3 by by_eval.
  split; [repeat split; assumption|].
  exact (login_error_body_message "bob" "wrong" net demo_world error_401
           reply_401 (JStr "bad creds") H1 H2 H3).
Defined.

Lemma login_error_fallback_witness :
  let net := net_login (Throw error_network) in
  (net (login_request "bob" "secret") = Throw error_network ∧
   (∀ response, err_response error_network = Some response →
      has_truthy "message" (resp_data response) = false)) ∧
  (run_value (login "bob" "secret" net) demo_world =
     Ok (failure (JStr "Network Error")) ∧
   storage (run_state (login "bob" "secret" net) demo_world) =
     storage demo_world).
Proof.
  intros net.
  assert (net (login_request "bob" "secret") = Throw error_network) as H1
    by by_eval.
  assert (∀ response, err_response error_network = Some response →
            has_truthy "message" (resp_data response) = false) as H2
    by (intros response H; discriminate H).
  split; [split; assumption|].
  exact (login_error_fallback "bob" "secret" net demo_world error_network
           H1 H2).
Defined.

Lemma login_storage_failure_witness :
  let net := net_login (Ok reply_ok) in
  (net (login_request "bob" "secret") = Ok reply_ok ∧
   checked "token" (resp_data reply_ok) = Some demo_session ∧
   setItem USER_KEY (JSON_stringify demo_session) (storage full_world) =
     Throw QuotaExceededError) ∧
  (run_value (login "bob" "secret" net) full_world =
     Ok (failure (resolve_message QuotaExceededError)) ∧
   storage (run_state (login "bob" "secret" net) full_world) =
     storage full_world).
Proof.
  intros net.
  assert (net (login_request "bob" "secret") = Ok reply_ok) as H1 by by_eval.
  assert (checked "token" (resp_data reply_ok) = Some demo_session) as H2
    by by_eval.
  assert (setItem USER_KEY (JSON_stringify demo_session) (storage full_world) =
          Throw QuotaExceededError) as H3 by by_eval.
  split; [repeat split; assumption|].
  exact (login_storage_failure "bob" "secret" net full_world reply_ok
           demo_session QuotaExceededError H1 H2 H3).
Defined.

Lemma login_falsy_token_rejected_witness :
  let net := net_login (Ok reply_empty_token) in
  let fields := [("token", JStr ""); ("id", JNum 42)] in
  (net (login_request "bob" "secret") = Ok reply_empty_token ∧
   resp_data reply_empty_token = Some (JObj fields) ∧
   get_field "token" fields = Some (JStr "") ∧
   json_truthy (JStr "") = false) ∧
  (run_value (login "bob" "secret" net) demo_world =
     Ok (failure (JStr INVALID_RESPONSE)) ∧
   getItem USER_KEY (storage (run_state (login "bob" "secret" net) demo_world)) =
     getItem USER_KEY (storage demo_world)).
Proof.
  intros net fields.
  assert (net (login_request "bob" "secret") = Ok reply_empty_token) as H1
    by by_eval.
  assert (resp_data reply_empty_token = Some (JObj fields)) as H2 by by_eval.
  assert (get_field "token" fields = Some (JStr "")) as H3 by by_eval.
  assert (json_truthy (JStr "") = false) as H4 by by_eval.
  split; [repeat split; assumption|].
  exact (login_falsy_token_rejected "bob" "secret" net demo_world
           reply_empty_token fields (JStr "") H1 H2 H3 H4).
Defined.

Lemma getCurrentUser_malformed_witness :
  (getItem USER_KEY (storage broken_world) = Some "{" ∧
   JSON_parse "{" = Throw SyntaxError) ∧
  getCurrentUser broken_world = (Throw SyntaxError, broken_world).
Proof.
  assert (getItem USER_KEY (storage broken_world) = Some "{") as H1 by by_eval.
  assert (JSON_parse "{" = Throw SyntaxError) as H2 by by_eval.
  split; [split; assumption|].
  exact (getCurrentUser_malformed broken_world "{" SyntaxError H1 H2).
Defined.

Lemma login_then_getCurrentUser_witness :
  let net := net_login (Ok reply_ok) in
  let s' := LocalStorage {[USER_KEY := stringify demo_session]} None in
  (net (login_request "bob" "secret") = Ok reply_ok ∧
   resp_data reply_ok = Some demo_session ∧
   has_truthy "token" (resp_data reply_ok) = true ∧
   json_wf demo_session = true ∧
   setItem USER_KEY (JSON_stringify demo_session) (storage demo_world) = Ok s') ∧
  run_value (login "bob" "secret" net ;; getCurrentUser) demo_world =
    Ok demo_session.
Proof.
  intros net s'.
  assert (net (login_request "bob" "secret") = Ok reply_ok) as H1 by by_eval.
  assert (resp_data reply_ok = Some demo_session) as H2 by by_eval.
  assert (has_truthy "token" (resp_data reply_ok) = true) as H3 by by_eval.
  assert (json_wf demo_session = true) as H4 by by_eval.
  assert (setItem USER_KEY (JSON_stringify demo_session) (storage demo_world)
          = Ok s') as H5 by by_eval.
  split; [repeat split; assumption|].
  exact (login_then_getCurrentUser "bob" "secret" net demo_world reply_ok
           demo_session s' H1 H2 H3 H4 H5).
Defined.

(** A store that holds the session [demo_session]. *)
Definition stored_world : world local_storage :=
  World (LocalStorage {[USER_KEY := stringify demo_session]} None) [].

Lemma failed_login_keeps_session_witness :
  let net := net_login (Throw error_401) in
  (json_wf demo_session = true ∧
   getItem USER_KEY (storage stored_world) = Some (JSON_stringify demo_session) ∧
   run_value (login "eve" "wrong" net) stored_world =
     Ok (failure (JStr "bad creds")) ∧
   has_truthy "token" (Some (failure (JStr "bad creds"))) = false) ∧
  run_value (login "eve" "wrong" net ;; getCurrentUser) stored_world =
    Ok demo_session.
Proof.
  intros net.
  assert (json_wf demo_session = true) as H1 by by_eval.
  assert (getItem USER_KEY (storage stored_world) =
          Some (JSON_stringify demo_session)) as H2 by by_eval.
  assert (run_value (login "eve" "wrong" net) stored_world =
          Ok (failure (JStr "bad creds"))) as H3 by by_eval.
  assert (has_truthy "token" (Some (failure (JStr "bad creds"))) = false) as H4
    by by_eval.
  split; [repeat split; assumption|].
  exact (failed_login_keeps_session "eve" "wrong" net stored_world demo_session
           (failure (JStr "bad creds")) H1 H2 H3 H4).
Defined.

(** ** The service in the browser

    With the store of [Storage] and the text format of [JsonText] in
    place of the interfaces, nothing is assumed of the platform. *)

(** C5: in a browser whose store has no quota, a login that is
    answered with a well-formed body with a truthy token writes the
    JSON text of the body under ['user'], over what was there, and the
    [getCurrentUser] that follows parses that text back to the body. *)
Theorem browser_login_roundtrip username password net (w : world local_storage)
    response data :
  quota (storage w) = None →
  net (login_request username password) = Ok response →
  resp_data response = Some data →
  has_truthy "token" (Some data) = true →
  json_wf data = true →
  run_value (login username password net ;; getCurrentUser) w = Ok data ∧
  items (storage (run_state (login username password net) w)) =
    <[USER_KEY := stringify data]> (items (storage w)).
Proof.
  intros Hq Hnet Hdata Htoken Hwf.
  pose proof (ls_setItem_unbounded USER_KEY (stringify data) _ Hq) as Hset.
  destruct (login_by_spec username password net w data
              (LocalStorage (<[USER_KEY := stringify data]> (items (storage w)))
                 None)) as [Hv Hs].
  { rewrite Hnet. by apply login_spec_accept. }
  unfold run_value, run_state in *.
  destruct (login username password net w) as [r w'] eqn:Hrun.
  cbn [fst snd] in *. subst r. rewrite Hs. split; [|done].
  rewrite (bind_run_Ok _ _ _ _ _ Hrun), run_getCurrentUser, Hs. simpl.
  unfold ls_getItem. simpl. rewrite lookup_insert_eq. simpl.
  by rewrite parse_stringify.
Qed.

Lemma browser_login_roundtrip_witness :
  let net := net_login (Ok reply_ok) in
  (quota (storage demo_world) = None ∧
   net (login_request "bob" "secret") = Ok reply_ok ∧
   resp_data reply_ok = Some demo_session ∧
   has_truthy "token" (Some demo_session) = true ∧
   json_wf demo_session = true) ∧
  run_value (login "bob" "secret" net ;; getCurrentUser) demo_world =
    Ok demo_session ∧
  items (storage (run_state (login "bob" "secret" net) demo_world)) =
    <[USER_KEY := stringify demo_session]> (items (storage demo_world)).
Proof.
  intros net.
  assert (quota (storage demo_world) = None) as H1 by by_eval.
  assert (net (login_request "bob" "secret") = Ok reply_ok) as H2 by by_eval.
  assert (resp_data reply_ok = Some demo_session) as H3 by by_eval.
  assert (has_truthy "token" (Some demo_session) = true) as H4 by by_eval.
  assert (json_wf demo_session = true) as H5 by by_eval.
  split; [repeat split; assumption|].
  exact (browser_login_roundtrip "bob" "secret" net demo_world reply_ok
           demo_session H1 H2 H3 H4 H5).
Defined.


