(* ===== verification/Session.v ===== *)
(** * Calls that interleave

    JavaScript runs one piece of code at a time, and an [async] method
    gives way at its [await]: between the call of [login] and the moment
    its request settles, other calls run, and several requests can be in
    flight.  This file models that as a transition system.  A state is
    the world together with the requests in flight; a command is a call
    of one of the four methods, or the settling of a request in flight
    with an outcome the environment chooses; each step runs the piece of
    [AuthService] that JavaScript would run, and has an output, the
    value the caller observes.

    [exec] is the executable form of the step relation [step].  The
    abstract machine [astep] is what the specification promises of the
    persisted session: one optional session record, set by a login that
    is accepted, cleared by logout, read by getCurrentUser.  The service
    refines it ([steps_simulation]). *)

From stdpp Require Import base option list strings gmap.
From Stdlib Require Import ZArith.
From S2P Require Import Prelude Json Http Platform Storage JsonText AuthService.

(** A request in flight, with the method that waits for it. *)
Inductive task : Type :=
| LoginTask (request : http_request)
| RegisterTask (request : http_request).

Inductive command : Type :=
| CLogin (username password : string)
| CRegister (username email password role : string)
| CLogout
| CGetCurrentUser
| CSettle (i : nat) (o : outcome).

(** What the caller observes of a step. *)
Inductive output : Type :=
| OSent (request : http_request)
| OLogin (v : json)
| ORegister (o : outcome)
| OLogout
| OUser (r : result js_error json).

Record system (S : Type) : Type := System {
  sys_world : world S;
  sys_tasks : list task;
}.

Arguments System {S} sys_world sys_tasks.
Arguments sys_world {S} s.
Arguments sys_tasks {S} s.

(** The outcomes the environment may give: the body of a reply is a
    well-formed value, as parsed by axios. *)
Definition command_wf (c : command) : bool :=
  match c with
  | CSettle _ o => outcome_wf o
  | _ => true
  end.

(** A session record: a well-formed value with a truthy [token]. *)
Definition session_record (data : json) : Prop :=
  json_wf data = true ∧ has_truthy "token" (Some data) = true.

(** ** The abstract machine: the persisted session *)

Inductive astep : option json → command → output → option json → Prop :=
| astep_login a username password :
    astep a (CLogin username password)
      (OSent (login_request username password)) a
| astep_register a username email password role :
    astep a (CRegister username email password role)
      (OSent (register_request username email password role)) a
| astep_logout a : astep a CLogout OLogout None
| astep_user a : astep a CGetCurrentUser (OUser (Ok (default JNull a))) a
| astep_accept a i response data :
    resp_data response = Some data → session_record data →
    astep a (CSettle i (Ok response)) (OLogin data) (Some data)
| astep_reject a i o message :
    astep a (CSettle i o) (OLogin (failure message)) a
| astep_registered a i o : astep a (CSettle i o) (ORegister o) a.

(** A trace whose outcomes are all ones the environment may give. *)
Definition trace_wf (trace : list (command * output)) : Prop :=
  Forall (λ x, command_wf x.1 = true) trace.

Section session.
Context {S : Type} `{!KVStore S} `{!JsonCodec}.

(** ** The steps of the service *)

Definition exec (c : command) (s : system S) : option (output * system S) :=
  let w := sys_world s in
  let tasks := sys_tasks s in
  match c with
  | CLogin username password =>
      match login_start username password w with
      | (Ok request, w') =>
          Some (OSent request, System w' (tasks ++ [LoginTask request]))
      | (Throw _, _) => None
      end
  | CRegister username email password role =>
      match register_start username email password role w with
      | (Ok request, w') =>
          Some (OSent request, System w' (tasks ++ [RegisterTask request]))
      | (Throw _, _) => None
      end
  | CLogout =>
      match logout w with
      | (Ok _, w') => Some (OLogout, System w' tasks)
      | (Throw _, _) => None
      end
  | CGetCurrentUser =>
      let '(r, w') := getCurrentUser w in Some (OUser r, System w' tasks)
  | CSettle i o =>
      match tasks !! i with
      | Some (LoginTask _) =>
          match login_resume o w with
          | (Ok v, w') => Some (OLogin v, System w' (delete i tasks))
          | (Throw _, _) => None
          end
      | Some (RegisterTask _) =>
          let '(r, w') := register_resume o w in
          Some (ORegister r, System w' (delete i tasks))
      | None => None
      end
  end.

(** The commands [cs] in sequence: the outputs and the final state. *)
Fixpoint run_commands (cs : list command) (s : system S) :
    option (list output * system S) :=
  match cs with
  | [] => Some ([], s)
  | c :: cs' =>
      '(out, s') ← exec c s;
      '(outs, s'') ← run_commands cs' s';
      Some (out :: outs, s'')
  end.

Inductive step : system S → command → output → system S → Prop :=
| step_login w tasks username password request w' :
    login_start username password w = (Ok request, w') →
    step (System w tasks) (CLogin username password) (OSent request)
      (System w' (tasks ++ [LoginTask request]))
| step_register w tasks username email password role request w' :
    register_start username email password role w = (Ok request, w') →
    step (System w tasks) (CRegister username email password role)
      (OSent request) (System w' (tasks ++ [RegisterTask request]))
| step_logout w tasks w' :
    logout w = (Ok tt, w') →
    step (System w tasks) CLogout OLogout (System w' tasks)
| step_user w tasks r w' :
    getCurrentUser w = (r, w') →
    step (System w tasks) CGetCurrentUser (OUser r) (System w' tasks)
| step_settle_login w tasks i request o v w' :
    tasks !! i = Some (LoginTask request) →
    login_resume o w = (Ok v, w') →
    step (System w tasks) (CSettle i o) (OLogin v) (System w' (delete i tasks))
| step_settle_register w tasks i request o r w' :
    tasks !! i = Some (RegisterTask request) →
    register_resume o w = (r, w') →
    step (System w tasks) (CSettle i o) (ORegister r)
      (System w' (delete i tasks)).

(** A sequence of steps, with the commands and outputs along it. *)
Inductive steps : system S → list (command * output) → system S → Prop :=
| steps_nil s : steps s [] s
| steps_cons s c out s' trace s'' :
    step s c out s' → steps s' trace s'' → steps s ((c, out) :: trace) s''.

(** The store holds the session [a]: nothing under ['user'] for [None],
    the serialised record for [Some]. *)
Definition represents (w : world S) (a : option json) : Prop :=
  getItem USER_KEY (storage w) = JSON_stringify <$> a ∧
  ∀ data, a = Some data → session_record data.

(** The persisted session is absent or a serialised session record. *)
Definition session_ok (w : world S) : Prop := ∃ a, represents w a.

End session.

(** A sequence of steps of the abstract machine. *)
Inductive asteps : option json → list (command * output) → option json → Prop :=
| asteps_nil a : asteps a [] a
| asteps_cons a c out a' trace a'' :
    astep a c out a' → asteps a' trace a'' → asteps a ((c, out) :: trace) a''.

Section session_facts.
Context {S : Type} `{!KVStore S} `{!JsonCodec}.
Implicit Types (s : system S) (w : world S) (a : option json).

(** ** The step relation and its executable form *)

Lemma run_login_resume_Ok o w :
  ∃ v w', login_resume o w = (Ok v, w').
Proof.
  destruct (login_resume_spec o w) as [Hv _]. unfold run_value in Hv.
  destruct (login_resume o w) as [r w']. simpl in Hv. subst r. eauto.
Qed.

Lemma exec_sound c s out s' : exec c s = Some (out, s') → step s c out s'.
Proof.
  destruct s as [w tasks]. unfold exec. cbn [sys_world sys_tasks].
  destruct c as [u p|u e p r| | |i o].
  - intros [= <- <-]. by constructor.
  - intros [= <- <-]. by constructor.
  - intros [= <- <-]. by constructor.
  - destruct (getCurrentUser w) as [r w'] eqn:Hrun. intros [= <- <-].
    by constructor.
  - destruct (tasks !! i) as [[request|request]|] eqn:Hi; [| |done].
    + destruct (login_resume o w) as [[v|e] w'] eqn:Hrun; [|done].
      intros [= <- <-]. by econstructor.
    + destruct (register_resume o w) as [r w'] eqn:Hrun. intros [= <- <-].
      by econstructor.
Qed.

Lemma exec_complete c s out s' : step s c out s' → exec c s = Some (out, s').
Proof.
  intros Hstep. destruct Hstep; unfold exec; cbn [sys_world sys_tasks];
    repeat match goal with H : _ = _ |- _ => rewrite H end; done.
Qed.

(** A step is a function of the state and the command. *)
Lemma step_deterministic s c out1 s1 out2 s2 :
  step s c out1 s1 → step s c out2 s2 → out1 = out2 ∧ s1 = s2.
Proof.
  intros H1%exec_complete H2%exec_complete. rewrite H1 in H2. by injection H2.
Qed.

(** Every command can take a step, but the settling of a request that
    is not in flight. *)
Lemma step_enabled_command c s :
  (∀ i o, c = CSettle i o → i < length (sys_tasks s)) →
  ∃ out s', step s c out s'.
Proof.
  intros Hi. destruct s as [w tasks]. destruct c as [u p|u e p r| | |i o].
  - eexists _, _. by constructor.
  - eexists _, _. by constructor.
  - eexists _, _. by constructor.
  - eexists _, _. constructor. apply surjective_pairing.
  - destruct (lookup_lt_is_Some_2 tasks i (Hi i o eq_refl)) as [[req|req] Ht].
    + destruct (run_login_resume_Ok o w) as (v & w' & Hrun).
      eexists _, _. by econstructor.
    + eexists _, _. econstructor; [done|]. apply surjective_pairing.
Qed.

(** C31: no call blocks, no settled request is lost, and nothing is left
    to chance: every command, but the settling of a request that is not
    in flight, takes exactly one step. *)
Theorem step_enabled c s :
  (∀ i o, c = CSettle i o → i < length (sys_tasks s)) →
  (∃ out s', step s c out s') ∧
  ∀ out1 s1 out2 s2, step s c out1 s1 → step s c out2 s2 → out1 = out2 ∧ s1 = s2.
Proof.
  intros Hc. split; [by apply step_enabled_command|].
  intros. by eapply step_deterministic.
Qed.

(** ** What a step does to the persisted session *)

Lemma represents_storage w w' a :
  storage w' = storage w → represents w a → represents w' a.
Proof. unfold represents. by intros ->. Qed.

Lemma represents_logout w a : represents (run_state logout w) None.
Proof. split; [apply getItem_removeItem | done]. Qed.

Lemma represents_getCurrentUser w a :
  represents w a → getCurrentUser w = (Ok (default JNull a), w).
Proof.
  intros [Hk Ha]. rewrite run_getCurrentUser, Hk.
  destruct a as [data|]; simpl; [|by rewrite JSON_parse_null].
  destruct (Ha data eq_refl) as [Hwf _]. by rewrite JSON_parse_stringify.
Qed.

(** A settled login either installs the body of the reply as the session
    or leaves the session as it was. *)
Lemma represents_login_resume o w a v w' :
  outcome_wf o = true → represents w a → login_resume o w = (Ok v, w') →
  (∃ response, o = Ok response ∧ resp_data response = Some v ∧
               session_record v ∧ represents w' (Some v)) ∨
  (∃ message, v = failure message ∧ represents w' a).
Proof.
  intros Hwf Ha Hrun. destruct (login_resume_spec o w) as [Hv Hs].
  unfold run_value, run_state in Hv, Hs. rewrite Hrun in Hv, Hs. simpl in *.
  destruct (login_spec_cases o (storage w))
    as [(response & data & s' & -> & Hdata & Htoken & Hset & Hspec)|[m Hspec]];
    rewrite Hspec in Hv, Hs; simpl in *; injection Hv as ->.
  - left. exists response. unfold outcome_wf, response_wf in Hwf.
    rewrite Hdata in Hwf.
    assert (session_record data) by done.
    split_and!; [done..|]. split; [|by intros ? [= <-]].
    rewrite Hs. simpl. by eapply getItem_setItem.
  - right. exists m. split; [done|]. by apply (represents_storage w).
Qed.

(** From states that hold the same session, a step of the service is a
    step of the abstract machine with the same output, to states that
    hold the same session. *)
Lemma step_astep s c out s' a :
  command_wf c = true → represents (sys_world s) a → step s c out s' →
  ∃ a', astep a c out a' ∧ represents (sys_world s') a'.
Proof.
  intros Hwf Ha Hstep. destruct Hstep as
    [w tasks u p req w' Hrun|w tasks u e p r req w' Hrun|w tasks w' Hrun
    |w tasks r w' Hrun|w tasks i req o v w' Hi Hrun|w tasks i req o r w' Hi Hrun];
    simpl in *.
  - injection Hrun as <- <-. exists a. split; [constructor|done].
  - injection Hrun as <- <-. exists a. split; [constructor|done].
  - injection Hrun as <-. exists None. split; [constructor|].
    apply (represents_logout w a).
  - rewrite (represents_getCurrentUser w a Ha) in Hrun. injection Hrun as <- <-.
    exists a. split; [constructor|done].
  - destruct (represents_login_resume o w a v w' Hwf Ha Hrun)
      as [(response & -> & Hdata & Hrec & Ha')|(m & -> & Ha')].
    + exists (Some v). split; [by constructor|done].
    + exists a. split; [constructor|done].
  - destruct (register_resume_spec o w) as [Hv Hs].
    unfold run_value, run_state in Hv, Hs. rewrite Hrun in Hv, Hs. simpl in *.
    subst r. exists a. split; [constructor|]. by apply (represents_storage w).
Qed.

End session_facts.

Section trace_facts.
Context {S : Type} `{!KVStore S} `{!JsonCodec}.
Implicit Types (s : system S) (w : world S) (a : option json).
Implicit Types (trace : list (command * output)).

(** ** Sequences of steps *)

Lemma steps_app s trace1 s' trace2 s'' :
  steps s trace1 s' → steps s' trace2 s'' → steps s (trace1 ++ trace2) s''.
Proof. induction 1; simpl; [done|]. intros. econstructor; eauto. Qed.

Lemma steps_app_inv s trace1 trace2 s'' :
  steps s (trace1 ++ trace2) s'' →
  ∃ s', steps s trace1 s' ∧ steps s' trace2 s''.
Proof.
  revert s. induction trace1 as [|[c out] trace1 IH]; simpl; intros s Hsteps.
  - exists s. split; [constructor|done].
  - inversion Hsteps as [|? ? ? s1 ? ? Hstep Hrest]; subst.
    destruct (IH _ Hrest) as (s' & H1 & H2).
    exists s'. split; [by econstructor|done].
Qed.

Lemma steps_singleton s c out s' : steps s [(c, out)] s' ↔ step s c out s'.
Proof.
  split.
  - inversion 1 as [|? ? ? ? ? ? Hstep Hrest]; subst. by inversion Hrest; subst.
  - intros. econstructor; [done|constructor].
Qed.

Lemma asteps_app_inv a trace1 trace2 a'' :
  asteps a (trace1 ++ trace2) a'' →
  ∃ a', asteps a trace1 a' ∧ asteps a' trace2 a''.
Proof.
  revert a. induction trace1 as [|[c out] trace1 IH]; simpl; intros a Hsteps.
  - exists a. split; [constructor|done].
  - inversion Hsteps as [|? ? ? a1 ? ? Hstep Hrest]; subst.
    destruct (IH _ Hrest) as (a' & H1 & H2).
    exists a'. split; [by econstructor|done].
Qed.

(** [run_commands] runs the steps of a trace, one command after the
    other. *)
Lemma run_commands_steps cs s outs s' :
  run_commands cs s = Some (outs, s') → steps s (zip cs outs) s'.
Proof.
  revert s outs. induction cs as [|c cs IH]; simpl; intros s outs.
  - intros [= <- <-]. constructor.
  - destruct (exec c s) as [[out s1]|] eqn:Hexec; [simpl|done].
    destruct (run_commands cs s1) as [[outs' s2]|] eqn:Hrun; [simpl|done].
    intros [= <- <-]. simpl. econstructor; [by apply exec_sound|by apply IH].
Qed.

(** C6: the service refines the abstract session machine along every
    trace: if the store holds the session [a], the commands and outputs
    of a sequence of steps of the service are a sequence of steps of the
    machine from [a], and the store holds the session the machine ends
    in. *)
Theorem steps_simulation s trace s' a :
  trace_wf trace → represents (sys_world s) a → steps s trace s' →
  ∃ a', asteps a trace a' ∧ represents (sys_world s') a'.
Proof.
  intros Hwf Ha Hsteps. revert a Hwf Ha.
  induction Hsteps as [s|s c out s1 trace s2 Hstep _ IH]; intros a Hwf Ha.
  - exists a. split; [constructor|done].
  - apply Forall_cons in Hwf as [Hc Hwf].
    destruct (step_astep _ _ _ _ a Hc Ha Hstep) as (a1 & Hastep & Ha1).
    destruct (IH a1 Hwf Ha1) as (a2 & Hasteps & Ha2).
    exists a2. split; [by econstructor|done].
Qed.

(** C14: the persisted session is always absent or a serialised
    session record: every step keeps this, so every state reached from
    a state where it holds has it. *)
Theorem session_ok_invariant s trace s' :
  trace_wf trace → session_ok (sys_world s) → steps s trace s' →
  session_ok (sys_world s').
Proof.
  intros Hwf Hok Hsteps. induction Hsteps as [s|s c out s1 trace s2 Hstep _ IH];
    [done|].
  apply Forall_cons in Hwf as [Hc Hwf]. destruct Hok as [a Ha].
  destruct (step_astep _ _ _ _ a Hc Ha Hstep) as (a1 & _ & Ha1).
  apply IH; [done|by exists a1].
Qed.

(** C15: where the persisted session is absent or a serialised
    session record, [getCurrentUser] does not throw: it returns [null]
    or a session record, and changes nothing. *)
Theorem session_ok_getCurrentUser w :
  session_ok w →
  ∃ v, getCurrentUser w = (Ok v, w) ∧ (v = JNull ∨ session_record v).
Proof.
  intros [a Ha]. exists (default JNull a).
  split; [by apply represents_getCurrentUser|].
  destruct a as [data|]; [right|by left]. by apply Ha.
Qed.

End trace_facts.

Section frame_facts.
Context {S : Type} `{!KVStore S} `{!JsonCodec}.
Implicit Types (s : system S) (w : world S) (a : option json).
Implicit Types (trace : list (command * output)).

(** ** What the steps leave alone *)

Lemma run_state_eq {A} (c : js S A) w r w' : c w = (r, w') → run_state c w = w'.
Proof. unfold run_state. by intros ->. Qed.

Lemma step_frame s c out s' :
  step s c out s' →
  same_except USER_KEY (sys_world s) (sys_world s') ∧
  console_grows (sys_world s) (sys_world s').
Proof.
  destruct 1 as [w ? u p ? ? Hrun|w ? u e p r ? ? Hrun|w ? ? Hrun|w ? ? ? Hrun
                |w ? ? ? o ? ? ? Hrun|w ? ? ? o ? ? ? Hrun];
    apply run_state_eq in Hrun as <-; simpl; split.
  - apply same_storage_same_except, login_start_same_storage.
  - apply login_start_grows.
  - apply same_storage_same_except, register_start_same_storage.
  - apply register_start_grows.
  - apply logout_same_except.
  - apply logout_grows.
  - apply same_storage_same_except, getCurrentUser_same_storage.
  - apply getCurrentUser_grows.
  - apply login_resume_same_except.
  - apply login_resume_grows.
  - apply same_storage_same_except, register_resume_same_storage.
  - apply register_resume_grows.
Qed.

(** C22: no sequence of calls and settled requests writes a key of the
    store but ['user'], and none removes a line from the console. *)
Theorem steps_frame s trace s' :
  steps s trace s' →
  same_except USER_KEY (sys_world s) (sys_world s') ∧
  console_grows (sys_world s) (sys_world s').
Proof.
  induction 1 as [s|s c out s1 trace s2 Hstep _ [IHs IHc]]; [done|].
  destruct (step_frame _ _ _ _ Hstep) as [Hs Hc].
  split; etrans; eauto.
Qed.

(** The writes of a step: none, the removal of ['user'], or one
    [setItem] under ['user'] that the store accepted, of the serialised
    form of the value the settled [login] returns, which has a truthy
    token. *)
Lemma step_writes s c out s' :
  step s c out s' →
  let st := storage (sys_world s) in
  let st' := storage (sys_world s') in
  st' = st ∨ st' = removeItem USER_KEY st ∨
  ∃ data, out = OLogin data ∧ has_truthy "token" (Some data) = true ∧
          setItem USER_KEY (JSON_stringify data) st = Ok st'.
Proof.
  destruct 1 as [w ? u p ? ? Hrun|w ? u e p r ? ? Hrun|w ? ? Hrun|w ? ? ? Hrun
                |w ? ? ? o v ? ? Hrun|w ? ? ? o ? ? ? Hrun];
    intros st st'; subst st st'; cbn [sys_world].
  - left. apply run_state_eq in Hrun as <-. apply login_start_same_storage.
  - left. apply run_state_eq in Hrun as <-. apply register_start_same_storage.
  - right; left. by apply run_state_eq in Hrun as <-.
  - left. apply run_state_eq in Hrun as <-. apply getCurrentUser_same_storage.
  - destruct (login_resume_spec o w) as [Hv Hs].
    unfold run_value, run_state in Hv, Hs. rewrite Hrun in Hv, Hs. simpl in *.
    injection Hv as ->. rewrite Hs.
    destruct (login_spec_cases o (storage w))
      as [(? & data & st' & _ & _ & Htoken & Hset & ->)|[m ->]]; simpl; eauto 10.
  - left. apply run_state_eq in Hrun as <-. apply register_resume_same_storage.
Qed.

End frame_facts.

Section order_facts.
Context {S : Type} `{!KVStore S} `{!JsonCodec}.
Implicit Types (s : system S) (w : world S) (a : option json).
Implicit Types (trace : list (command * output)).

(** ** Calls in rapid succession *)

(** The step of a settled login whose reply is accepted. *)
Lemma step_settle_accept w tasks i request response data st' :
  tasks !! i = Some (LoginTask request) →
  resp_data response = Some data → has_truthy "token" (Some data) = true →
  setItem USER_KEY (JSON_stringify data) (storage w) = Ok st' →
  ∃ w', storage w' = st' ∧
    step (System w tasks) (CSettle i (Ok response)) (OLogin data)
      (System w' (delete i tasks)).
Proof.
  intros Hi Hdata Htoken Hset.
  destruct (run_login_resume_Ok (Ok response) w) as (v & w' & Hrun).
  destruct (login_resume_spec (Ok response) w) as [Hv Hs].
  unfold run_value, run_state in Hv, Hs. rewrite Hrun in Hv, Hs.
  rewrite (login_spec_accept _ _ _ _ Hdata Htoken Hset) in Hv, Hs.
  simpl in *. injection Hv as ->. exists w'. split; [done|by econstructor].
Qed.

(** A settled login that returns a value with a token has stored it. *)
Lemma step_settle_stored s i o data s' :
  step s (CSettle i o) (OLogin data) s' →
  has_truthy "token" (Some data) = true →
  getItem USER_KEY (storage (sys_world s')) = Some (JSON_stringify data) ∧
  ∃ response, o = Ok response ∧ resp_data response = Some data.
Proof.
  inversion 1 as [| | | |w tasks ? request ? ? w' Hi Hrun|]; subst. simpl.
  destruct (login_resume_spec o w) as [Hv Hs].
  unfold run_value, run_state in Hv, Hs. rewrite Hrun in Hv, Hs. simpl in *.
  destruct (login_spec_cases o (storage w))
    as [(response & data' & st' & -> & Hdata & _ & Hset & Hspec)|[m Hspec]];
    rewrite Hspec in Hv, Hs; simpl in *; injection Hv as ->; [|done].
  intros _. rewrite Hs. split; [by eapply getItem_setItem|by eexists].
Qed.

(** C17: [logout] does not cancel a login in flight: when the
    request settles after the logout with a reply that has a token (and
    the store takes the record), the session is back, as the next
    [getCurrentUser] shows. *)
Theorem logout_does_not_cancel s i request response data st' :
  sys_tasks s !! i = Some (LoginTask request) →
  resp_data response = Some data → session_record data →
  setItem USER_KEY (JSON_stringify data)
    (removeItem USER_KEY (storage (sys_world s))) = Ok st' →
  ∃ s', steps s [(CLogout, OLogout);
                 (CSettle i (Ok response), OLogin data);
                 (CGetCurrentUser, OUser (Ok data))] s' ∧
        storage (sys_world s') = st'.
Proof.
  destruct s as [w tasks]. simpl. intros Hi Hdata [Hwf Htoken] Hset.
  destruct (step_settle_accept (run_state logout w) tasks i _ _ _ _
              Hi Hdata Htoken Hset) as (w' & <- & Hstep).
  assert (represents w' (Some data)) as Hw'.
  { split; [by eapply getItem_setItem|by intros ? [= <-]]. }
  exists (System w' (delete i tasks)). split; [|done].
  econstructor; [by constructor|]. econstructor; [done|].
  econstructor; [|constructor].
  constructor. apply (represents_getCurrentUser w' (Some data) Hw').
Qed.

(** C18: whatever happened before, a settled login that returns a
    value with a token has stored that value under ['user'], and the
    value is the body of the reply: the last write wins. *)
Theorem accepted_login_wins s trace i o data s' :
  steps s (trace ++ [(CSettle i o, OLogin data)]) s' →
  has_truthy "token" (Some data) = true →
  getItem USER_KEY (storage (sys_world s')) = Some (JSON_stringify data) ∧
  ∃ response, o = Ok response ∧ resp_data response = Some data.
Proof.
  intros (s1 & _ & Hstep%steps_singleton)%steps_app_inv.
  by apply (step_settle_stored s1 i).
Qed.

(** C30: whatever happened before, a [getCurrentUser] that runs
    right after a [logout] returns [null]. *)
Theorem logout_then_user_any_history s trace out s' :
  steps s (trace ++ [(CLogout, OLogout); (CGetCurrentUser, out)]) s' →
  out = OUser (Ok JNull).
Proof.
  intros (s1 & _ & Hsteps)%steps_app_inv.
  inversion Hsteps as [|? ? ? s2 ? ? Hlogout Hrest]; subst.
  apply steps_singleton in Hrest.
  inversion Hlogout as [| |w tasks w' Hrun| | |]; subst.
  inversion Hrest as [| | |? ? r w'' Hget| |]; subst.
  apply run_state_eq in Hrun as <-.
  rewrite (represents_getCurrentUser _ None (represents_logout w None)) in Hget.
  by injection Hget as <- _.
Qed.

End order_facts.

(** ** The theorems at concrete inputs

    A user logs in, logs out before the request has settled, and the
    request settles with a session; then [getCurrentUser] runs.  The
    store is the [gmap] of [Storage] and the codec the text format of
    [JsonText]. *)

Definition demo_system : system local_storage := System demo_world [].

Definition demo_commands : list command :=
  [CLogin "bob" "secret"; CLogout; CSettle 0 (Ok reply_ok); CGetCurrentUser].

Definition demo_outputs : list output :=
  [OSent (login_request "bob" "secret"); OLogout; OLogin demo_session;
   OUser (Ok demo_session)].

Definition demo_trace : list (command * output) := zip demo_commands demo_outputs.

(** The state the commands end in. *)
Definition demo_final : system local_storage :=
  from_option snd demo_system (run_commands demo_commands demo_system).

(** The state with the request of [login] in flight. *)
Definition pending_system : system local_storage :=
  System demo_world [LoginTask (login_request "bob" "secret")].

(** The state after the first three commands. *)
Definition settled_final : system local_storage :=
  from_option snd demo_system (run_commands (take 3 demo_commands) demo_system).

(** A state with a stored session, and the state after [logout] and
    [getCurrentUser] from it. *)
Definition stored_system : system local_storage := System stored_world [].

Definition logged_out_final : system local_storage :=
  from_option snd stored_system
    (run_commands [CLogout; CGetCurrentUser] stored_system).

Lemma demo_steps : steps demo_system demo_trace demo_final.
Proof. apply run_commands_steps. by_eval. Qed.

Lemma settled_steps :
  steps demo_system
    (take 2 demo_trace ++ [(CSettle 0 (Ok reply_ok), OLogin demo_session)])
    settled_final.
Proof.
  apply (run_commands_steps (take 3 demo_commands) _ (take 3 demo_outputs)).
  by_eval.
Qed.

Lemma logged_out_steps :
  steps stored_system
    ([] ++ [(CLogout, OLogout); (CGetCurrentUser, OUser (Ok JNull))])
    logged_out_final.
Proof.
  apply (run_commands_steps [CLogout; CGetCurrentUser] _
           [OLogout; OUser (Ok JNull)]).
  by_eval.
Qed.

Lemma demo_trace_wf : trace_wf demo_trace.
Proof. repeat constructor. Qed.

Lemma demo_represents : represents demo_world None.
Proof. split; [by_eval|]. by intros data [=]. Qed.

Lemma step_enabled_witness :
  (∀ i o, CSettle 0 (Ok reply_ok) = CSettle i o →
          i < length (sys_tasks pending_system)) ∧
  (∃ out s', step pending_system (CSettle 0 (Ok reply_ok)) out s') ∧
  ∀ out1 s1 out2 s2,
    step pending_system (CSettle 0 (Ok reply_ok)) out1 s1 →
    step pending_system (CSettle 0 (Ok reply_ok)) out2 s2 →
    out1 = out2 ∧ s1 = s2.
Proof.
  assert (∀ i o, CSettle 0 (Ok reply_ok) = CSettle i o →
                 i < length (sys_tasks pending_system)) as H1.
  { intros i o [= <- _]. simpl. lia. }
  split; [assumption|].
  exact (step_enabled (CSettle 0 (Ok reply_ok)) pending_system H1).
Defined.

Lemma steps_simulation_witness :
  (trace_wf demo_trace ∧ represents (sys_world demo_system) None ∧
   steps demo_system demo_trace demo_final) ∧
  ∃ a', asteps None demo_trace a' ∧ represents (sys_world demo_final) a'.
Proof.
  split; [split_and!; [apply demo_trace_wf|apply demo_represents|apply demo_steps]|].
  exact (steps_simulation demo_system demo_trace demo_final None
           demo_trace_wf demo_represents demo_steps).
Defined.

Lemma session_ok_invariant_witness :
  (trace_wf demo_trace ∧ session_ok (sys_world demo_system) ∧
   steps demo_system demo_trace demo_final) ∧
  session_ok (sys_world demo_final).
Proof.
  assert (session_ok (sys_world demo_system)) as H1
    by (exists None; apply demo_represents).
  split; [split_and!; [apply demo_trace_wf|assumption|apply demo_steps]|].
  exact (session_ok_invariant demo_system demo_trace demo_final
           demo_trace_wf H1 demo_steps).
Defined.

Lemma stored_represents : represents stored_world (Some demo_session).
Proof. split; [by_eval|]. intros data [= <-]. split; by_eval. Qed.

Lemma session_ok_getCurrentUser_witness :
  session_ok stored_world ∧
  ∃ v, getCurrentUser stored_world = (Ok v, stored_world) ∧
       (v = JNull ∨ session_record v).
Proof.
  assert (session_ok stored_world) as H1
    by (exists (Some demo_session); apply stored_represents).
  split; [assumption|].
  exact (session_ok_getCurrentUser stored_world H1).
Defined.

Lemma steps_frame_witness :
  steps demo_system demo_trace demo_final ∧
  same_except USER_KEY (sys_world demo_system) (sys_world demo_final) ∧
  console_grows (sys_world demo_system) (sys_world demo_final).
Proof.
  split; [apply demo_steps|].
  exact (steps_frame demo_system demo_trace demo_final demo_steps).
Defined.

Lemma logout_does_not_cancel_witness :
  let st' := LocalStorage {[USER_KEY := stringify demo_session]} None in
  (sys_tasks pending_system !! 0 = Some (LoginTask (login_request "bob" "secret")) ∧
   resp_data reply_ok = Some demo_session ∧ session_record demo_session ∧
   setItem USER_KEY (JSON_stringify demo_session)
     (removeItem USER_KEY (storage (sys_world pending_system))) = Ok st') ∧
  ∃ s', steps pending_system
          [(CLogout, OLogout); (CSettle 0 (Ok reply_ok), OLogin demo_session);
           (CGetCurrentUser, OUser (Ok demo_session))] s' ∧
        storage (sys_world s') = st'.
Proof.
  intros st'.
  assert (sys_tasks pending_system !! 0 =
          Some (LoginTask (login_request "bob" "secret"))) as H1 by by_eval.
  assert (resp_data reply_ok = Some demo_session) as H2 by by_eval.
  assert (session_record demo_session) as H3 by (split; by_eval).
  assert (setItem USER_KEY (JSON_stringify demo_session)
            (removeItem USER_KEY (storage (sys_world pending_system))) = Ok st')
    as H4 by by_eval.
  split; [repeat split; solve [assumption | apply H3]|].
  exact (logout_does_not_cancel pending_system 0 _ reply_ok demo_session st'
           H1 H2 H3 H4).
Defined.

Lemma accepted_login_wins_witness :
  (steps demo_system
     (take 2 demo_trace ++ [(CSettle 0 (Ok reply_ok), OLogin demo_session)])
     settled_final ∧
   has_truthy "token" (Some demo_session) = true) ∧
  getItem USER_KEY (storage (sys_world settled_final)) =
    Some (JSON_stringify demo_session) ∧
  ∃ response, (Ok reply_ok : outcome) = Ok response ∧
              resp_data response = Some demo_session.
Proof.
  assert (has_truthy "token" (Some demo_session) = true) as H1 by by_eval.
  split; [split; [apply settled_steps|assumption]|].
  exact (accepted_login_wins demo_system (take 2 demo_trace) 0 (Ok reply_ok)
           demo_session settled_final settled_steps H1).
Defined.

Lemma logout_then_user_any_history_witness :
  steps stored_system
    ([] ++ [(CLogout, OLogout); (CGetCurrentUser, OUser (Ok JNull))])
    logged_out_final ∧
  OUser (Ok JNull) = OUser (Ok JNull).
Proof.
  split; [apply logged_out_steps|].
  exact (logout_then_user_any_history stored_system [] (OUser (Ok JNull))
           logged_out_final logged_out_steps).
Defined.
