(* ===== verification/Browser.v ===== *)
(** * The service in a browser, against a server

    [Session] leaves open what a request settles to.  Here the requests
    in flight are answered by a [server] through axios: an event is a
    call of one of the four methods or the delivery of the reply to a
    request in flight, and [run_events] runs a sequence of events on the
    transition system of [Session].  Nothing is assumed of the server.

    The theorems: what [login] returns and stores as a function of the
    reply on the wire ([login_over_http]); the invariant of the
    persisted session for every server ([served_session_ok]); and, in
    the store of [Storage], that the service takes the room of one
    session however many logins there are ([steps_storage_bound]), that
    the fixed text of the [catch] block of [login] is returned only when
    the server sends it ([login_fixed_text_from_server]), and that the
    fuel of the parser decides nothing ([getCurrentUser_fuel_free]). *)

From stdpp Require Import base option list strings gmap.
From Stdlib Require Import ZArith Lia.
From S2P Require Import Prelude Json Http Platform Storage JsonText JsonFuel Axios.
From S2P Require Import AuthService Session.

(** What the user and the network do. *)
Inductive event : Type :=
| ELogin (username password : string)
| ERegister (username email password role : string)
| ELogout
| EGetCurrentUser
| EDeliver (i : nat).

Definition task_request (t : task) : http_request :=
  match t with
  | LoginTask request | RegisterTask request => request
  end.

Section browser.
Context {S : Type} `{!KVStore S} `{!JsonCodec}.
Context (srv : server).

(** The failure message of a reply whose status does not validate and
    whose body has no truthy [message]. *)
Definition status_message (status : Z) : json :=
  JStr ("Request failed with status code " +:+ status_text status).

(** [login] as a function of what comes back on the wire and of the
    store. *)
Definition login_http_spec (reply : option wire_reply) (s : S) : json * S :=
  match reply with
  | None => (failure (JStr "Network Error"), s)
  | Some w =>
      let data := transformResponse (wire_body w) in
      if validateStatus (wire_status w) then
        if has_truthy "token" (Some data) then
          match setItem USER_KEY (JSON_stringify data) s with
          | Ok s' => (data, s')
          | Throw e => (failure (resolve_message e), s)
          end
        else (failure (JStr INVALID_RESPONSE), s)
      else
        match truthy_prop "message" (Some data) with
        | Some message => (failure message, s)
        | None => (failure (status_message (wire_status w)), s)
        end
  end.

(** The command of [Session] an event stands for: a delivery settles
    the request of the task with what axios makes of the server's
    reply. *)
Definition command_of (e : event) (s : system S) : option command :=
  match e with
  | ELogin username password => Some (CLogin username password)
  | ERegister username email password role =>
      Some (CRegister username email password role)
  | ELogout => Some CLogout
  | EGetCurrentUser => Some CGetCurrentUser
  | EDeliver i =>
      t ← sys_tasks s !! i;
      Some (CSettle i (axios_post srv (task_request t)))
  end.

Definition run_event (e : event) (s : system S) : option (output * system S) :=
  c ← command_of e s; exec c s.

Fixpoint run_events (es : list event) (s : system S) :
    option (list output * system S) :=
  match es with
  | [] => Some ([], s)
  | e :: es' =>
      '(out, s') ← run_event e s;
      '(outs, s'') ← run_events es' s';
      Some (out :: outs, s'')
  end.

End browser.

Section browser_facts.
Context {S : Type} `{!KVStore S} `{!JsonCodec}.
Context (srv : server).
Implicit Types (s : system S) (w : world S) (e : event).

(** ** [login] over HTTP *)

(** The contract of [login] on what axios makes of a reply is the
    contract on the reply itself. *)
Lemma login_spec_settle reply (st : S) :
  login_spec (settle reply) st = login_http_spec reply st.
Proof.
  unfold login_spec, login_http_spec, settle. destruct reply as [wire|]; [|done].
  destruct (validateStatus _); simpl.
  - unfold checked. by destruct (has_truthy _ _).
  - unfold resolve_message. simpl. by destruct (truthy_prop _ _).
Qed.

(** C12: what [login] resolves to and stores, by the reply on the wire:
    no reply gives the failure [Network Error]; a status from 200 to
    299 gives the parsed body when it has a truthy token, stored under
    ['user'], and the failure for an invalid response otherwise; any
    other status gives the failure with the [message] of the body, or
    with [Request failed with status code n]. *)
Theorem login_over_http username password w :
  let result :=
    login_http_spec (srv (transformRequest (login_request username password)))
      (storage w) in
  run_value (login username password (axios_post srv)) w = Ok result.1 ∧
  storage (run_state (login username password (axios_post srv)) w) = result.2.
Proof.
  intros result. apply login_by_spec. unfold axios_post.
  rewrite login_spec_settle. apply surjective_pairing.
Qed.

(** ** Events *)

Lemma command_of_wf e s c : command_of srv e s = Some c → command_wf c = true.
Proof.
  destruct e; simpl; try by intros [= <-].
  destruct (sys_tasks s !! i); simpl; [|done]. intros [= <-]. apply settle_wf.
Qed.

Lemma run_event_step e s out s' :
  run_event srv e s = Some (out, s') →
  ∃ c, command_wf c = true ∧ step s c out s'.
Proof.
  unfold run_event. destruct (command_of srv e s) as [c|] eqn:Hc; simpl; [|done].
  intros Hexec%exec_sound. exists c. split; [by eapply command_of_wf|done].
Qed.

(** A run of events is a trace of [Session] whose outcomes are all
    well-formed. *)
Lemma run_events_steps es s outs s' :
  run_events srv es s = Some (outs, s') →
  ∃ trace, trace.*2 = outs ∧ trace_wf trace ∧ steps s trace s'.
Proof.
  revert s outs. induction es as [|e es IH]; simpl; intros s outs.
  - intros [= <- <-]. exists []. split_and!; [done|constructor|constructor].
  - destruct (run_event srv e s) as [[out s1]|] eqn:He; simpl; [|done].
    destruct (run_events srv es s1) as [[outs' s2]|] eqn:Hes; simpl; [|done].
    intros [= <- <-]. apply run_event_step in He as (c & Hc & Hstep).
    destruct (IH _ _ Hes) as (trace & <- & Hwf & Hsteps).
    exists ((c, out) :: trace).
    split_and!; [done|by constructor|by econstructor].
Qed.

(** An event fails to run only when it delivers to a request that is
    not in flight. *)
Lemma run_event_None e s :
  run_event srv e s = None ↔ ∃ i, e = EDeliver i ∧ sys_tasks s !! i = None.
Proof.
  split.
  - unfold run_event. destruct (command_of srv e s) as [c|] eqn:Hc; simpl.
    + intros Hexec. destruct (step_enabled_command c s) as (out & s' & Hstep).
      { intros i o ->. destruct e; simplify_option_eq.
        by eapply lookup_lt_Some. }
      apply exec_complete in Hstep. congruence.
    + intros _. destruct e; simplify_option_eq. eauto.
  - intros (i & -> & Hi). unfold run_event. simpl. by rewrite Hi.
Qed.

(** C13: whatever the server answers and in whatever order the calls
    and the replies come, the key ['user'] stays absent or a serialised
    session record: axios hands the service well-formed bodies only. *)
Theorem served_session_ok es s outs s' :
  session_ok (sys_world s) → run_events srv es s = Some (outs, s') →
  session_ok (sys_world s').
Proof.
  revert s outs. induction es as [|e es IH]; simpl; intros s outs Hok.
  - by intros [= _ <-].
  - destruct (run_event srv e s) as [[out s1]|] eqn:He; simpl; [|done].
    destruct (run_events srv es s1) as [[outs' s2]|] eqn:Hes; simpl; [|done].
    intros [= _ <-]. apply run_event_step in He as (c & Hc & Hstep).
    destruct Hok as [a Ha].
    destruct (step_astep _ _ _ _ a Hc Ha Hstep) as (a1 & _ & Ha1).
    eapply IH; [by exists a1|done].
Qed.

End browser_facts.

Section storage_facts.
Context `{!JsonCodec}.
Implicit Types (s : system local_storage) (st : local_storage).

(** ** The room the service takes *)

(** A step leaves the items under the other keys, and the item under
    ['user'] stays within a bound that the session a [login] returns
    stays within. *)
Lemma step_storage_bound s c out s' B :
  step s c out s' →
  (∀ data, out = OLogin data → has_truthy "token" (Some data) = true →
     String.length USER_KEY + String.length (JSON_stringify data) ≤ B) →
  item_size USER_KEY (items (storage (sys_world s))) ≤ B →
  delete USER_KEY (items (storage (sys_world s'))) =
    delete USER_KEY (items (storage (sys_world s))) ∧
  item_size USER_KEY (items (storage (sys_world s'))) ≤ B.
Proof.
  intros Hstep Hout Hs.
  destruct (step_writes _ _ _ _ Hstep)
    as [->|[->|(data & -> & Htoken & [_ ->]%ls_setItem_Ok)]]; simpl.
  - done.
  - rewrite delete_delete_eq, item_size_delete. split; [done|lia].
  - rewrite delete_insert_eq, item_size_insert. split; [done|by apply Hout].
Qed.

(** C23: the service takes the room of one session,
    however many logins there are: along every sequence of calls and
    settled requests the store holds what the other keys held at the
    start and, under ['user'], at most the largest session that was
    there or that a [login] of the sequence returned. *)
Theorem steps_storage_bound s trace s' B :
  steps s trace s' →
  item_size USER_KEY (items (storage (sys_world s))) ≤ B →
  (∀ c data, (c, OLogin data) ∈ trace →
     has_truthy "token" (Some data) = true →
     String.length USER_KEY + String.length (JSON_stringify data) ≤ B) →
  storage_size (items (storage (sys_world s'))) ≤
    storage_size (delete USER_KEY (items (storage (sys_world s)))) + B.
Proof.
  induction 1 as [s|s c out s1 trace s2 Hstep _ IH]; intros Hs Hout.
  - rewrite (storage_size_item USER_KEY). lia.
  - destruct (step_storage_bound s c out s1 B Hstep) as [<- Hs1]; [|done|].
    { intros data ->. apply (Hout c). left. }
    apply IH; [done|]. intros c' data Hin. apply (Hout c'). by right.
Qed.

(** ** The last fallback of [login] *)

(** C27: in the browser the fixed text of the [catch] block is dead:
    every error that reaches the block has a message, so [login]
    returns the failure with ['Login failed. Please try again.'] only
    when the server itself sends that text as the [message] of a reply
    whose status does not validate. *)
Theorem login_fixed_text_from_server srv username password
    (w : world local_storage) :
  run_value (login username password (axios_post srv)) w =
    Ok (failure (JStr LOGIN_FAILED)) →
  ∃ wire, srv (transformRequest (login_request username password)) = Some wire ∧
    validateStatus (wire_status wire) = false ∧
    truthy_prop "message" (Some (transformResponse (wire_body wire))) =
      Some (JStr LOGIN_FAILED).
Proof.
  destruct (login_by_spec username password (axios_post srv) w _ _
              (surjective_pairing _)) as [-> _].
  unfold axios_post. rewrite login_spec_settle. unfold login_http_spec.
  destruct (srv _) as [wire|]; [|by intros [=]].
  destruct (validateStatus _) eqn:Hstatus.
  - destruct (has_truthy _ _) eqn:Htoken; [|by intros [=]].
    destruct (setItem _ _ _) as [st'|e] eqn:Hset; simpl.
    + intros [= Hdata]. by rewrite Hdata in Htoken.
    + apply ls_setItem_Throw in Hset as [_ ->]. by intros [=].
  - destruct (truthy_prop _ _) as [message|] eqn:Hmessage; simpl.
    + intros [= ->]. by exists wire.
    + by intros [=].
Qed.

End storage_facts.

(** ** The fuel of [JSON.parse] *)

(** C24: [getCurrentUser] never fails for lack of fuel: in the browser
    it returns [v] exactly when the parser, with some fuel, reads [v]
    from the text under ['user'] (from [null] when the key is absent).
    The fuel that [parse] computes from the length of the text is
    enough for every text. *)
Theorem getCurrentUser_fuel_free (w : world local_storage) v :
  getCurrentUser w = (Ok v, w) ↔
  ∃ fuel,
    parse_text fuel
      (String.list_ascii_of_string (default "null" (items (storage w) !! USER_KEY)))
    = Some v.
Proof.
  rewrite run_getCurrentUser, <- parse_fuel_enough.
  change (JSON_parse (default "null" (getItem USER_KEY (storage w))))
    with (parse (default "null" (items (storage w) !! USER_KEY))).
  split; [by intros [= ->]|by intros ->].
Qed.

(** ** The theorems at concrete inputs

    A server that accepts every login with the session [demo_session]
    and refuses every registration with status 409. *)

Definition demo_server : server :=
  λ request,
    if decide (wire_url request = API_URL +:+ "login")
    then Some (WireReply 200 (stringify demo_session))
    else Some (WireReply 409
                 (stringify (JObj [("message", JStr "Username is already taken")]))).

(** A server that refuses every request with the fixed text of the
    service as its message. *)
Definition echo_server : server :=
  λ _, Some (WireReply 401 (stringify (JObj [("message", JStr LOGIN_FAILED)]))).

(** A login and a registration are sent; the user logs out before the
    replies come. *)
Definition demo_events : list event :=
  [ELogin "bob" "secret"; ERegister "eve" "eve@example.org" "pw" "STAFF";
   ELogout; EDeliver 0; EDeliver 0; EGetCurrentUser].

Definition served_outputs : list output :=
  from_option fst [] (run_events demo_server demo_events demo_system).

Definition served_final : system local_storage :=
  from_option snd demo_system (run_events demo_server demo_events demo_system).

(** What the callers see in the run of [demo_events]: the login that
    settles after the logout returns its session, and the session is
    there afterwards; the registration is rejected with the error of
    axios. *)
Example served_outputs_eq :
  served_outputs =
    [OSent (login_request "bob" "secret");
     OSent (register_request "eve" "eve@example.org" "pw" "STAFF");
     OLogout;
     OLogin demo_session;
     ORegister (Throw (status_error
       (HttpResponse 409
          (Some (JObj [("message", JStr "Username is already taken")])))));
     OUser (Ok demo_session)].
Proof. by_eval. Qed.

Lemma served_session_ok_witness :
  (session_ok (sys_world demo_system) ∧
   run_events demo_server demo_events demo_system =
     Some (served_outputs, served_final)) ∧
  session_ok (sys_world served_final).
Proof.
  assert (session_ok (sys_world demo_system)) as H1
    by (exists None; apply demo_represents).
  assert (run_events demo_server demo_events demo_system =
          Some (served_outputs, served_final)) as H2 by by_eval.
  split; [split; assumption|].
  exact (served_session_ok demo_server demo_events demo_system served_outputs
           served_final H1 H2).
Defined.

Lemma steps_storage_bound_witness :
  let B := String.length USER_KEY + String.length (stringify demo_session) in
  (steps demo_system demo_trace demo_final ∧
   item_size USER_KEY (items (storage (sys_world demo_system))) ≤ B ∧
   (∀ c data, (c, OLogin data) ∈ demo_trace →
      has_truthy "token" (Some data) = true →
      String.length USER_KEY + String.length (JSON_stringify data) ≤ B)) ∧
  storage_size (items (storage (sys_world demo_final))) ≤
    storage_size (delete USER_KEY (items (storage (sys_world demo_system)))) + B.
Proof.
  intros B.
  assert (item_size USER_KEY (items (storage (sys_world demo_system))) ≤ B) as H1
    by (vm_compute; lia).
  assert (∀ c data, (c, OLogin data) ∈ demo_trace →
            has_truthy "token" (Some data) = true →
            String.length USER_KEY + String.length (JSON_stringify data) ≤ B) as H2.
  { intros c data Hin _. unfold demo_trace in Hin. simpl in Hin.
    rewrite !elem_of_cons, elem_of_nil in Hin.
    destruct Hin as [[=]|[[=]|[[= _ ->]|[[=]|[]]]]]. subst B. done. }
  split; [split_and!; [apply demo_steps|assumption|assumption]|].
  exact (steps_storage_bound demo_system demo_trace demo_final B demo_steps H1 H2).
Defined.

Lemma login_fixed_text_from_server_witness :
  run_value (login "bob" "secret" (axios_post echo_server)) demo_world =
    Ok (failure (JStr LOGIN_FAILED)) ∧
  ∃ wire, echo_server (transformRequest (login_request "bob" "secret")) =
            Some wire ∧
    validateStatus (wire_status wire) = false ∧
    truthy_prop "message" (Some (transformResponse (wire_body wire))) =
      Some (JStr LOGIN_FAILED).
Proof.
  assert (run_value (login "bob" "secret" (axios_post echo_server)) demo_world =
          Ok (failure (JStr LOGIN_FAILED))) as H1 by by_eval.
  split; [assumption|].
  exact (login_fixed_text_from_server echo_server "bob" "secret" demo_world H1).
Defined.
