(* ===== verification/Dashboard.v ===== *)
(** * The warehouse staff dashboard

    [WarehouseStaffDashboard.js] is a function without arguments or state
    that returns one JSX expression.  The model is that expression as a
    tree of elements, [WarehouseStaffDashboard], written element for
    element as in the source: the tag, the props in the order written,
    the children.  Conditions on such trees are executable ([grid_ok],
    [table_ok], [is_static]), each with the statement it decides for
    every tree; on the tree of the component they are evaluated, as
    examples. *)

From stdpp Require Import base option list strings.
From Stdlib Require Import ZArith Lia.
From S2P Require Import Prelude.

Local Open Scope Z_scope.

(** ** Elements *)

(** The value of a prop: [k="s"], [k={n}], or [k] alone, which is
    [true]. *)
Inductive prop_value : Type :=
| PStr (s : string)
| PNum (n : Z)
| PTrue.

Unset Elimination Schemes.
Inductive element : Type :=
| Text (s : string)
| Elem (tag : string) (props : list (string * prop_value))
    (children : list element).
Set Elimination Schemes.

Definition tag_of (e : element) : option string :=
  match e with
  | Text _ => None
  | Elem tag _ _ => Some tag
  end.

Definition props_of (e : element) : list (string * prop_value) :=
  match e with
  | Text _ => []
  | Elem _ props _ => props
  end.

Definition children_of (e : element) : list element :=
  match e with
  | Text _ => []
  | Elem _ _ children => children
  end.

Definition is_tag (tag : string) (e : element) : bool :=
  bool_decide (tag_of e = Some tag).

(** The prop [k] of an element: the first one written with that name. *)
Fixpoint lookup_prop (k : string) (props : list (string * prop_value)) :
    option prop_value :=
  match props with
  | [] => None
  | (k', v) :: props' => if String.eqb k k' then Some v else lookup_prop k props'
  end.

Definition get_attr (k : string) (e : element) : option prop_value :=
  lookup_prop k (props_of e).

(** The element and everything below it, in document order. *)
Fixpoint descendants (e : element) : list element :=
  e :: match e with
       | Text _ => []
       | Elem _ _ children => children ≫= descendants
       end.

(** The number of nodes of a tree. *)
Fixpoint element_size (e : element) : nat :=
  match e with
  | Text _ => 1
  | Elem _ _ children => S (list_sum (map element_size children))
  end.

(** The text of a tree, in document order. *)
Fixpoint text_content (e : element) : list string :=
  match e with
  | Text s => [s]
  | Elem _ _ children => children ≫= text_content
  end.

(** The elements with tag [tag], in document order. *)
Definition by_tag (tag : string) (e : element) : list element :=
  filter (λ x, is_tag tag x = true) (descendants e).

(** ** The grid of react-bootstrap

    A [Row] has twelve columns; a [Col] with [md={n}] takes [n] of them
    from the medium breakpoint up. *)

Definition GRID_COLUMNS : Z := 12.

Definition col_span (e : element) : option Z :=
  match get_attr "md" e with
  | Some (PNum n) => if bool_decide (1 ≤ n ≤ GRID_COLUMNS) then Some n else None
  | _ => None
  end.

(** The columns the children of a row take: [None] when a child is not
    a [Col] with a width. *)
Fixpoint row_span (cols : list element) : option Z :=
  match cols with
  | [] => Some 0
  | c :: cols' =>
      if is_tag "Col" c then
        n ← col_span c; m ← row_span cols'; Some (n + m)
      else None
  end.

(** A row is full: its children are columns that take the twelve
    columns of the grid, no less and no more. *)
Definition row_ok (row : element) : bool :=
  bool_decide (row_span (children_of row) = Some GRID_COLUMNS).

(** Every row of the tree is full. *)
Definition grid_ok (e : element) : bool :=
  forallb (λ x, implb (is_tag "Row" x) (row_ok x)) (descendants e).

(** ** Tables *)

(** The rows of the section [section] ([thead] or [tbody]) of a table:
    for each [tr], its cells. *)
Definition table_rows (section : string) (table : element) :
    list (list element) :=
  children_of <$>
    filter (λ x, is_tag "tr" x = true)
      (filter (λ x, is_tag section x = true) (children_of table)
         ≫= children_of).

(** The header is one row of [th], and every row of the body has as
    many [td] as the header has cells. *)
Definition table_ok (table : element) : bool :=
  match table_rows "thead" table with
  | [header] =>
      forallb (is_tag "th") header &&
      forallb (λ row, forallb (is_tag "td") row &&
                      bool_decide (length row = length header))
        (table_rows "tbody" table)
  | _ => false
  end.

(** ** Event handlers *)

(** A prop that names an event handler: [onClick], [onChange], ... *)
Definition is_handler (k : string) : bool := String.prefix "on" k.

(** No element of the tree reacts to an event. *)
Definition is_static (e : element) : bool :=
  forallb (λ x, forallb (λ p, negb (is_handler p.1)) (props_of x))
    (descendants e).

(** A card of the first row: its title, its figure and the label of its
    button. *)
Definition card_summary (card : element) : list string * list string * list string :=
  (by_tag "Card.Title" card ≫= text_content,
   by_tag "Card.Text" card ≫= text_content,
   by_tag "Button" card ≫= text_content).

(** ** The component

    The tree [WarehouseStaffDashboard] returns, in parts: the three cards
    of the first row, the table and the two cards of the second row. *)

Definition pending_orders_col : element :=
  Elem "Col" [("md", PNum 4)]
    [Elem "Card" [("className", PStr "mb-4")]
       [Elem "Card.Body" []
          [Elem "Card.Title" [] [Text "Pending Orders"];
           Elem "Card.Text" [("className", PStr "h2")] [Text "15"];
           Elem "Button" [("variant", PStr "primary"); ("size", PStr "sm")]
             [Text "Process Orders"]]]].

Definition items_to_pack_col : element :=
  Elem "Col" [("md", PNum 4)]
    [Elem "Card" [("className", PStr "mb-4")]
       [Elem "Card.Body" []
          [Elem "Card.Title" [] [Text "Items to Pack"];
           Elem "Card.Text" [("className", PStr "h2")] [Text "34"];
           Elem "Button" [("variant", PStr "primary"); ("size", PStr "sm")]
             [Text "View Packing List"]]]].

Definition low_stock_col : element :=
  Elem "Col" [("md", PNum 4)]
    [Elem "Card" [("className", PStr "mb-4")]
       [Elem "Card.Body" []
          [Elem "Card.Title" [] [Text "Low Stock Items"];
           Elem "Card.Text" [("className", PStr "h2")] [Text "8"];
           Elem "Button" [("variant", PStr "primary"); ("size", PStr "sm")]
             [Text "Check Inventory"]]]].

Definition tasks_table : element :=
  Elem "Table" [("responsive", PTrue)]
    [Elem "thead" []
       [Elem "tr" []
          [Elem "th" [] [Text "Order ID"];
           Elem "th" [] [Text "Items"];
           Elem "th" [] [Text "Priority"];
           Elem "th" [] [Text "Status"];
           Elem "th" [] [Text "Actions"]]];
     Elem "tbody" []
       [Elem "tr" []
          [Elem "td" [] [Text "#5678"];
           Elem "td" [] [Text "5 items"];
           Elem "td" []
             [Elem "span" [("className", PStr "badge bg-danger")] [Text "High"]];
           Elem "td" [] [Text "Pending"];
           Elem "td" []
             [Elem "Button" [("variant", PStr "primary"); ("size", PStr "sm")]
                [Text "Process"]]];
        Elem "tr" []
          [Elem "td" [] [Text "#5679"];
           Elem "td" [] [Text "3 items"];
           Elem "td" []
             [Elem "span" [("className", PStr "badge bg-warning")]
                [Text "Medium"]];
           Elem "td" [] [Text "Packing"];
           Elem "td" []
             [Elem "Button" [("variant", PStr "primary"); ("size", PStr "sm")]
                [Text "Complete"]]]]].

Definition tasks_col : element :=
  Elem "Col" [("md", PNum 8)]
    [Elem "Card" [("className", PStr "mb-4")]
       [Elem "Card.Header" [] [Text "Today's Tasks"];
        Elem "Card.Body" [] [tasks_table]]].

Definition quick_actions_col : element :=
  Elem "Col" [("md", PNum 4)]
    [Elem "Card" [("className", PStr "mb-4")]
       [Elem "Card.Header" [] [Text "Quick Actions"];
        Elem "Card.Body" []
          [Elem "div" [("className", PStr "d-grid gap-2")]
             [Elem "Button"
                [("variant", PStr "primary"); ("className", PStr "mb-2")]
                [Text "Scan New Items"];
              Elem "Button"
                [("variant", PStr "outline-primary"); ("className", PStr "mb-2")]
                [Text "Print Labels"];
              Elem "Button"
                [("variant", PStr "outline-primary"); ("className", PStr "mb-2")]
                [Text "Update Stock"];
              Elem "Button" [("variant", PStr "outline-primary")]
                [Text "Report Issue"]]]]].

Definition stats_row : element :=
  Elem "Row" [] [pending_orders_col; items_to_pack_col; low_stock_col].

Definition work_row : element := Elem "Row" [] [tasks_col; quick_actions_col].

Definition WarehouseStaffDashboard : element :=
  Elem "Container" [("fluid", PTrue); ("className", PStr "mt-4")]
    [Elem "h2" [("className", PStr "mb-4")] [Text "Warehouse Staff Dashboard"];
     stats_row;
     work_row].

(** ** Induction and equality on elements *)

Section element_induction.
Variable P : element → Prop.
Hypothesis Htext : ∀ s, P (Text s).
Hypothesis Helem : ∀ tag props children,
  Forall P children → P (Elem tag props children).

Fixpoint element_ind' (e : element) : P e :=
  match e with
  | Text s => Htext s
  | Elem tag props children =>
      Helem tag props children
        ((fix go (l : list element) : Forall P l :=
            match l with
            | [] => Forall_nil_2 P
            | x :: l' => Forall_cons_2 P x l' (element_ind' x) (go l')
            end) children)
  end.

End element_induction.

#[export] Instance prop_value_eq_dec : EqDecision prop_value.
Proof. solve_decision. Defined.

#[export] Instance element_eq_dec : EqDecision element.
Proof.
  refine (fix go (x y : element) {struct x} : Decision (x = y) :=
    match x, y with
    | Text a, Text b => cast_if (decide (a = b))
    | Elem t1 p1 c1, Elem t2 p2 c2 =>
        cast_if_and3 (decide (t1 = t2)) (decide (p1 = p2))
          (@list_eq_dec _ go c1 c2)
    | _, _ => right _
    end); clear go; solve [by subst | by intros [=]].
Defined.

(** ** Trees *)

Lemma descendants_self e : e ∈ descendants e.
Proof. destruct e; apply list_elem_of_here. Qed.

Lemma descendants_child e c x :
  c ∈ children_of e → x ∈ descendants c → x ∈ descendants e.
Proof.
  destruct e as [s|tag props children]; simpl; [by intros ?%elem_of_nil|].
  intros Hc Hx. apply list_elem_of_further, list_elem_of_bind. by exists c.
Qed.

(** Below is transitive. *)
Lemma descendants_trans e : ∀ y x,
  y ∈ descendants e → x ∈ descendants y → x ∈ descendants e.
Proof.
  induction e as [s|tag props children IH] using element_ind'; intros y x.
  - simpl. by intros ->%list_elem_of_singleton.
  - simpl. intros [->|Hy]%elem_of_cons Hx; [done|].
    apply list_elem_of_bind in Hy as (c & Hy & Hc).
    apply list_elem_of_further, list_elem_of_bind. exists c. split; [|done].
    rewrite Forall_forall in IH. by apply (IH c Hc y).
Qed.

Lemma length_descendants e : length (descendants e) = element_size e.
Proof.
  induction e as [s|tag props children IH] using element_ind'; [done|].
  simpl. f_equal. induction IH as [|c children Hc _ IHc]; [done|].
  rewrite bind_cons, length_app, Hc, IHc. done.
Qed.

(** A condition on every element of a tree holds of the trees below. *)
Lemma forallb_descendants_child (p : element → bool) e c :
  forallb p (descendants e) = true → c ∈ children_of e →
  forallb p (descendants c) = true.
Proof.
  rewrite !forallb_forall. intros He Hc x Hx%list_elem_of_In.
  apply He, list_elem_of_In. by apply (descendants_child e c).
Qed.

(** ** The grid *)

Lemma col_span_bounds c n : col_span c = Some n → 1 ≤ n ≤ GRID_COLUMNS.
Proof.
  unfold col_span. destruct (get_attr "md" c) as [[s|m|]|]; try done.
  case_bool_decide; [|done]. by intros [= <-].
Qed.

(** The columns of a row each take at least one column of the grid. *)
Lemma row_span_length cols n :
  row_span cols = Some n → Z.of_nat (length cols) ≤ n.
Proof.
  revert n. induction cols as [|c cols IH]; simpl; intros n.
  - intros [= <-]. lia.
  - destruct (is_tag "Col" c); [|done].
    destruct (col_span c) as [k|] eqn:Hk; [simpl|done].
    destruct (row_span cols) as [m|]; [simpl|done].
    intros [= <-]. apply col_span_bounds in Hk. specialize (IH m eq_refl). lia.
Qed.

Lemma row_span_cols cols n :
  row_span cols = Some n → Forall (λ c, is_tag "Col" c = true) cols.
Proof.
  revert n. induction cols as [|c cols IH]; simpl; intros n; [by constructor|].
  destruct (is_tag "Col" c) eqn:Hc; [|done].
  destruct (col_span c) as [k|]; [simpl|done].
  destruct (row_span cols) as [m|] eqn:Hm; [simpl|done].
  intros _. constructor; [done|]. by apply (IH m).
Qed.

Lemma row_span_app cols1 cols2 n1 n2 :
  row_span cols1 = Some n1 → row_span cols2 = Some n2 →
  row_span (cols1 ++ cols2) = Some (n1 + n2).
Proof.
  revert n1. induction cols1 as [|c cols1 IH]; simpl; intros n1.
  - by intros [= <-].
  - destruct (is_tag "Col" c); [|done].
    destruct (col_span c) as [k|]; [simpl|done].
    destruct (row_span cols1) as [m|]; [simpl|done].
    intros [= <-] H2. rewrite (IH m eq_refl H2). simpl. f_equal. lia.
Qed.

Lemma grid_ok_spec e :
  grid_ok e = true ↔
  ∀ row, row ∈ descendants e → is_tag "Row" row = true →
         row_span (children_of row) = Some GRID_COLUMNS.
Proof.
  unfold grid_ok, row_ok. rewrite forallb_forall. split.
  - intros H row Hrow%list_elem_of_In Htag. specialize (H row Hrow).
    rewrite Htag in H. simpl in H. by apply bool_decide_eq_true in H.
  - intros H row Hrow%list_elem_of_In. destruct (is_tag "Row" row) eqn:Htag;
      [simpl|done]. by apply bool_decide_eq_true, H.
Qed.

Lemma grid_ok_child e c : grid_ok e = true → c ∈ children_of e → grid_ok c = true.
Proof. apply forallb_descendants_child. Qed.

(** ** Tables *)

Lemma table_ok_spec table :
  table_ok table = true →
  ∃ header, table_rows "thead" table = [header] ∧
    Forall (λ c, is_tag "th" c = true) header ∧
    ∀ row, row ∈ table_rows "tbody" table →
           Forall (λ c, is_tag "td" c = true) row ∧ length row = length header.
Proof.
  unfold table_ok. destruct (table_rows "thead" table) as [|header [|]]; try done.
  intros [Hth Hrows]%andb_true_iff. exists header. split; [done|].
  split; [by apply Forall_forall; intros c ?%list_elem_of_In;
          apply (proj1 (forallb_forall _ _) Hth)|].
  intros row Hrow%list_elem_of_In.
  apply (proj1 (forallb_forall _ _) Hrows) in Hrow as [Htd Hlen]%andb_true_iff.
  apply bool_decide_eq_true in Hlen. split; [|done].
  apply Forall_forall. intros c ?%list_elem_of_In.
  by apply (proj1 (forallb_forall _ _) Htd).
Qed.

(** ** Event handlers *)

Lemma is_static_spec e :
  is_static e = true ↔
  ∀ x k v, x ∈ descendants e → (k, v) ∈ props_of x → is_handler k = false.
Proof.
  unfold is_static. rewrite forallb_forall. split.
  - intros H x k v Hx%list_elem_of_In Hk%list_elem_of_In.
    apply H in Hx. rewrite forallb_forall in Hx. apply Hx in Hk.
    by apply negb_true_iff in Hk.
  - intros H x Hx%list_elem_of_In. apply forallb_forall.
    intros [k v] Hk%list_elem_of_In. apply negb_true_iff. by apply (H x k v).
Qed.

Lemma is_static_child e c :
  is_static e = true → c ∈ children_of e → is_static c = true.
Proof. apply forallb_descendants_child. Qed.

(** ** The dashboard

    The component is one fixed tree, so what holds of it is found by
    evaluating the conditions on it: every [Row] is full, the one table
    is well formed, no element has an event handler, and the figures are
    the fixed ones of the source. *)

Example dashboard_grid_ok : grid_ok WarehouseStaffDashboard = true.
Proof. by_eval. Qed.

Example dashboard_table_ok :
  by_tag "Table" WarehouseStaffDashboard = [tasks_table] ∧
  table_ok tasks_table = true ∧
  length <$> table_rows "thead" tasks_table = [5%nat] ∧
  length <$> table_rows "tbody" tasks_table = [5%nat; 5%nat].
Proof. split_and!; by_eval. Qed.

Example dashboard_is_static :
  is_static WarehouseStaffDashboard = true ∧
  length (by_tag "Button" WarehouseStaffDashboard) = 9%nat.
Proof. split; by_eval. Qed.

Example dashboard_figures :
  card_summary <$> children_of stats_row =
    [(["Pending Orders"], ["15"], ["Process Orders"]);
     (["Items to Pack"], ["34"], ["View Packing List"]);
     (["Low Stock Items"], ["8"], ["Check Inventory"])].
Proof. by_eval. Qed.
